(** * Verification reporters of Rally: a model of
      [rally/plugins/common/verification/reporters.py]

    The module turns a list of verification runs into a JSON or an HTML
    report.  Its own logic is the aggregation loop of
    [JSONReporter._generate], the rewriting of "Skipped until Bug" reasons,
    and the post-processing of [HTMLReporter.generate] (the [has_details]
    flag and the durations compared with the first run).

    Python values are modelled as follows.
    - [str] is [string] (byte strings).
    - [float] is the kernel's binary64 ([PrimFloat.float]); [str(x)] of a
      float is the shortest decimal string that reads back as [x].
    - a [dict] is an association list kept in insertion order, with at most
      one binding per key.
    - [json.dumps], [datetime.strftime] and the Jinja template returned by
      [rally.ui.utils.get_template] are collaborators outside of the module
      and are variables of the development: functions of the values that
      they are given.  The keys of a dictionary ([d.keys()], which the HTML
      reporter hands to [json.dumps] as "uuids") are the list of the keys in
      their order; a serializer that refuses a view of keys, as the one of
      Python 3 does, is outside of this model. *)

From Stdlib Require Import ZArith String Ascii List Bool Lia.
From Stdlib Require Import Numbers.DecimalString.
From Stdlib Require Import Floats.PrimFloat Floats.SpecFloat Floats.FloatOps.
Import ListNotations.

Set Warnings "-inexact-float,-register-all".

Open Scope string_scope.
Open Scope Z_scope.

(** ** Strings *)

Module PyStr.

(** [s.startswith(p)] *)
Definition startswith (s p : string) : bool := String.prefix p s.

(** [bool(s)]: a string is true when it is not empty. *)
Definition truthy (s : string) : bool :=
  match s with
  | EmptyString => false
  | String _ _ => true
  end.

(** [c.isspace()] on the characters below 128: tab, line feed, vertical
    tab, form feed, carriage return, the four separators 0x1c..0x1f, and
    the space. *)
Definition isspace (c : ascii) : bool :=
  let n := N.to_nat (N_of_ascii c) in
  ((9 <=? n) && (n <=? 13) || (28 <=? n) && (n <=? 32))%nat.

(** [s.lstrip()] *)
Fixpoint lstrip (s : string) : string :=
  match s with
  | EmptyString => EmptyString
  | String c s' => if isspace c then lstrip s' else s
  end.

(** [s.rstrip()]: the characters of [s] up to the last one that is not
    a space. *)
Fixpoint rstrip (s : string) : string :=
  match s with
  | EmptyString => EmptyString
  | String c s' =>
      match rstrip s' with
      | EmptyString => if isspace c then EmptyString else String c EmptyString
      | r => String c r
      end
  end.

(** [s.strip()] *)
Definition strip (s : string) : string := rstrip (lstrip s).

(** [c.isdigit()] for a byte: '0'..'9'. *)
Definition isdigit (c : ascii) : bool :=
  let n := N.to_nat (N_of_ascii c) in
  ((48 <=? n) && (n <=? 57))%nat.

Fixpoint all_chars (p : ascii -> bool) (s : string) : bool :=
  match s with
  | EmptyString => true
  | String c s' => p c && all_chars p s'
  end.

(** [n] copies of the character [c]. *)
Fixpoint replicate (n : nat) (c : ascii) : string :=
  match n with
  | O => EmptyString
  | S n' => String c (replicate n' c)
  end.

(** The decimal numeral of a natural number or of an integer. *)
Definition of_Z (z : Z) : string := NilZero.string_of_int (Z.to_int z).

(** [s[:n]] and [s[n:]] *)
Definition take (n : nat) (s : string) : string := String.substring 0 n s.
Definition drop (n : nat) (s : string) : string :=
  String.substring n (String.length s - n) s.

End PyStr.

(** ** Floats

    [float.__repr__] (which is also [str] and the "%s" conversion):
    the shortest string of decimal digits that [float()] reads back as the
    same binary64 number, written with an exponent when the decimal point
    falls outside of the digits by more than Python allows. *)

Module PyFloat.

(** A positive finite binary64 [m * 2^e] lies in the rounding interval
    [[lo, hi]] around it; the three are returned as numerators over the
    common denominator [den]. The interval is closed when [m] is even
    (ties round to even). *)
Record interval := { lo : Z; mid : Z; hi : Z; den : Z; closed : bool }.

Definition rounding_interval (m : positive) (e : Z) : interval :=
  let m := Zpos m in
  (* below a power of two the spacing of the floats halves *)
  let below := if (m =? 2 ^ 52) && (-1074 <? e) then 1 else 2 in
  let sh := e - 2 in
  let num := if 0 <=? sh then 2 ^ sh else 1 in
  {| lo := (4 * m - below) * num;
     mid := 4 * m * num;
     hi := (4 * m + 2) * num;
     den := if 0 <=? sh then 1 else 2 ^ (- sh);
     closed := Z.even m |}.

(** The [p] with [10^(p-1) <= n/d < 10^p], for [n/d > 0]. *)
Fixpoint scale_up (fuel : nat) (n d : Z) (k : Z) : Z :=
  match fuel with
  | O => k
  | S fuel' => if d <=? n then k else scale_up fuel' (10 * n) d (k - 1)
  end.

Fixpoint scale_down (fuel : nat) (n d : Z) (k : Z) : Z :=
  match fuel with
  | O => k
  | S fuel' => if n <? d then k else scale_down fuel' n (10 * d) (k + 1)
  end.

Definition decimal_exponent (n d : Z) : Z :=
  if d <=? n then scale_down 400 n d 0 else scale_up 400 (10 * n) d 0.

(** The digits of length [n] nearest to the number, when a number with
    that many digits lies in the interval: [Some c] stands for
    [c * 10^(p - n)]. *)
Definition digits_of_length (i : interval) (p : Z) (n : Z) : option Z :=
  let q := p - n in
  let up := if 0 <=? q then 1 else 10 ^ (- q) in
  let b := if 0 <=? q then den i * 10 ^ q else den i in
  let inside c :=
    if closed i then (lo i * up <=? c * b) && (c * b <=? hi i * up)
    else (lo i * up <? c * b) && (c * b <? hi i * up) in
  let c0 := (mid i * up) / b in
  let c1 := c0 + 1 in
  let d0 := mid i * up - c0 * b in
  let d1 := c1 * b - mid i * up in
  match inside c0, inside c1 with
  | true, true =>
      if d0 <? d1 then Some c0
      else if d1 <? d0 then Some c1
      else if Z.even c0 then Some c0 else Some c1
  | true, false => Some c0
  | false, true => Some c1
  | false, false => None
  end.

Fixpoint shortest (fuel : nat) (i : interval) (p : Z) (n : Z) : Z * Z :=
  match fuel with
  | O => (0, 0)
  | S fuel' =>
      match digits_of_length i p n with
      | Some c => (c, p - n)
      | None => shortest fuel' i p (n + 1)
      end
  end.

(** Trailing zeros are not digits of the result. *)
Fixpoint strip_zeros (fuel : nat) (c q : Z) : Z * Z :=
  match fuel with
  | O => (c, q)
  | S fuel' =>
      if (c mod 10 =? 0) && negb (c =? 0) then strip_zeros fuel' (c / 10) (q + 1)
      else (c, q)
  end.

(** The digits [ds] and the position [decpt] of the decimal point:
    the number is [0.ds * 10^decpt]. *)
Definition shortest_digits (m : positive) (e : Z) : string * Z :=
  let i := rounding_interval m e in
  let p := decimal_exponent (mid i) (den i) in
  let '(c, q) := shortest 17 i p 1 in
  let '(c, q) := strip_zeros 400 c q in
  let ds := PyStr.of_Z c in
  (ds, q + Z.of_nat (String.length ds)).

(** The exponent is written with a sign and at least two digits. *)
Definition exponent_str (x : Z) : string :=
  let a := PyStr.of_Z (Z.abs x) in
  (if x <? 0 then "-" else "+") ++ (if Z.abs x <? 10 then "0" else "") ++ a.

(** Python writes an exponent when [decpt <= -4] or [decpt > 16], and
    appends ".0" to a number without a fractional part otherwise. *)
Definition format_digits (ds : string) (decpt : Z) : string :=
  let n := Z.of_nat (String.length ds) in
  if (decpt <=? -4) || (16 <? decpt) then
    PyStr.take 1 ds
    ++ (if 1 <? n then "." ++ PyStr.drop 1 ds else "")
    ++ "e" ++ exponent_str (decpt - 1)
  else if decpt <=? 0 then
    "0." ++ PyStr.replicate (Z.to_nat (- decpt)) "0" ++ ds
  else if decpt <? n then
    PyStr.take (Z.to_nat decpt) ds ++ "." ++ PyStr.drop (Z.to_nat decpt) ds
  else
    ds ++ PyStr.replicate (Z.to_nat (decpt - n)) "0" ++ ".0".

(** [repr(x)], which is [str(x)] and ["%s" % x]. *)
Definition repr (x : float) : string :=
  match Prim2SF x with
  | S754_nan => "nan"
  | S754_infinity s => if s then "-inf" else "inf"
  | S754_zero s => if s then "-0.0" else "0.0"
  | S754_finite s m e =>
      let '(ds, decpt) := shortest_digits m e in
      (if s then "-" else "") ++ format_digits ds decpt
  end.

(** The value of a string of decimal digits. *)
Fixpoint digits_value (s : string) (acc : Z) : Z :=
  match s with
  | EmptyString => acc
  | String c s' => digits_value s' (10 * acc + (Z.of_N (N_of_ascii c) - 48))
  end.

(** [float(s)] for a string: the binary64 nearest to the number,
    [None] for ValueError. Only the numerals made of decimal digits are
    read here; a sign, a decimal point or an exponent is not. *)
Definition of_str (s : string) : option float :=
  if PyStr.truthy s && PyStr.all_chars PyStr.isdigit s then
    Some (SF2Prim (binary_normalize prec emax (digits_value s 0) 0 false))
  else None.

End PyFloat.


(** ** Regular expressions

    The two uses of [re] in the module: [SKIP_RE.match(reason)] with its
    named group, and [re.sub(pattern, repl, string)].  A pattern is the
    sequence of its items, as [re.compile] reads the pattern string from
    left to right; quantifiers are greedy and give back characters when the
    rest of the pattern fails. *)

Module Re.

(** What one character is matched against: a literal character, [.]
    (any character but a line feed) or [\d]. *)
Inductive cls := Lit (c : ascii) | Dot | Digit.

Definition cls_match (k : cls) (c : ascii) : bool :=
  match k with
  | Lit a => Ascii.eqb a c
  | Dot => negb (Ascii.eqb c "010")
  | Digit => PyStr.isdigit c
  end.

(** [x], [x?], [x+], and the two ends of the named group. *)
Inductive item := One (k : cls) | Opt (k : cls) | Plus (k : cls) | Open | Close.

Definition pattern := list item.

(** A match remembers the text left at the start and at the end of the
    group, and the text left after the whole match. *)
Record marks := { at_open : string; at_close : string }.

(** [k*] followed by the rest of the pattern [rest]: as many characters
    as possible first. *)
Fixpoint star {R} (k : cls) (s : string) (rest : string -> option R) : option R :=
  match s with
  | String c s' =>
      if cls_match k c then
        match star k s' rest with
        | Some r => Some r
        | None => rest s
        end
      else rest s
  | EmptyString => rest s
  end.

(** Matching [p] at the start of [s]: the marks and the text left. *)
Fixpoint run (p : pattern) (s : string) (mk : marks) : option (marks * string) :=
  match p with
  | [] => Some (mk, s)
  | One k :: p' =>
      match s with
      | String c s' => if cls_match k c then run p' s' mk else None
      | EmptyString => None
      end
  | Opt k :: p' =>
      match s with
      | String c s' =>
          if cls_match k c then
            match run p' s' mk with
            | Some r => Some r
            | None => run p' s mk
            end
          else run p' s mk
      | EmptyString => run p' s mk
      end
  | Plus k :: p' =>
      match s with
      | String c s' =>
          if cls_match k c then star k s' (fun t => run p' t mk) else None
      | EmptyString => None
      end
  | Open :: p' => run p' s {| at_open := s; at_close := at_close mk |}
  | Close :: p' => run p' s {| at_open := at_open mk; at_close := s |}
  end.

(** [re.compile(p).match(s)]: a match object or [None]; the pattern is
    only tried at the start of [s] and need not reach its end. *)
Definition rmatch (p : pattern) (s : string) : option (marks * string) :=
  run p s {| at_open := s; at_close := s |}.

(** [m.group("bug_number")] *)
Definition group (m : marks * string) : string :=
  let mk := fst m in
  PyStr.take (String.length (at_open mk) - String.length (at_close mk)) (at_open mk).

(** The pattern of a string without special characters: each character
    stands for itself. *)
Fixpoint literal (s : string) : pattern :=
  match s with
  | EmptyString => []
  | String c s' => One (Lit c) :: literal s'
  end.

(** The number of characters of the match of [p] at the start of [s]. *)
Definition match_length (p : pattern) (s : string) : option nat :=
  match rmatch p s with
  | Some (_, rest) => Some (String.length s - String.length rest)%nat
  | None => None
  end.

(** [re.sub(p, repl, s)] for a pattern that matches no empty string and
    a replacement without backslash: every match found from left to
    right is replaced, the search going on after the match. [skip]
    counts the characters of the last match that are still to be
    passed. *)
Fixpoint sub_from (p : pattern) (repl : string) (s : string) (skip : nat) : string :=
  match s with
  | EmptyString => EmptyString
  | String c s' =>
      match skip with
      | S k => sub_from p repl s' k
      | O =>
          match match_length p s with
          | Some (S n) => repl ++ sub_from p repl s' n
          | _ => String c (sub_from p repl s' 0)
          end
      end
  end.

Definition sub (p : pattern) (repl : string) (s : string) : string :=
  sub_from p repl s 0.

End Re.

(** [SKIP_RE = re.compile("Skipped until Bug: ?(?P<bug_number>\d+) is resolved.")] *)
Definition SKIP_RE : Re.pattern :=
  (Re.literal "Skipped until Bug:"
   ++ [Re.Opt (Re.Lit " "); Re.Open; Re.Plus Re.Digit; Re.Close]
   ++ Re.literal " is resolved"
   ++ [Re.One Re.Dot])%list.

(** [LP_BUG_LINK % x] *)
Definition LP_BUG_LINK (x : string) : string := "https://launchpad.net/bugs/" ++ x.


(** The text [a ++ t] has no occurrence of [p] that starts inside of
    [a]. *)
Definition no_occurrence_within (p a t : string) : Prop :=
  forall (a1 a2 : string) (c : ascii),
    a = a1 ++ String c a2 -> String.prefix p (String c a2 ++ t) = false.

(** A call that raises an exception returns [None]. *)
Notation "x <- a ;; b" :=
  (match a with Some x => b | None => None end)
  (at level 61, a at next level, right associativity).
Notation "' p <- a ;; b" :=
  (match a with Some p => b | None => None end)
  (at level 61, p pattern, a at next level, right associativity).

(** ** Dictionaries and sorting *)

Module Dict.

(** A [dict] with string keys, the bindings in insertion order. *)
Definition t (V : Type) := list (string * V).

(** [d.get(k)], which is [d[k]] when the key is bound *)
Fixpoint get {V} (k : string) (d : t V) : option V :=
  match d with
  | [] => None
  | (k', v) :: d' => if String.eqb k k' then Some v else get k d'
  end.

(** [k in d] *)
Definition contains {V} (k : string) (d : t V) : bool :=
  match get k d with
  | Some _ => true
  | None => false
  end.

(** [d[k] = v]: the binding of [k] is replaced where it stands, a new
    key is added at the end. *)
Fixpoint set {V} (k : string) (v : V) (d : t V) : t V :=
  match d with
  | [] => [(k, v)]
  | (k', v') :: d' =>
      if String.eqb k k' then (k', v) :: d' else (k', v') :: set k v d'
  end.

(** The object bound to [k] is changed in place by [f], as in
    [d[k][...] = ...]. Every use in this file is on a key that is
    bound. *)
Fixpoint update {V} (k : string) (f : V -> V) (d : t V) : t V :=
  match d with
  | [] => []
  | (k', v') :: d' =>
      if String.eqb k k' then (k', f v') :: d' else (k', v') :: update k f d'
  end.

(** [d.keys()] and [d.values()] *)
Definition keys {V} (d : t V) : list string := map fst d.
Definition values {V} (d : t V) : list V := map snd d.

End Dict.

Module PyList.

(** [sorted(l, key=key, reverse=reverse)] is a stable sort: elements
    with equal keys keep their order, also with [reverse=True] (the
    list is reversed before and after the sort). [le] compares two
    keys. *)
Section Sorted.
Context {A K : Type} (le : K -> K -> bool) (key : A -> K).

Fixpoint insert (x : A) (l : list A) : list A :=
  match l with
  | [] => [x]
  | y :: l' => if le (key x) (key y) then x :: l else y :: insert x l'
  end.

Fixpoint sort (l : list A) : list A :=
  match l with
  | [] => []
  | x :: l' => insert x (sort l')
  end.

Definition sorted (reverse : bool) (l : list A) : list A :=
  if reverse then rev (sort (rev l)) else sort l.
End Sorted.

(** [False <= True] *)
Definition bool_le (a b : bool) : bool := implb a b.

(** [l[0]] and [l[-1]]; [None] stands for IndexError. *)
Definition first {A} (l : list A) : option A := hd_error l.
Definition last {A} (l : list A) : option A := hd_error (rev l).

(** [l[-1] = x] *)
Definition set_last {A} (x : A) (l : list A) : option (list A) :=
  match rev l with
  | [] => None
  | _ :: r => Some (rev (x :: r))
  end.

End PyList.

(** ** The data of a report *)

(** Values that [json.dumps] writes. *)
Inductive pyval :=
| PNone
| PBool (b : bool)
| PInt (z : Z)
| PFloat (f : float)
| PStr (s : string)
| PList (l : list pyval)
| PDict (d : list (string * pyval)).


(** One entry of [v.tests]: the result of a test in a run. The keys
    "tags", "reason" and "traceback" may be missing. *)
Module Result.
Record t := {
  name : string;
  tags : option (list string);
  status : string;
  duration : float;
  reason : option string;
  traceback : option string }.
End Result.

(** What the key "duration" of a per-run record holds: the number of the
    run, or the text that the HTML report shows in its place. *)
Inductive duration_value := DFloat (f : float) | DStr (s : string).

(** [float(d)], ["%s" % d] and [d == "0"] *)
Definition py_float (d : duration_value) : option float :=
  match d with
  | DFloat f => Some f
  | DStr s => PyFloat.of_str s
  end.

Definition py_str (d : duration_value) : string :=
  match d with
  | DFloat f => PyFloat.repr f
  | DStr s => s
  end.

Definition is_zero_str (d : duration_value) : bool :=
  match d with
  | DFloat _ => false
  | DStr s => String.eqb s "0"
  end.

(** [tests[test_id]["by_verification"][uuid]]. The key "details" is
    missing ([None]), bound to [None] ([Some None]) or to a text. *)
Module Info.
Record t := {
  status : string;
  duration : duration_value;
  details : option (option string) }.

Definition set_details (d : option string) (i : t) : t :=
  {| status := status i; duration := duration i; details := Some d |}.

Definition set_duration (d : duration_value) (i : t) : t :=
  {| status := status i; duration := d; details := details i |}.
End Info.

(** [tests[test_id]]. The key "has_details" is only bound by the HTML
    reporter. *)
Module Test.
Record t := {
  tags : list string;
  name : string;
  by_verification : Dict.t Info.t;
  has_details : option bool }.

Definition set_by_verification (b : Dict.t Info.t) (x : t) : t :=
  {| tags := tags x; name := name x; by_verification := b;
     has_details := has_details x |}.

Definition set_has_details (h : bool) (x : t) : t :=
  {| tags := tags x; name := name x; by_verification := by_verification x;
     has_details := Some h |}.
End Test.

(** Two line feeds. *)
Definition blank_line : string := String "010" (String "010" EmptyString).

(** Lines 79-85: the reason of a result, with the bug number of a
    "Skipped until Bug" reason replaced by its link. *)
Definition rewritten_reason (result : Result.t) : string :=
  let reason := match Result.reason result with Some r => r | None => "" end in
  if PyStr.truthy reason then
    match Re.rmatch SKIP_RE reason with
    | Some m =>
        let link := LP_BUG_LINK (Re.group m) in
        Re.sub (Re.literal (Re.group m)) link reason
    | None => reason
    end
  else reason.

(** Lines 86-88: the value [d], [None] when the text is empty. *)
Definition details_of (result : Result.t) : option string :=
  let reason := rewritten_reason result in
  let traceback := match Result.traceback result with Some t => t | None => "" end in
  let sep := if PyStr.truthy reason && PyStr.truthy traceback then blank_line else "" in
  let d := reason ++ sep ++ PyStr.strip traceback in
  if PyStr.truthy d then Some d else None.

(** Lines 68-69 *)
Definition sorted_tags (result : Result.t) : list string :=
  PyList.sorted PyList.bool_le (fun tag => PyStr.startswith tag "id-") true
    (match Result.tags result with Some l => l | None => [] end).

(** Lines 74-90: the per-run record that a result leaves in
    [tests[test_id]["by_verification"]]. *)
Definition record_of (result : Result.t) : Info.t :=
  {| Info.status := Result.status result;
     Info.duration := DFloat (Result.duration result);
     Info.details := match details_of result with
                     | Some d => Some (Some d)
                     | None => None
                     end |}.

(** Lines 65-90: the body of the loop over [v.tests.items()], for the run
    [uuid]. *)
Definition add_result (uuid : string) (tests : Dict.t Test.t)
    (item : string * Result.t) : Dict.t Test.t :=
  let '(test_id, result) := item in
  let tests :=
    if negb (Dict.contains test_id tests) then
      Dict.set test_id
        {| Test.tags := sorted_tags result;
           Test.name := Result.name result;
           Test.by_verification := [];
           Test.has_details := None |} tests
    else tests in
  let tests :=
    Dict.update test_id
      (fun t => Test.set_by_verification
         (Dict.set uuid
            {| Info.status := Result.status result;
               Info.duration := DFloat (Result.duration result);
               Info.details := None |} (Test.by_verification t)) t) tests in
  match details_of result with
  | Some d =>
      Dict.update test_id
        (fun t => Test.set_by_verification
           (Dict.update uuid (Info.set_details (Some d)) (Test.by_verification t)) t)
        tests
  | None => tests
  end.

(** The records of a test, one after the other: what is left in
    [by_verification] after the results [rs] (each with the uuid of its
    run) were met, starting from [b]. *)
Definition add_record (b : Dict.t Info.t) (ur : string * Result.t) : Dict.t Info.t :=
  Dict.set (fst ur) (record_of (snd ur)) b.

Definition add_records (rs : list (string * Result.t)) (b : Dict.t Info.t) : Dict.t Info.t :=
  fold_left add_record rs b.

(** The results of the test [test_id] among the results [l] (each with
    the uuid of its run), in the order of [l]. *)
Definition results_of_test (test_id : string) (l : list (string * (string * Result.t)))
    : list (string * Result.t) :=
  map (fun x => (fst x, snd (snd x)))
    (filter (fun x => String.eqb (fst (snd x)) test_id) l).

(** The body of the loop on a result that comes with the uuid of its
    run. *)
Definition add_flat (tests : Dict.t Test.t) (x : string * (string * Result.t))
    : Dict.t Test.t :=
  add_result (fst x) tests (snd x).

(** The three reporters. *)
Inductive reporter_class := JSONReporter | HTMLReporter | HTMLStaticReporter.

Definition TIME_FORMAT (cls : reporter_class) : string :=
  match cls with
  | JSONReporter => "%Y-%m-%dT%H:%M:%S%z"
  | HTMLReporter | HTMLStaticReporter => "%Y-%m-%d %H:%M:%S"
  end.

Definition INCLUDE_LIBS (cls : reporter_class) : bool :=
  match cls with
  | HTMLStaticReporter => true
  | JSONReporter | HTMLReporter => false
  end.

Section Reporters.

(** [datetime] objects and their method [strftime]. *)
Variable datetime : Type.
Variable strftime : datetime -> string -> string.

(** A verification run, as the reporter reads it. *)
Record verification := {
  uuid : string;
  created_at : datetime;
  updated_at : datetime;
  status : pyval;
  run_args : pyval;
  tests_count : pyval;
  tests_duration : pyval;
  skipped : pyval;
  success : pyval;
  expected_failures : pyval;
  unexpected_success : pyval;
  failures : pyval;
  tests : Dict.t Result.t }.

(** The reporter object: [self.verifications] and
    [self.output_destination]. *)
Record reporter := {
  verifications : list verification;
  output_destination : option string }.

Record report := {
  report_verifications : Dict.t pyval;
  report_tests : Dict.t Test.t }.

(** Lines 50-62 *)
Definition summary (cls : reporter_class) (v : verification) : pyval :=
  PDict [("started_at", PStr (strftime (created_at v) (TIME_FORMAT cls)));
         ("finished_at", PStr (strftime (updated_at v) (TIME_FORMAT cls)));
         ("status", status v);
         ("run_args", run_args v);
         ("tests_count", tests_count v);
         ("tests_duration", tests_duration v);
         ("skipped", skipped v);
         ("success", success v);
         ("expected_failures", expected_failures v);
         ("unexpected_success", unexpected_success v);
         ("failures", failures v)].

(** Lines 50-90: the body of the loop over [self.verifications]. *)
Definition add_verification (cls : reporter_class) (r : report) (v : verification) : report :=
  {| report_verifications := Dict.set (uuid v) (summary cls v) (report_verifications r);
     report_tests := fold_left (add_result (uuid v)) (tests v) (report_tests r) |}.

(** [JSONReporter._generate] *)
Definition _generate (cls : reporter_class) (self : reporter) : report :=
  fold_left (add_verification cls) (verifications self)
    {| report_verifications := []; report_tests := [] |}.

(** The results of all the runs in the order in which [_generate] meets
    them, each with the uuid of its run. *)
Definition results_in_order (vs : list verification)
    : list (string * (string * Result.t)) :=
  flat_map (fun v => map (pair (uuid v)) (tests v)) vs.

(** The runs that have the test [test_id], in the order of the input:
    the uuid of each with its result of the test. *)
Definition runs_of_test (test_id : string) (vs : list verification)
    : list (string * Result.t) :=
  flat_map (fun v => match Dict.get test_id (tests v) with
                     | Some r => [(uuid v, r)]
                     | None => []
                     end) vs.

(** ** [HTMLReporter.generate] *)

(** Lines 121-125: the loop over [test["by_verification"].values()];
    [has] is [test["has_details"]]. *)
Fixpoint flag_details (has : bool) (by_verification : Dict.t Info.t)
    : bool * Dict.t Info.t :=
  match by_verification with
  | [] => (has, [])
  | (u, test_info) :: rest =>
      let '(has, test_info) :=
        match Info.details test_info with
        | None => (has, Info.set_details None test_info)
        | Some _ => (if negb has then true else has, test_info)
        end in
      let '(has, rest) := flag_details has rest in
      (has, (u, test_info) :: rest)
  end.

(** The threshold [0.001] *)
Definition threshold : float := 0.001%float.

(** Lines 130-145: the body of the loop over [uuids]. The state is the
    list [durations] and [test["by_verification"]]; [None] is an
    exception. *)
Definition compare_step (st : list duration_value * Dict.t Info.t) (uuid : string)
    : option (list duration_value * Dict.t Info.t) :=
  let '(durations, by_verification) := st in
  match Dict.get uuid by_verification with
  | None => Some st
  | Some test_info =>
      let durations := (durations ++ [Info.duration test_info])%list in
      d <- PyList.last durations ;;
      f <- py_float d ;;
      '(durations, by_verification) <-
        (if PrimFloat.ltb f threshold then
           durations <- PyList.set_last (DStr "0") durations ;;
           Some (durations,
                 Dict.update uuid (Info.set_duration (DStr "")) by_verification)
         else Some (durations, by_verification)) ;;
      d0 <- PyList.first durations ;;
      d1 <- PyList.last durations ;;
      if (1 <? length durations)%nat && negb (is_zero_str d0 && is_zero_str d1) then
        f1 <- py_float d1 ;;
        f0 <- py_float d0 ;;
        let diff := PrimFloat.sub f1 f0 in
        let result := py_str d1 ++ " (" in
        let result := if PrimFloat.leb 0 diff then result ++ "+" else result in
        let result := result ++ PyFloat.repr diff ++ ")" in
        Some (durations,
              Dict.update uuid (Info.set_duration (DStr result)) by_verification)
      else Some (durations, by_verification)
  end.

Fixpoint compare_loop (uuids : list string)
    (st : list duration_value * Dict.t Info.t)
    : option (list duration_value * Dict.t Info.t) :=
  match uuids with
  | [] => Some st
  | uuid :: rest => st <- compare_step st uuid ;; compare_loop rest st
  end.

(** *** What the loop computes

    The durations as the report shows them, for a test whose records
    hold numbers. *)

(** [float(d) < 0.001] *)
Definition below (f : float) : bool := PrimFloat.ltb f threshold.

(** The element of [durations] for the number [f], and its value as a
    float: "0" and [0.0] when the number is below the threshold. *)
Definition adjusted (f : float) : duration_value :=
  if below f then DStr "0" else DFloat f.

Definition adjusted_float (f : float) : float :=
  if below f then 0%float else f.

(** The duration shown for the first run that has the test. *)
Definition shown_first (f : float) : duration_value :=
  if below f then DStr "" else DFloat f.

(** The duration shown for a later run, [f0] being the number of the
    first run that has the test. *)
Definition shown_later (f0 f : float) : duration_value :=
  if below f0 && below f then DStr ""
  else
    let diff := PrimFloat.sub (adjusted_float f) (adjusted_float f0) in
    DStr (py_str (adjusted f) ++ " ("
          ++ (if PrimFloat.leb 0 diff then "+" else "")
          ++ PyFloat.repr diff ++ ")").

Definition shown (first : option float) (f : float) : duration_value :=
  match first with
  | None => shown_first f
  | Some f0 => shown_later f0 f
  end.

(** The number of a record. *)
Definition number_of (i : Info.t) : float :=
  match Info.duration i with
  | DFloat f => f
  | DStr _ => 0%float
  end.

Definition numeric (i : Info.t) : Prop := exists f, Info.duration i = DFloat f.

(** The loop over [uuids] when the records met hold numbers: [fs] are
    the numbers met so far. *)
Fixpoint compared (uuids : list string) (fs : list float) (by_verification : Dict.t Info.t)
    : list float * Dict.t Info.t :=
  match uuids with
  | [] => (fs, by_verification)
  | uuid :: rest =>
      match Dict.get uuid by_verification with
      | Some test_info =>
          let f := number_of test_info in
          compared rest (fs ++ [f])%list
            (Dict.update uuid (Info.set_duration (shown (hd_error fs) f)) by_verification)
      | None => compared rest fs by_verification
      end
  end.

(** The records in the order of their keys, each with the duration that
    is shown for it. *)
Fixpoint show_all (fs : list float) (by_verification : Dict.t Info.t) : Dict.t Info.t :=
  match by_verification with
  | [] => []
  | (u, i) :: rest =>
      (u, Info.set_duration (shown (hd_error fs) (number_of i)) i)
        :: show_all (fs ++ [number_of i])%list rest
  end.

(** The keys of the records are among the uuids and in their order. *)
Inductive keys_follow : list string -> Dict.t Info.t -> Prop :=
| follow_nil uuids : keys_follow uuids []
| follow_skip u uuids d : keys_follow uuids d -> keys_follow (u :: uuids) d
| follow_take u i uuids d : keys_follow uuids d -> keys_follow (u :: uuids) ((u, i) :: d).


(** The record after the loop of lines 121-125: a record without
    details gets the marker [None]. *)
Definition flagged (i : Info.t) : Info.t :=
  match Info.details i with
  | None => Info.set_details None i
  | Some _ => i
  end.

Definition has_text (i : Info.t) : bool :=
  match Info.details i with
  | Some _ => true
  | None => false
  end.

(** The test as the template gets it, when its records hold numbers. *)
Definition html_test (uuids : list string) (test : Test.t) : Test.t :=
  {| Test.tags := Test.tags test;
     Test.name := Test.name test;
     Test.by_verification :=
       snd (compared uuids []
              (map (fun x => (fst x, flagged (snd x))) (Test.by_verification test)));
     Test.has_details := Some (existsb (fun x => has_text (snd x)) (Test.by_verification test)) |}.

(** Lines 120-151 for one [test]: the test as the template gets it,
    and whether more than two of its durations were compared. *)
Definition process_test (uuids : list string) (test : Test.t) : option (Test.t * bool) :=
  let '(has, by_verification) := flag_details false (Test.by_verification test) in
  let test := Test.set_by_verification by_verification (Test.set_has_details has test) in
  '(durations, by_verification) <- compare_loop uuids ([], Test.by_verification test) ;;
  Some (Test.set_by_verification by_verification test, (2 <? length durations)%nat).

(** Lines 117-151: the loop over [report["tests"].values()]. *)
Fixpoint process_tests (uuids : list string) (tests : Dict.t Test.t)
    (show_comparison_note : bool) : option (Dict.t Test.t * bool) :=
  match tests with
  | [] => Some ([], show_comparison_note)
  | (test_id, test) :: rest =>
      '(test, more_than_two) <- process_test uuids test ;;
      let show_comparison_note :=
        if negb show_comparison_note && more_than_two then true
        else show_comparison_note in
      '(rest, show_comparison_note) <- process_tests uuids rest show_comparison_note ;;
      Some ((test_id, test) :: rest, show_comparison_note)
  end.

(** ** What is serialized *)

Definition duration_to_py (d : duration_value) : pyval :=
  match d with
  | DFloat f => PFloat f
  | DStr s => PStr s
  end.

Definition option_str_to_py (d : option string) : pyval :=
  match d with
  | Some s => PStr s
  | None => PNone
  end.

Definition info_to_py (i : Info.t) : pyval :=
  PDict ([("status", PStr (Info.status i));
          ("duration", duration_to_py (Info.duration i))]
         ++ match Info.details i with
            | Some d => [("details", option_str_to_py d)]
            | None => []
            end)%list.

Definition dict_to_py {V} (f : V -> pyval) (d : Dict.t V) : pyval :=
  PDict (map (fun kv => (fst kv, f (snd kv))) d).

Definition test_to_py (t : Test.t) : pyval :=
  PDict ([("tags", PList (map PStr (Test.tags t)));
          ("name", PStr (Test.name t));
          ("by_verification", dict_to_py info_to_py (Test.by_verification t))]
         ++ match Test.has_details t with
            | Some h => [("has_details", PBool h)]
            | None => []
            end)%list.

Definition report_to_py (r : report) : pyval :=
  PDict [("verifications", PDict (report_verifications r));
         ("tests", dict_to_py test_to_py (report_tests r))].

(** [json.dumps(obj, indent=indent)], and
    [utils.get_template(name).render(data=data, include_libs=libs)]. *)
Variable json_dumps : option nat -> pyval -> string.
Variable render : string -> string -> bool -> string.

(** Lines 97-101 and 164-168: what [generate] returns. *)
Definition result_of (output_destination : option string) (raw_report : string) : pyval :=
  match output_destination with
  | Some dest =>
      if PyStr.truthy dest then
        PDict [("files", PDict [(dest, PStr raw_report)]); ("open", PStr dest)]
      else PDict [("print", PStr raw_report)]
  | None => PDict [("print", PStr raw_report)]
  end.

(** [JSONReporter.generate] *)
Definition generate_json (cls : reporter_class) (self : reporter) : pyval :=
  let raw_report := json_dumps (Some 4%nat) (report_to_py (_generate cls self)) in
  result_of (output_destination self) raw_report.

(** Lines 113-157: the context given to the template. *)
Definition html_context (cls : reporter_class) (self : reporter) : option pyval :=
  let report := _generate cls self in
  let uuids := Dict.keys (report_verifications report) in
  '(tests, show_comparison_note) <- process_tests uuids (report_tests report) false ;;
  Some (PDict [("uuids", PList (map PStr uuids));
               ("verifications", PDict (report_verifications report));
               ("tests", dict_to_py test_to_py tests);
               ("show_comparison_note", PBool show_comparison_note)]).

(** [HTMLReporter.generate] *)
Definition generate_html (cls : reporter_class) (self : reporter) : option pyval :=
  context <- html_context cls self ;;
  let raw_report :=
    render "verification/report.html" (json_dumps None context) (INCLUDE_LIBS cls) in
  Some (result_of (output_destination self) raw_report).

(** [generate] of each class: [HTMLStaticReporter] inherits it from
    [HTMLReporter]. *)
Definition generate (cls : reporter_class) (self : reporter) : option pyval :=
  match cls with
  | JSONReporter => Some (generate_json cls self)
  | HTMLReporter | HTMLStaticReporter => generate_html cls self
  end.

End Reporters.

Arguments uuid {datetime} v.
Arguments tests {datetime} v.
Arguments verifications {datetime} r.
Arguments output_destination {datetime} r.
Arguments results_in_order {datetime} vs.
Arguments runs_of_test {datetime} test_id vs.
Arguments add_verification {datetime} strftime cls r v.
Arguments _generate {datetime} strftime cls self.
Arguments html_context {datetime} strftime cls self.
Arguments generate_json {datetime} strftime json_dumps cls self.
Arguments generate_html {datetime} strftime json_dumps render cls self.
Arguments generate {datetime} strftime json_dumps render cls self.

(** * The reporters on a store of dictionaries

    The functions above compute with values. In Python every dictionary
    is an object: [tests[test_id]] and the iteration variable [test] are
    the same object, an assignment to an item of one is seen through the
    other, and a dictionary of the caller that the reporter wrote to
    would stay changed after [generate] returns. This part translates
    the same code over a store of dictionaries: a dictionary display
    allocates an object, an item assignment writes to the object it is
    applied to, and a value holds either immutable data or a reference.
    The code assigns to items of dictionaries only (and to its own list
    [durations]); strings, numbers, lists and the attributes of a run
    are kept as values. *)

Module Heap.

Definition loc := nat.

(** What a variable or an item of a dictionary holds. *)
Inductive value := Val (v : pyval) | Ref (l : loc).

(** A dictionary object, and the store. *)
Definition cell := Dict.t value.
Definition heap := list cell.

(** A computation on the store; [None] is an exception. *)
Definition M (A : Type) : Type := heap -> option (A * heap).

Definition ret {A} (x : A) : M A := fun h => Some (x, h).

Definition bind {A B} (m : M A) (f : A -> M B) : M B :=
  fun h => match m h with Some (x, h') => f x h' | None => None end.

Definition raise {A} : M A := fun _ => None.

Definition lift {A} (o : option A) : M A :=
  fun h => match o with Some x => Some (x, h) | None => None end.

Notation "x <~ a ;; b" := (bind a (fun x => b))
  (at level 61, a at next level, right associativity).
Notation "' p <~ a ;; b" := (bind a (fun x => match x with p => b end))
  (at level 61, p pattern, a at next level, right associativity).

(** [{...}]: a new dictionary. *)
Definition alloc (c : cell) : M value :=
  fun h => Some (Ref (length h), (h ++ [c])%list).

Fixpoint replace (l : loc) (c : cell) (h : heap) : heap :=
  match h, l with
  | [], _ => []
  | _ :: h', O => c :: h'
  | c' :: h', S l' => c' :: replace l' c h'
  end.

(** The dictionary that a value refers to. *)
Definition deref (d : value) : M (loc * cell) :=
  fun h => match d with
           | Ref l => match nth_error h l with
                      | Some c => Some ((l, c), h)
                      | None => None
                      end
           | Val _ => None
           end.

(** [d[k]], [d.get(k, default)], [k in d], [d[k] = x] *)
Definition getitem (d : value) (k : string) : M value :=
  ' (_, c) <~ deref d ;; lift (Dict.get k c).

Definition get (d : value) (k : string) (default : value) : M value :=
  ' (_, c) <~ deref d ;;
  ret (match Dict.get k c with Some x => x | None => default end).

Definition contains (d : value) (k : string) : M bool :=
  ' (_, c) <~ deref d ;; ret (Dict.contains k c).

Definition setitem (d : value) (k : string) (x : value) : M unit :=
  ' (l, c) <~ deref d ;; fun h => Some (tt, replace l (Dict.set k x c) h).

(** [d.items()], [d.keys()], [d.values()] as they are when the loop
    starts; no loop of the module adds a key to the dictionary it
    iterates over. *)
Definition items (d : value) : M (list (string * value)) :=
  ' (_, c) <~ deref d ;; ret c.

Definition keys (d : value) : M (list string) :=
  ' (_, c) <~ deref d ;; ret (Dict.keys c).

Definition values (d : value) : M (list value) :=
  ' (_, c) <~ deref d ;; ret (Dict.values c).

(** [for x in l: body] and the same with a local variable that the body
    assigns to. *)
Fixpoint for_each {A} (l : list A) (body : A -> M unit) : M unit :=
  match l with
  | [] => ret tt
  | x :: l' => _ <~ body x ;; for_each l' body
  end.

Fixpoint for_fold {A S} (l : list A) (s : S) (body : S -> A -> M S) : M S :=
  match l with
  | [] => ret s
  | x :: l' => s <~ body s x ;; for_fold l' s body
  end.

(** The operations of the code on a value need it to be of a type:
    [None] is TypeError or AttributeError. *)
Definition as_str (x : value) : M string :=
  match x with
  | Val (PStr s) => ret s
  | _ => raise
  end.

Fixpoint strings_of (l : list pyval) : option (list string) :=
  match l with
  | [] => Some []
  | PStr s :: l' => match strings_of l' with Some r => Some (s :: r) | None => None end
  | _ :: _ => None
  end.

Definition as_strings (x : value) : M (list string) :=
  match x with
  | Val (PList l) => lift (strings_of l)
  | _ => raise
  end.

Definition as_bool (x : value) : M bool :=
  match x with
  | Val (PBool b) => ret b
  | _ => raise
  end.

Definition as_duration (x : value) : M duration_value :=
  match x with
  | Val (PFloat f) => ret (DFloat f)
  | Val (PStr s) => ret (DStr s)
  | _ => raise
  end.

(** The value that [json.dumps] walks through: the dictionaries are
    followed, at most [fuel] deep (a dictionary that contains itself
    makes [json.dumps] raise ValueError). *)
Fixpoint map_option {A B} (f : A -> option B) (l : list A) : option (list B) :=
  match l with
  | [] => Some []
  | x :: l' =>
      match f x, map_option f l' with
      | Some y, Some r => Some (y :: r)
      | _, _ => None
      end
  end.

Fixpoint reify (fuel : nat) (h : heap) (x : value) : option pyval :=
  match x with
  | Val v => Some v
  | Ref l =>
      match fuel with
      | O => None
      | S n =>
          match nth_error h l with
          | Some c =>
              match map_option
                      (fun kx => match reify n h (snd kx) with
                                 | Some y => Some (fst kx, y)
                                 | None => None
                                 end) c with
              | Some fields => Some (PDict fields)
              | None => None
              end
          | None => None
          end
      end
  end.

Section Reporters.

Variable datetime : Type.
Variable strftime : datetime -> string -> string.
Variable json_dumps : option nat -> pyval -> string.
Variable render : string -> string -> bool -> string.

(** [json.dumps(x, indent=indent)] *)
Definition dumps (indent : option nat) (x : value) : M string :=
  fun h => match reify (S (length h)) h x with
           | Some v => Some (json_dumps indent v, h)
           | None => None
           end.

(** A run: its attributes, and the dictionary [v.tests] of the
    dictionaries of its results. *)
Record verification := {
  uuid : string;
  created_at : datetime;
  updated_at : datetime;
  status : pyval;
  run_args : pyval;
  tests_count : pyval;
  tests_duration : pyval;
  skipped : pyval;
  success : pyval;
  expected_failures : pyval;
  unexpected_success : pyval;
  failures : pyval;
  tests : value }.

Record reporter := {
  verifications : list verification;
  output_destination : option string }.

(** The attributes [v.tests], [self.verifications] and
    [self.output_destination], under names that no local variable of the
    code has. *)
Definition v_tests (v : verification) : value := tests v.
Definition self_verifications (self : reporter) : list verification := verifications self.
Definition self_output_destination (self : reporter) : option string :=
  output_destination self.

(** Lines 79-88 *)
Definition details (reason traceback : string) : option string :=
  let reason :=
    if PyStr.truthy reason then
      match Re.rmatch SKIP_RE reason with
      | Some m =>
          let link := LP_BUG_LINK (Re.group m) in
          Re.sub (Re.literal (Re.group m)) link reason
      | None => reason
      end
    else reason in
  let sep := if PyStr.truthy reason && PyStr.truthy traceback then blank_line else "" in
  let d := reason ++ sep ++ PyStr.strip traceback in
  if PyStr.truthy d then Some d else None.

(** Lines 65-72: a test that is met for the first time gets its entry
    in [tests]. *)
Definition new_test (tests : value) (test_id : string) (result : value) : M unit :=
  seen <~ contains tests test_id ;;
  if negb seen then
    tags <~ get result "tags" (Val (PList [])) ;;
    tags <~ as_strings tags ;;
    let tags := PyList.sorted PyList.bool_le
                  (fun tag => PyStr.startswith tag "id-") true tags in
    name <~ getitem result "name" ;;
    by_verification <~ alloc [] ;;
    t <~ alloc [("tags", Val (PList (map PStr tags)));
                ("name", name);
                ("by_verification", by_verification)] ;;
    setitem tests test_id t
  else ret tt.

(** Lines 74-77: the record of the run [uuid] for the test. *)
Definition new_record (tests : value) (uuid test_id : string) (result : value) : M unit :=
  t <~ getitem tests test_id ;;
  by_verification <~ getitem t "by_verification" ;;
  status <~ getitem result "status" ;;
  duration <~ getitem result "duration" ;;
  record <~ alloc [("status", status); ("duration", duration)] ;;
  setitem by_verification uuid record.

(** Lines 79-90: the details of the record. *)
Definition add_details (tests : value) (uuid test_id : string) (result : value) : M unit :=
  reason <~ get result "reason" (Val (PStr "")) ;;
  reason <~ as_str reason ;;
  traceback <~ get result "traceback" (Val (PStr "")) ;;
  traceback <~ as_str traceback ;;
  match details reason traceback with
  | Some d =>
      t <~ getitem tests test_id ;;
      by_verification <~ getitem t "by_verification" ;;
      record <~ getitem by_verification uuid ;;
      setitem record "details" (Val (PStr d))
  | None => ret tt
  end.

(** Lines 65-90: the body of the loop over [v.tests.items()], for the run
    [uuid]. *)
Definition add_result (tests : value) (uuid : string) (item : string * value) : M unit :=
  let '(test_id, result) := item in
  _ <~ new_test tests test_id result ;;
  _ <~ new_record tests uuid test_id result ;;
  add_details tests uuid test_id result.

(** Lines 50-90: the body of the loop over [self.verifications]. *)
Definition add_verification (cls : reporter_class) (verifications tests : value)
    (v : verification) : M unit :=
  s <~ alloc [("started_at", Val (PStr (strftime (created_at v) (TIME_FORMAT cls))));
              ("finished_at", Val (PStr (strftime (updated_at v) (TIME_FORMAT cls))));
              ("status", Val (status v));
              ("run_args", Val (run_args v));
              ("tests_count", Val (tests_count v));
              ("tests_duration", Val (tests_duration v));
              ("skipped", Val (skipped v));
              ("success", Val (success v));
              ("expected_failures", Val (expected_failures v));
              ("unexpected_success", Val (unexpected_success v));
              ("failures", Val (failures v))] ;;
  _ <~ setitem verifications (uuid v) s ;;
  results <~ items (v_tests v) ;;
  for_each results (add_result tests (uuid v)).

(** [JSONReporter._generate] *)
Definition _generate (cls : reporter_class) (self : reporter) : M value :=
  verifications <~ alloc [] ;;
  tests <~ alloc [] ;;
  _ <~ for_each (self_verifications self) (add_verification cls verifications tests) ;;
  alloc [("verifications", verifications); ("tests", tests)].

(** [JSONReporter.generate] *)
Definition generate_json (cls : reporter_class) (self : reporter) : M pyval :=
  report <~ _generate cls self ;;
  raw_report <~ dumps (Some 4%nat) report ;;
  ret (result_of (self_output_destination self) raw_report).

(** Lines 130-145: the body of the loop over [uuids]. *)
Definition compare_step (test : value) (durations : list duration_value) (uuid : string)
    : M (list duration_value) :=
  by_verification <~ getitem test "by_verification" ;;
  present <~ contains by_verification uuid ;;
  if present then
    record <~ getitem by_verification uuid ;;
    d <~ getitem record "duration" ;;
    d <~ as_duration d ;;
    let durations := (durations ++ [d])%list in
    d <~ lift (PyList.last durations) ;;
    f <~ lift (py_float d) ;;
    durations <~
      (if PrimFloat.ltb f threshold then
         durations <~ lift (PyList.set_last (DStr "0") durations) ;;
         by_verification <~ getitem test "by_verification" ;;
         record <~ getitem by_verification uuid ;;
         _ <~ setitem record "duration" (Val (PStr "")) ;;
         ret durations
       else ret durations) ;;
    d0 <~ lift (PyList.first durations) ;;
    d1 <~ lift (PyList.last durations) ;;
    if (1 <? length durations)%nat && negb (is_zero_str d0 && is_zero_str d1) then
      f1 <~ lift (py_float d1) ;;
      f0 <~ lift (py_float d0) ;;
      let diff := PrimFloat.sub f1 f0 in
      let result := py_str d1 ++ " (" in
      let result := if PrimFloat.leb 0 diff then result ++ "+" else result in
      let result := result ++ PyFloat.repr diff ++ ")" in
      by_verification <~ getitem test "by_verification" ;;
      record <~ getitem by_verification uuid ;;
      _ <~ setitem record "duration" (Val (PStr result)) ;;
      ret durations
    else ret durations
  else ret durations.

(** Lines 122-125: the body of the loop over
    [test["by_verification"].values()]. *)
Definition flag_step (test test_info : value) : M unit :=
  has <~ contains test_info "details" ;;
  if negb has then setitem test_info "details" (Val PNone)
  else
    flag <~ getitem test "has_details" ;;
    flag <~ as_bool flag ;;
    if negb flag then setitem test "has_details" (Val (PBool true)) else ret tt.

(** Lines 117-151: the body of the loop over [report["tests"].values()]. *)
Definition process_test (uuids : list string) (show_comparison_note : bool) (test : value)
    : M bool :=
  _ <~ setitem test "has_details" (Val (PBool false)) ;;
  by_verification <~ getitem test "by_verification" ;;
  records <~ values by_verification ;;
  _ <~ for_each records (flag_step test) ;;
  durations <~ for_fold uuids [] (compare_step test) ;;
  ret (if negb show_comparison_note && (2 <? length durations)%nat then true
       else show_comparison_note).

(** [HTMLReporter.generate] *)
Definition generate_html (cls : reporter_class) (self : reporter) : M pyval :=
  report <~ _generate cls self ;;
  verifications <~ getitem report "verifications" ;;
  uuids <~ keys verifications ;;
  tests <~ getitem report "tests" ;;
  all_tests <~ values tests ;;
  show_comparison_note <~ for_fold all_tests false (process_test uuids) ;;
  context <~ alloc [("uuids", Val (PList (map PStr uuids)));
                    ("verifications", verifications);
                    ("tests", tests);
                    ("show_comparison_note", Val (PBool show_comparison_note))] ;;
  data <~ dumps None context ;;
  let raw_report := render "verification/report.html" data (INCLUDE_LIBS cls) in
  ret (result_of (self_output_destination self) raw_report).

Definition generate (cls : reporter_class) (self : reporter) : M pyval :=
  match cls with
  | JSONReporter => generate_json cls self
  | HTMLReporter | HTMLStaticReporter => generate_html cls self
  end.

End Reporters.

End Heap.

Arguments Heap.uuid {datetime} v.
Arguments Heap.created_at {datetime} v.
Arguments Heap.updated_at {datetime} v.
Arguments Heap.status {datetime} v.
Arguments Heap.run_args {datetime} v.
Arguments Heap.tests_count {datetime} v.
Arguments Heap.tests_duration {datetime} v.
Arguments Heap.skipped {datetime} v.
Arguments Heap.success {datetime} v.
Arguments Heap.expected_failures {datetime} v.
Arguments Heap.unexpected_success {datetime} v.
Arguments Heap.failures {datetime} v.
Arguments Heap.tests {datetime} v.
Arguments Heap.v_tests {datetime} v.
Arguments Heap.verifications {datetime} r.
Arguments Heap.output_destination {datetime} r.
Arguments Heap.self_verifications {datetime} self.
Arguments Heap.self_output_destination {datetime} self.
Arguments Heap.add_verification {datetime} strftime cls verifications tests v.
Arguments Heap._generate {datetime} strftime cls self.
Arguments Heap.generate_json {datetime} strftime json_dumps cls self.
Arguments Heap.generate_html {datetime} strftime json_dumps render cls self.
Arguments Heap.generate {datetime} strftime json_dumps render cls self.

(** ** The data of the caller in a store *)

(** The dictionary [c] of a result holds the items of [r]. *)
Definition result_rep (c : Heap.cell) (r : Result.t) : Prop :=
  Dict.get "name" c = Some (Heap.Val (PStr (Result.name r)))
  /\ Dict.get "tags" c
     = option_map (fun l => Heap.Val (PList (map PStr l))) (Result.tags r)
  /\ Dict.get "status" c = Some (Heap.Val (PStr (Result.status r)))
  /\ Dict.get "duration" c = Some (Heap.Val (PFloat (Result.duration r)))
  /\ Dict.get "reason" c = option_map (fun s => Heap.Val (PStr s)) (Result.reason r)
  /\ Dict.get "traceback" c = option_map (fun s => Heap.Val (PStr s)) (Result.traceback r).

(** The value [x] refers to a dictionary of the store [h] whose items
    refer to the dictionaries of the results [d], in the same order. *)
Definition tests_rep (h : Heap.heap) (x : Heap.value) (d : Dict.t Result.t) : Prop :=
  exists l c,
    x = Heap.Ref l
    /\ nth_error h l = Some c
    /\ Forall2 (fun kx kr =>
                  fst kx = fst kr
                  /\ exists lr cr, snd kx = Heap.Ref lr
                                   /\ nth_error h lr = Some cr
                                   /\ result_rep cr (snd kr)) c d.

Definition verification_rep {datetime : Type} (h : Heap.heap)
    (vh : Heap.verification datetime) (v : verification datetime) : Prop :=
  Heap.uuid vh = uuid v
  /\ Heap.created_at vh = created_at datetime v
  /\ Heap.updated_at vh = updated_at datetime v
  /\ Heap.status vh = status datetime v
  /\ Heap.run_args vh = run_args datetime v
  /\ Heap.tests_count vh = tests_count datetime v
  /\ Heap.tests_duration vh = tests_duration datetime v
  /\ Heap.skipped vh = skipped datetime v
  /\ Heap.success vh = success datetime v
  /\ Heap.expected_failures vh = expected_failures datetime v
  /\ Heap.unexpected_success vh = unexpected_success datetime v
  /\ Heap.failures vh = failures datetime v
  /\ tests_rep h (Heap.tests vh) (tests v).


(** ** The report in a store

    While a reporter runs, the dictionaries that it made are found in the
    store under the following names; [w] gives the location of each. *)
Inductive name :=
| NVerifs
| NTests
| NSummary (uuid : string)
| NTest (test_id : string)
| NByv (test_id : string)
| NRecord (test_id uuid : string).

Definition name_eq_dec (a b : name) : {a = b} + {a <> b}.
Proof. decide equality; apply string_dec. Defined.

Definition put (w : name -> Heap.loc) (n : name) (l : Heap.loc) : name -> Heap.loc :=
  fun m => if name_eq_dec m n then l else w m.

(** A dictionary with the keys [ks], the value of a key given by [g]. *)
Definition keyed (g : string -> Heap.value) (ks : list string) : Heap.cell :=
  map (fun k => (k, g k)) ks.

Definition info_cell (i : Info.t) : Heap.cell :=
  ([("status", Heap.Val (PStr (Info.status i)));
    ("duration", Heap.Val (match Info.duration i with
                           | DFloat f => PFloat f
                           | DStr s => PStr s
                           end))]
   ++ match Info.details i with
      | Some (Some d) => [("details", Heap.Val (PStr d))]
      | Some None => [("details", Heap.Val PNone)]
      | None => []
      end)%list.

Definition test_cell (e : Test.t) (by_verification : Heap.loc) : Heap.cell :=
  ([("tags", Heap.Val (PList (map PStr (Test.tags e))));
    ("name", Heap.Val (PStr (Test.name e)));
    ("by_verification", Heap.Ref by_verification)]
   ++ match Test.has_details e with
      | Some b => [("has_details", Heap.Val (PBool b))]
      | None => []
      end)%list.

Definition summary_cell (s : pyval) : Heap.cell :=
  match s with
  | PDict fields => map (fun kv => (fst kv, Heap.Val (snd kv))) fields
  | _ => []
  end.

(** The names in use for the report [r], and the dictionary that each
    stands for. *)
Definition live (r : report) (n : name) : Prop :=
  match n with
  | NVerifs | NTests => True
  | NSummary u => Dict.get u (report_verifications r) <> None
  | NTest t | NByv t => Dict.get t (report_tests r) <> None
  | NRecord t u =>
      exists e, Dict.get t (report_tests r) = Some e
                /\ Dict.get u (Test.by_verification e) <> None
  end.

Definition content (r : report) (w : name -> Heap.loc) (n : name) : Heap.cell :=
  match n with
  | NVerifs =>
      keyed (fun u => Heap.Ref (w (NSummary u))) (Dict.keys (report_verifications r))
  | NTests =>
      keyed (fun t => Heap.Ref (w (NTest t))) (Dict.keys (report_tests r))
  | NSummary u =>
      match Dict.get u (report_verifications r) with
      | Some s => summary_cell s
      | None => []
      end
  | NTest t =>
      match Dict.get t (report_tests r) with
      | Some e => test_cell e (w (NByv t))
      | None => []
      end
  | NByv t =>
      match Dict.get t (report_tests r) with
      | Some e => keyed (fun u => Heap.Ref (w (NRecord t u)))
                    (Dict.keys (Test.by_verification e))
      | None => []
      end
  | NRecord t u =>
      match Dict.get t (report_tests r) with
      | Some e =>
          match Dict.get u (Test.by_verification e) with
          | Some i => info_cell i
          | None => []
          end
      | None => []
      end
  end.

(** The store [h] holds the report [r] at the locations [w], beyond the
    store [h0] of the caller, which is as it was. *)
Record Inv (h0 h : Heap.heap) (r : report) (w : name -> Heap.loc) : Prop := {
  inv_prefix : forall l, (l < length h0)%nat -> nth_error h l = nth_error h0 l;
  inv_cells : forall n, live r n ->
                        (length h0 <= w n)%nat /\ nth_error h (w n) = Some (content r w n);
  inv_inj : forall n1 n2, live r n1 -> live r n2 -> w n1 = w n2 -> n1 = n2;
  inv_dicts : forall u s, Dict.get u (report_verifications r) = Some s ->
                          exists fields, s = PDict fields;
  inv_keys : NoDup (Dict.keys (report_verifications r))
             /\ NoDup (Dict.keys (report_tests r))
             /\ forall t e, Dict.get t (report_tests r) = Some e ->
                            NoDup (Dict.keys (Test.by_verification e)) }.

(** The names whose locations the dictionary of [m] holds. *)
Definition refers (m n : name) : Prop :=
  match m, n with
  | NVerifs, NSummary _ => True
  | NTests, NTest _ => True
  | NTest t, NByv t' => t = t'
  | NByv t, NRecord t' _ => t = t'
  | _, _ => False
  end.


(** ** Examples of runs *)

Module Example.

(** A result with the given name, tags, duration, reason and
    traceback. *)
Definition result (name : string) (tags : list string) (duration : float)
    (reason traceback : option string) : Result.t :=
  {| Result.name := name;
     Result.tags := Some tags;
     Result.status := "success";
     Result.duration := duration;
     Result.reason := reason;
     Result.traceback := traceback |}.

(** A run whose dates are not looked at. *)
Definition run (uuid : string) (tests : Dict.t Result.t) : verification unit :=
  {| uuid := uuid; created_at := tt; updated_at := tt;
     status := PStr "finished"; run_args := PDict [];
     tests_count := PInt (Z.of_nat (length tests)); tests_duration := PNone;
     skipped := PInt 0; success := PInt (Z.of_nat (length tests));
     expected_failures := PInt 0; unexpected_success := PInt 0;
     failures := PInt 0; tests := tests |}.

Definition strftime (d : unit) (format : string) : string := format.

(** A reporter that prints its report. *)
Definition reporter_of (runs : list (verification unit)) : reporter unit :=
  {| verifications := runs; output_destination := None |}.

(** Two runs of one test, with the durations [f0] and [f]. *)
Definition two_runs (f0 f : float) : reporter unit :=
  reporter_of [run "run-1" [("test", result "test" [] f0 None None)];
               run "run-2" [("test", result "test" [] f None None)]].


(** The run [run uuid tests] with its dictionary [tests] at the location
    [l] of a store. *)
Definition stored_run (uuid : string) (tests : Dict.t Result.t) (l : Heap.loc)
    : Heap.verification unit :=
  {| Heap.uuid := uuid; Heap.created_at := tt; Heap.updated_at := tt;
     Heap.status := PStr "finished"; Heap.run_args := PDict [];
     Heap.tests_count := PInt (Z.of_nat (length tests)); Heap.tests_duration := PNone;
     Heap.skipped := PInt 0; Heap.success := PInt (Z.of_nat (length tests));
     Heap.expected_failures := PInt 0; Heap.unexpected_success := PInt 0;
     Heap.failures := PInt 0; Heap.tests := Heap.Ref l |}.





(** A serializer that writes every value on one line, and a template
    that writes its data after its name. *)
Definition quoted (s : string) : string :=
  String "034" (s ++ String "034" EmptyString).

Fixpoint dumps (v : pyval) : string :=
  match v with
  | PNone => "null"
  | PBool true => "true"
  | PBool false => "false"
  | PInt z => PyStr.of_Z z
  | PFloat f => PyFloat.repr f
  | PStr s => quoted s
  | PList l =>
      "[" ++ (fix items (l : list pyval) : string :=
                match l with
                | [] => "]"
                | x :: l' => dumps x ++ "," ++ items l'
                end) l
  | PDict d =>
      "{" ++ (fix items (d : list (string * pyval)) : string :=
                match d with
                | [] => "}"
                | (k, x) :: d' => quoted k ++ ":" ++ dumps x ++ "," ++ items d'
                end) d
  end.

Definition json_dumps (indent : option nat) (v : pyval) : string := dumps v.

Definition render (name data : string) (include_libs : bool) : string :=
  name ++ "?" ++ data.

End Example.

(** * Properties *)

(** ** Sorting the tags *)

Section SortByFlag.
Context {A : Type} (key : A -> bool).

Local Abbreviation insert := (PyList.insert PyList.bool_le key).
Local Abbreviation sort := (PyList.sort PyList.bool_le key).

Lemma insert_unflagged (x : A) (l : list A) :
  key x = false -> insert x l = x :: l.
Proof.
  intros Hx. destruct l as [|y l]; simpl; [reflexivity|].
  unfold PyList.bool_le. rewrite Hx. reflexivity.
Qed.

Lemma insert_flagged (x : A) (l1 l2 : list A) :
  key x = true ->
  Forall (fun y => key y = false) l1 ->
  Forall (fun y => key y = true) l2 ->
  insert x (l1 ++ l2) = (l1 ++ x :: l2)%list.
Proof.
  intros Hx H1 H2. induction H1 as [|y l1 Hy _ IH]; simpl.
  - destruct H2 as [|z l2 Hz _]; simpl; [reflexivity|].
    unfold PyList.bool_le. rewrite Hx, Hz. reflexivity.
  - unfold PyList.bool_le. rewrite Hx, Hy. simpl. f_equal. exact IH.
Qed.

Lemma filter_all (f : A -> bool) (b : bool) (l : list A) :
  Forall (fun y => f y = b) (filter (fun y => Bool.eqb (f y) b) l).
Proof.
  induction l as [|y l IH]; simpl; [constructor|].
  destruct (Bool.eqb (f y) b) eqn:E; [|exact IH].
  constructor; [apply Bool.eqb_prop; exact E | exact IH].
Qed.

(** The ascending sort puts the unflagged elements first, each group in
    the order of the list. *)
Lemma sort_partition (l : list A) :
  sort l = (filter (fun y => negb (key y)) l ++ filter key l)%list.
Proof.
  induction l as [|x l IH]; simpl; [reflexivity|].
  rewrite IH.
  destruct (key x) eqn:Hx; simpl.
  - apply insert_flagged; [exact Hx | |].
    + rewrite Forall_forall. intros y Hy. apply filter_In in Hy.
      destruct Hy as [_ Hy]. now destruct (key y).
    + rewrite Forall_forall. intros y Hy. apply filter_In in Hy. tauto.
  - apply insert_unflagged. exact Hx.
Qed.

(** With [reverse=True] the flagged elements come first, and each group
    is still in the order of the list. *)
Lemma sorted_reverse_partition (l : list A) :
  PyList.sorted PyList.bool_le key true l
  = (filter key l ++ filter (fun y => negb (key y)) l)%list.
Proof.
  unfold PyList.sorted. rewrite sort_partition.
  rewrite rev_app_distr, <- !filter_rev, !rev_involutive. reflexivity.
Qed.

End SortByFlag.

(** ** Strings *)

Lemma append_assoc (a b c : string) : (a ++ b) ++ c = a ++ b ++ c.
Proof. induction a as [|x a IH]; simpl; [reflexivity | now rewrite IH]. Qed.

Lemma append_empty_r (a : string) : a ++ "" = a.
Proof. induction a as [|x a IH]; simpl; [reflexivity | now rewrite IH]. Qed.

Lemma length_append (a b : string) :
  String.length (a ++ b) = (String.length a + String.length b)%nat.
Proof. induction a as [|x a IH]; simpl; [reflexivity | now rewrite IH]. Qed.

Lemma take_append (a b : string) : PyStr.take (String.length a) (a ++ b) = a.
Proof.
  unfold PyStr.take. induction a as [|x a IH]; simpl.
  - destruct b; reflexivity.
  - now rewrite IH.
Qed.

Lemma prefix_append (p t : string) : String.prefix p (p ++ t) = true.
Proof.
  induction p as [|x p IH]; simpl.
  - destruct t; reflexivity.
  - destruct (ascii_dec x x) as [_|N]; [exact IH | now elim N].
Qed.

Lemma prefix_inv (p s : string) :
  String.prefix p s = true -> exists t, s = p ++ t.
Proof.
  revert s. induction p as [|x p IH]; intros s H.
  - exists s. reflexivity.
  - destruct s as [|y s]; simpl in H; [discriminate|].
    destruct (ascii_dec x y) as [->|_]; [|discriminate].
    destruct (IH _ H) as [t ->]. exists t. reflexivity.
Qed.

Lemma truthy_append (a b : string) :
  PyStr.truthy (a ++ b) = PyStr.truthy a || PyStr.truthy b.
Proof. destruct a; simpl; [reflexivity | reflexivity]. Qed.

(** ** Matching and substituting *)

Lemma star_greedy {R} (k : Re.cls) (ds rest : string) (cont : string -> option R) (r : R) :
  PyStr.all_chars (Re.cls_match k) ds = true ->
  match rest with String c _ => Re.cls_match k c = false | EmptyString => True end ->
  cont rest = Some r ->
  Re.star k (ds ++ rest) cont = Some r.
Proof.
  intros Hds Hrest Hcont. induction ds as [|d ds IH]; simpl.
  - destruct rest as [|c rest]; simpl; [exact Hcont|]. now rewrite Hrest.
  - simpl in Hds. apply andb_prop in Hds. destruct Hds as [Hd Hds].
    rewrite Hd, (IH Hds). reflexivity.
Qed.

Lemma run_literal (p t : string) (mk : Re.marks) :
  Re.run (Re.literal p) (p ++ t) mk = Some (mk, t).
Proof.
  induction p as [|x p IH]; simpl; [reflexivity|].
  rewrite Ascii.eqb_refl. exact IH.
Qed.

Lemma run_literal_app (p t : string) (q : Re.pattern) (mk : Re.marks) :
  Re.run (Re.literal p ++ q)%list (p ++ t) mk = Re.run q t mk.
Proof.
  induction p as [|x p IH]; simpl; [reflexivity|].
  rewrite Ascii.eqb_refl. exact IH.
Qed.

Lemma run_literal_None (p s : string) (mk : Re.marks) :
  String.prefix p s = false -> Re.run (Re.literal p) s mk = None.
Proof.
  revert s. induction p as [|x p IH]; intros s H.
  - destruct s; discriminate.
  - destruct s as [|y s]; simpl in *; [reflexivity|].
    destruct (ascii_dec x y) as [->|N].
    + rewrite Ascii.eqb_refl. apply IH. exact H.
    + apply Ascii.eqb_neq in N. now rewrite N.
Qed.

Lemma match_length_literal (p t : string) :
  Re.match_length (Re.literal p) (p ++ t) = Some (String.length p).
Proof.
  unfold Re.match_length, Re.rmatch. rewrite run_literal, length_append.
  f_equal. lia.
Qed.

Lemma match_length_literal_None (p s : string) :
  String.prefix p s = false -> Re.match_length (Re.literal p) s = None.
Proof.
  intros H. unfold Re.match_length, Re.rmatch. now rewrite run_literal_None.
Qed.

(** The characters of a match are passed without being looked at. *)
Lemma sub_from_skip (pat : Re.pattern) (repl a t : string) :
  Re.sub_from pat repl (a ++ t) (String.length a) = Re.sub_from pat repl t 0.
Proof. induction a as [|x a IH]; simpl; [reflexivity | exact IH]. Qed.

(** An occurrence of the pattern at the start of the text is replaced,
    and the search goes on after it. *)
Lemma sub_literal_here (p repl t : string) :
  p <> "" ->
  Re.sub (Re.literal p) repl (p ++ t) = repl ++ Re.sub (Re.literal p) repl t.
Proof.
  intros Hp. destruct p as [|x p]; [now elim Hp|].
  unfold Re.sub. change (String x p ++ t) with (String x (p ++ t)).
  cbn [Re.sub_from].
  change (String x (p ++ t)) with (String x p ++ t).
  rewrite match_length_literal. cbn [String.length].
  now rewrite sub_from_skip.
Qed.

(** A character at which the pattern does not occur is kept. *)
Lemma sub_literal_next (p repl : string) (c : ascii) (s : string) :
  String.prefix p (String c s) = false ->
  Re.sub (Re.literal p) repl (String c s) = String c (Re.sub (Re.literal p) repl s).
Proof.
  intros H. unfold Re.sub. cbn [Re.sub_from].
  now rewrite match_length_literal_None.
Qed.

Lemma sub_literal_prefix (p repl a t : string) :
  no_occurrence_within p a t ->
  Re.sub (Re.literal p) repl (a ++ t) = a ++ Re.sub (Re.literal p) repl t.
Proof.
  induction a as [|x a IH]; intros H; [reflexivity|].
  change (String x a ++ t) with (String x (a ++ t)).
  rewrite sub_literal_next.
  - change (String x a ++ Re.sub (Re.literal p) repl t)
      with (String x (a ++ Re.sub (Re.literal p) repl t)).
    f_equal. apply IH. intros a1 a2 c E. apply (H (String x a1) a2 c).
    simpl. now rewrite E.
  - apply (H "" a x). reflexivity.
Qed.

(** A text without the first character of the pattern has no
    occurrence. *)
Lemma no_occurrence_without (x : ascii) (p a t : string) :
  PyStr.all_chars (fun c => negb (Ascii.eqb x c)) a = true ->
  no_occurrence_within (String x p) a t.
Proof.
  intros Ha a1 a2 c ->. simpl.
  destruct (ascii_dec x c) as [->|_]; [|reflexivity].
  exfalso. induction a1 as [|y a1 IH]; simpl in Ha.
  - now rewrite Ascii.eqb_refl in Ha.
  - apply andb_prop in Ha. apply IH. tauto.
Qed.


(** ** The pattern [SKIP_RE] *)

Lemma digit_not_space (d : ascii) :
  PyStr.isdigit d = true -> Ascii.eqb " " d = false.
Proof.
  intros H. destruct (Ascii.eqb_spec " " d) as [<-|_]; [discriminate H | reflexivity].
Qed.

Lemma digit_not_other (d c : ascii) :
  PyStr.isdigit d = true -> PyStr.isdigit c = false -> Ascii.eqb d c = false.
Proof.
  intros Hd Hc. destruct (Ascii.eqb_spec d c) as [->|_]; [congruence | reflexivity].
Qed.

Lemma without_digit (d : ascii) (a : string) :
  PyStr.isdigit d = true ->
  PyStr.all_chars (fun c => negb (PyStr.isdigit c)) a = true ->
  PyStr.all_chars (fun c => negb (Ascii.eqb d c)) a = true.
Proof.
  intros Hd. induction a as [|c a IH]; simpl; [reflexivity|].
  intros H. apply andb_prop in H. destruct H as [Hc Ha].
  rewrite (IH Ha), (digit_not_other d c Hd); [reflexivity|].
  now destruct (PyStr.isdigit c).
Qed.

(** After "Skipped until Bug:" and the optional space: the digits, the
    words " is resolved" and one more character that is not a line
    feed. *)
Lemma SKIP_RE_digits (ds : string) (c : ascii) (rest : string) (mk : Re.marks) :
  ds <> "" ->
  PyStr.all_chars PyStr.isdigit ds = true ->
  c <> "010"%char ->
  let tail := " is resolved" ++ String c rest in
  Re.run ([Re.Open; Re.Plus Re.Digit; Re.Close]
          ++ Re.literal " is resolved" ++ [Re.One Re.Dot])%list (ds ++ tail) mk
  = Some ({| Re.at_open := ds ++ tail; Re.at_close := tail |}, rest).
Proof.
  intros Hne Hds Hc tail. destruct ds as [|d ds]; [now elim Hne|].
  simpl in Hds. apply andb_prop in Hds. destruct Hds as [Hd Hds].
  change (String d ds ++ tail) with (String d (ds ++ tail)).
  cbn [Re.run app Re.cls_match Re.at_close]. rewrite Hd.
  apply star_greedy.
  - exact Hds.
  - reflexivity.
  - cbn [Re.run Re.at_open].
    change (Re.literal " is resolved" ++ [Re.One Re.Dot])%list
      with (Re.literal " is resolved" ++ [Re.One Re.Dot])%list.
    unfold tail. rewrite (run_literal_app " is resolved").
    cbn [Re.run Re.cls_match].
    apply Ascii.eqb_neq in Hc. rewrite Hc. reflexivity.
Qed.

Lemma run_opt_taken (k : Re.cls) (q : Re.pattern) (c : ascii) (s : string)
    (mk : Re.marks) (r : Re.marks * string) :
  Re.cls_match k c = true ->
  Re.run q s mk = Some r ->
  Re.run (Re.Opt k :: q) (String c s) mk = Some r.
Proof. intros Hk Hq. cbn [Re.run]. now rewrite Hk, Hq. Qed.

Lemma run_opt_skipped (k : Re.cls) (q : Re.pattern) (s : string) (mk : Re.marks) :
  match s with String c _ => Re.cls_match k c = false | EmptyString => True end ->
  Re.run (Re.Opt k :: q) s mk = Re.run q s mk.
Proof. intros H. destruct s as [|c s]; cbn [Re.run]; [reflexivity | now rewrite H]. Qed.

Lemma SKIP_RE_match (sp ds : string) (c : ascii) (rest : string) :
  sp = "" \/ sp = " " ->
  ds <> "" ->
  PyStr.all_chars PyStr.isdigit ds = true ->
  c <> "010"%char ->
  let tail := " is resolved" ++ String c rest in
  Re.rmatch SKIP_RE ("Skipped until Bug:" ++ sp ++ ds ++ tail)
  = Some ({| Re.at_open := ds ++ tail; Re.at_close := tail |}, rest).
Proof.
  intros Hsp Hne Hds Hc tail. unfold Re.rmatch, SKIP_RE.
  rewrite (run_literal_app "Skipped until Bug:").
  change ([Re.Opt (Re.Lit " "); Re.Open; Re.Plus Re.Digit; Re.Close]
          ++ Re.literal " is resolved" ++ [Re.One Re.Dot])%list
    with (Re.Opt (Re.Lit " ")
          :: ([Re.Open; Re.Plus Re.Digit; Re.Close]
              ++ Re.literal " is resolved" ++ [Re.One Re.Dot]))%list.
  destruct Hsp as [-> | ->].
  - change ("" ++ ds ++ tail) with (ds ++ tail).
    rewrite run_opt_skipped.
    + now apply (SKIP_RE_digits ds c rest).
    + destruct ds as [|d ds']; [now elim Hne|].
      simpl in Hds. apply andb_prop in Hds. destruct Hds as [Hd _].
      cbn [String.append Re.cls_match]. now apply digit_not_space.
  - change (" " ++ ds ++ tail) with (String " " (ds ++ tail)).
    apply run_opt_taken; [reflexivity|].
    now apply (SKIP_RE_digits ds c rest).
Qed.

Lemma group_between (a t rest : string) :
  Re.group ({| Re.at_open := a ++ t; Re.at_close := t |}, rest) = a.
Proof.
  unfold Re.group. cbn [fst Re.at_open Re.at_close].
  rewrite length_append, Nat.add_sub. apply take_append.
Qed.

(** The reason that begins with the skip phrase is rewritten by
    [re.sub]. *)
Lemma rewritten_reason_skip (result : Result.t) (sp ds : string) (c : ascii) (rest : string) :
  sp = "" \/ sp = " " ->
  ds <> "" ->
  PyStr.all_chars PyStr.isdigit ds = true ->
  c <> "010"%char ->
  let reason := "Skipped until Bug:" ++ sp ++ ds ++ " is resolved" ++ String c rest in
  Result.reason result = Some reason ->
  rewritten_reason result = Re.sub (Re.literal ds) (LP_BUG_LINK ds) reason.
Proof.
  intros Hsp Hne Hds Hc reason Hr. unfold rewritten_reason. rewrite Hr.
  change (PyStr.truthy reason) with true. cbn iota.
  unfold reason. rewrite (SKIP_RE_match sp ds c rest Hsp Hne Hds Hc).
  rewrite group_between. reflexivity.
Qed.


(** ** Dictionaries *)

Section DictFacts.
Context {V : Type}.
Implicit Types (k : string) (v : V) (d : Dict.t V) (f : V -> V).

Lemma get_set_eq k v d : Dict.get k (Dict.set k v d) = Some v.
Proof.
  induction d as [|[k' v'] d IH]; simpl.
  - now rewrite String.eqb_refl.
  - destruct (String.eqb k k') eqn:E; simpl; rewrite E; [reflexivity | exact IH].
Qed.

Lemma get_set_ne k k' v d : k <> k' -> Dict.get k' (Dict.set k v d) = Dict.get k' d.
Proof.
  intros N. induction d as [|[k0 v0] d IH]; simpl.
  - apply not_eq_sym in N. apply String.eqb_neq in N. now rewrite N.
  - destruct (String.eqb_spec k k0) as [<-|_]; simpl.
    + apply not_eq_sym in N. apply String.eqb_neq in N. now rewrite N.
    + now rewrite IH.
Qed.

Lemma get_update_eq k f d : Dict.get k (Dict.update k f d) = option_map f (Dict.get k d).
Proof.
  induction d as [|[k' v'] d IH]; simpl; [reflexivity|].
  destruct (String.eqb k k') eqn:E; simpl; rewrite E; [reflexivity | exact IH].
Qed.

Lemma get_update_ne k k' f d : k <> k' -> Dict.get k' (Dict.update k f d) = Dict.get k' d.
Proof.
  intros N. induction d as [|[k0 v0] d IH]; simpl; [reflexivity|].
  destruct (String.eqb_spec k k0) as [<-|_]; simpl.
  - apply not_eq_sym in N. apply String.eqb_neq in N. now rewrite N.
  - now rewrite IH.
Qed.

Lemma update_set k f v d : Dict.update k f (Dict.set k v d) = Dict.set k (f v) d.
Proof.
  induction d as [|[k' v'] d IH]; simpl.
  - now rewrite String.eqb_refl.
  - destruct (String.eqb k k') eqn:E; simpl; rewrite E; [reflexivity | now rewrite IH].
Qed.

Lemma update_update k f g d :
  Dict.update k f (Dict.update k g d) = Dict.update k (fun x => f (g x)) d.
Proof.
  induction d as [|[k' v'] d IH]; simpl; [reflexivity|].
  destruct (String.eqb k k') eqn:E; simpl; rewrite E; [reflexivity | now rewrite IH].
Qed.

Lemma update_ext k f g d :
  (forall x, f x = g x) -> Dict.update k f d = Dict.update k g d.
Proof.
  intros H. induction d as [|[k' v'] d IH]; simpl; [reflexivity|].
  destruct (String.eqb k k'); [now rewrite H | now rewrite IH].
Qed.

Lemma update_same k f d x :
  Dict.get k d = Some x -> f x = x -> Dict.update k f d = d.
Proof.
  intros G H. induction d as [|[k' v'] d IH]; simpl in *; [reflexivity|].
  destruct (String.eqb k k'); [now inversion G; subst; rewrite H | now rewrite IH].
Qed.

Lemma update_absent k f d : Dict.get k d = None -> Dict.update k f d = d.
Proof.
  intros G. induction d as [|[k' v'] d IH]; simpl in *; [reflexivity|].
  destruct (String.eqb k k'); [discriminate | now rewrite IH].
Qed.

Lemma set_absent k v d : Dict.get k d = None -> Dict.set k v d = (d ++ [(k, v)])%list.
Proof.
  intros G. induction d as [|[k' v'] d IH]; simpl in *; [reflexivity|].
  destruct (String.eqb k k'); [discriminate | now rewrite IH].
Qed.

Lemma set_present k v d x :
  Dict.get k d = Some x -> Dict.set k v d = Dict.update k (fun _ => v) d.
Proof.
  intros G. induction d as [|[k' v'] d IH]; simpl in *; [discriminate|].
  destruct (String.eqb k k'); [reflexivity | now rewrite IH].
Qed.

Lemma keys_update k f d : Dict.keys (Dict.update k f d) = Dict.keys d.
Proof.
  induction d as [|[k' v'] d IH]; simpl; [reflexivity|].
  destruct (String.eqb k k'); simpl; [reflexivity | now f_equal].
Qed.

Lemma get_In_keys k d : Dict.get k d <> None <-> In k (Dict.keys d).
Proof.
  induction d as [|[k' v'] d IH]; simpl; [tauto|].
  destruct (String.eqb_spec k k') as [->|N].
  - split; [auto | discriminate].
  - rewrite IH. split; [auto | intros [E|H]; [now elim N | exact H]].
Qed.

Lemma get_None_keys k d : Dict.get k d = None <-> ~ In k (Dict.keys d).
Proof.
  rewrite <- get_In_keys. destruct (Dict.get k d); split; try congruence.
  intros H. elim H. discriminate.
Qed.

Lemma contains_In_keys k d : Dict.contains k d = true <-> In k (Dict.keys d).
Proof.
  rewrite <- get_In_keys. unfold Dict.contains.
  destruct (Dict.get k d); split; congruence.
Qed.

Lemma keys_set k v d :
  Dict.keys (Dict.set k v d)
  = if Dict.contains k d then Dict.keys d else (Dict.keys d ++ [k])%list.
Proof.
  unfold Dict.contains. destruct (Dict.get k d) eqn:G.
  - rewrite (set_present _ _ _ _ G). apply keys_update.
  - rewrite (set_absent _ _ _ G). unfold Dict.keys. now rewrite map_app.
Qed.

Lemma NoDup_keys_set k v d : NoDup (Dict.keys d) -> NoDup (Dict.keys (Dict.set k v d)).
Proof.
  intros H. rewrite keys_set. destruct (Dict.contains k d) eqn:C; [exact H|].
  apply NoDup_app; [exact H | repeat constructor; intros [] | ].
  intros x Hx [<-|[]]. apply contains_In_keys in Hx. congruence.
Qed.

Lemma In_keys_set k k' v d :
  In k' (Dict.keys (Dict.set k v d)) <-> k' = k \/ In k' (Dict.keys d).
Proof.
  rewrite keys_set. destruct (Dict.contains k d) eqn:C.
  - apply contains_In_keys in C. split; [auto | intros [->|H]; assumption].
  - rewrite in_app_iff. simpl. intuition.
Qed.

Lemma get_In k v d : Dict.get k d = Some v -> In (k, v) d.
Proof.
  induction d as [|[k' v'] d IH]; simpl; [discriminate|].
  destruct (String.eqb_spec k k') as [->|N]; [intros [= ->]; now left | auto].
Qed.

Lemma In_get k v d : NoDup (Dict.keys d) -> In (k, v) d -> Dict.get k d = Some v.
Proof.
  induction d as [|[k' v'] d IH]; simpl; [tauto|].
  intros ND [E|H].
  - inversion E; subst. now rewrite String.eqb_refl.
  - inversion ND as [|? ? Hk ND']; subst.
    destruct (String.eqb_spec k k') as [->|N]; [|auto].
    elim Hk. change k' with (fst (k', v)). now apply in_map.
Qed.

End DictFacts.

(** ** The body of the aggregation loop *)

(** The entry of a test that is seen for the first time. *)
Lemma add_result_new (uuid : string) (tests : Dict.t Test.t) (test_id : string)
    (result : Result.t) :
  Dict.get test_id tests = None ->
  add_result uuid tests (test_id, result)
  = (tests ++ [(test_id, {| Test.tags := sorted_tags result;
                            Test.name := Result.name result;
                            Test.by_verification := [(uuid, record_of result)];
                            Test.has_details := None |})])%list.
Proof.
  intros G. unfold add_result, Dict.contains. rewrite G. cbn [negb].
  rewrite update_set. unfold record_of.
  destruct (details_of result) as [d|].
  - rewrite update_set. cbn. rewrite String.eqb_refl. now apply set_absent.
  - cbn. now apply set_absent.
Qed.

(** The entry of a test that was seen before gets one more record. *)
Lemma add_result_old (uuid : string) (tests : Dict.t Test.t) (test_id : string)
    (result : Result.t) (t : Test.t) :
  Dict.get test_id tests = Some t ->
  add_result uuid tests (test_id, result)
  = Dict.update test_id
      (fun t => Test.set_by_verification
                  (Dict.set uuid (record_of result) (Test.by_verification t)) t)
      tests.
Proof.
  intros G. unfold add_result, Dict.contains. rewrite G. cbn [negb].
  unfold record_of. destruct (details_of result) as [d|]; [|reflexivity].
  rewrite update_update. apply update_ext. intros x.
  unfold Test.set_by_verification. cbn. now rewrite update_set.
Qed.

(** ** The aggregation, test by test *)

Lemma get_app_new {V} (k : string) (v : V) (d : Dict.t V) :
  Dict.get k d = None -> Dict.get k (d ++ [(k, v)])%list = Some v.
Proof.
  intros G. rewrite <- (set_absent k v d G). apply get_set_eq.
Qed.

Lemma get_app_other {V} (k k' : string) (v : V) (d : Dict.t V) :
  k <> k' -> Dict.get k' (d ++ [(k, v)])%list = Dict.get k' d.
Proof.
  intros N. induction d as [|[k0 v0] d IH]; simpl.
  - apply not_eq_sym in N. apply String.eqb_neq in N. now rewrite N.
  - now rewrite IH.
Qed.

Lemma add_result_other (uuid : string) (tests : Dict.t Test.t) (test_id t : string)
    (result : Result.t) :
  test_id <> t ->
  Dict.get t (add_result uuid tests (test_id, result)) = Dict.get t tests.
Proof.
  intros N. destruct (Dict.get test_id tests) as [e|] eqn:G.
  - rewrite (add_result_old _ _ _ _ _ G). now apply get_update_ne.
  - rewrite (add_result_new _ _ _ _ G). now apply get_app_other.
Qed.

Lemma add_result_keys (uuid : string) (tests : Dict.t Test.t) (test_id : string)
    (result : Result.t) :
  Dict.keys (add_result uuid tests (test_id, result))
  = if Dict.contains test_id tests then Dict.keys tests
    else (Dict.keys tests ++ [test_id])%list.
Proof.
  unfold Dict.contains. destruct (Dict.get test_id tests) as [e|] eqn:G.
  - rewrite (add_result_old _ _ _ _ _ G). apply keys_update.
  - rewrite (add_result_new _ _ _ _ G). unfold Dict.keys. now rewrite map_app.
Qed.

(** The entry of a test only depends on the results of that test. *)
Lemma get_fold_add_flat (t : string) (l : list (string * (string * Result.t)))
    (tests : Dict.t Test.t) :
  Dict.get t (fold_left add_flat l tests)
  = match Dict.get t tests, results_of_test t l with
    | Some e, rs =>
        Some (Test.set_by_verification (add_records rs (Test.by_verification e)) e)
    | None, [] => None
    | None, (u0, r0) :: rs =>
        Some {| Test.tags := sorted_tags r0;
                Test.name := Result.name r0;
                Test.by_verification := add_records rs [(u0, record_of r0)];
                Test.has_details := None |}
    end.
Proof.
  revert tests. induction l as [|[u [id r]] l IH]; intros tests.
  - cbn. destruct (Dict.get t tests) as [[? ? ? ?]|]; reflexivity.
  - cbn [fold_left]. rewrite IH. unfold add_flat. cbn [fst snd].
    unfold results_of_test. cbn [filter fst snd].
    destruct (String.eqb_spec id t) as [->|N].
    + cbn [map fst snd]. destruct (Dict.get t tests) as [e|] eqn:G.
      * rewrite (add_result_old _ _ _ _ _ G), get_update_eq, G. reflexivity.
      * rewrite (add_result_new _ _ _ _ G), (get_app_new _ _ _ G). reflexivity.
    + now rewrite (add_result_other _ _ _ _ _ N).
Qed.

Lemma NoDup_keys_fold_add_flat (l : list (string * (string * Result.t)))
    (tests : Dict.t Test.t) :
  NoDup (Dict.keys tests) -> NoDup (Dict.keys (fold_left add_flat l tests)).
Proof.
  revert tests. induction l as [|[u [id r]] l IH]; intros tests H; [exact H|].
  cbn [fold_left]. apply IH. unfold add_flat. cbn [fst snd].
  rewrite add_result_keys. destruct (Dict.contains id tests) eqn:C; [exact H|].
  apply NoDup_app; [exact H | repeat constructor; intros [] |].
  intros x Hx [<-|[]]. apply contains_In_keys in Hx. congruence.
Qed.

(** ** The records of one test *)

Lemma NoDup_keys_add_records (rs : list (string * Result.t)) (b : Dict.t Info.t) :
  NoDup (Dict.keys b) -> NoDup (Dict.keys (add_records rs b)).
Proof.
  revert b. induction rs as [|[u r] rs IH]; intros b H; [exact H|].
  apply IH. now apply NoDup_keys_set.
Qed.

Lemma In_keys_add_records (rs : list (string * Result.t)) (b : Dict.t Info.t) (u : string) :
  In u (Dict.keys (add_records rs b)) <-> In u (Dict.keys b) \/ In u (map fst rs).
Proof.
  revert b. induction rs as [|[u' r] rs IH]; intros b; cbn [add_records fold_left map].
  - simpl. tauto.
  - fold (add_records rs (add_record b (u', r))). rewrite IH.
    unfold add_record. rewrite In_keys_set. cbn [fst snd In]. intuition (subst; auto).
Qed.

(** Every record comes from a result of the test in the run of its key. *)
Lemma get_add_records (rs : list (string * Result.t)) (b : Dict.t Info.t)
    (u : string) (info : Info.t) :
  Dict.get u (add_records rs b) = Some info ->
  Dict.get u b = Some info \/ exists r, In (u, r) rs /\ info = record_of r.
Proof.
  revert b. induction rs as [|[u' r] rs IH]; intros b; cbn [add_records fold_left].
  - auto.
  - fold (add_records rs (add_record b (u', r))). intros H.
    destruct (IH _ H) as [G | (r' & Hr & ->)].
    + unfold add_record in G. cbn [fst snd] in G.
      destruct (string_dec u' u) as [->|N].
      * rewrite get_set_eq in G. inversion G; subst.
        right. exists r. split; [now left | reflexivity].
      * rewrite (get_set_ne _ _ _ _ N) in G. now left.
    + right. exists r'. split; [now right | reflexivity].
Qed.

(** With one result per run the records stand in the order of the runs. *)
Lemma add_records_distinct (rs : list (string * Result.t)) (b : Dict.t Info.t) :
  NoDup (map fst rs) ->
  (forall u, In u (map fst rs) -> ~ In u (Dict.keys b)) ->
  add_records rs b = (b ++ map (fun ur => (fst ur, record_of (snd ur))) rs)%list.
Proof.
  revert b. induction rs as [|[u r] rs IH]; intros b ND Hb; cbn [add_records fold_left map].
  - now rewrite app_nil_r.
  - fold (add_records rs (add_record b (u, r))).
    inversion ND as [|? ? Hu ND']; subst.
    assert (G : Dict.get u b = None).
    { apply get_None_keys. apply Hb. now left. }
    unfold add_record. cbn [fst snd]. rewrite (set_absent _ _ _ G).
    rewrite IH; [now rewrite <- app_assoc | exact ND' |].
    intros u' Hu' Hin. unfold Dict.keys in Hin. rewrite map_app, in_app_iff in Hin.
    destruct Hin as [Hin | [<- | []]].
    + apply (Hb u'); [now right | exact Hin].
    + now apply Hu.
Qed.

Lemma length_nodup_equiv (l1 l2 : list string) :
  NoDup l1 -> (forall x, In x l1 <-> In x l2) ->
  length l1 = length (nodup string_dec l2).
Proof.
  intros ND H. apply Nat.le_antisymm.
  - apply NoDup_incl_length; [exact ND|].
    intros x Hx. apply nodup_In. now apply H.
  - apply NoDup_incl_length; [apply NoDup_nodup|].
    intros x Hx. apply nodup_In in Hx. now apply H.
Qed.

(** ** The aggregation, run by run *)

Section Aggregation.
Context {datetime : Type} (strftime : datetime -> string -> string).
Implicit Types (v : verification datetime) (vs : list (verification datetime)).

Lemma results_of_test_app (t : string) (l1 l2 : list (string * (string * Result.t))) :
  results_of_test t (l1 ++ l2) = (results_of_test t l1 ++ results_of_test t l2)%list.
Proof. unfold results_of_test. now rewrite filter_app, map_app. Qed.

Lemma fold_add_flat_run (u : string) (items : Dict.t Result.t) (tests : Dict.t Test.t) :
  fold_left add_flat (map (pair u) items) tests = fold_left (add_result u) items tests.
Proof.
  revert tests. induction items as [|item items IH]; intros tests; [reflexivity|].
  cbn [map fold_left]. now rewrite IH.
Qed.

Lemma fold_add_verification (cls : reporter_class) vs (r : report) :
  report_tests (fold_left (add_verification strftime cls) vs r)
  = fold_left add_flat (results_in_order vs) (report_tests r).
Proof.
  revert r. induction vs as [|v vs IH]; intros r; [reflexivity|].
  cbn [fold_left results_in_order flat_map]. rewrite IH.
  fold (results_in_order vs). rewrite fold_left_app, fold_add_flat_run. reflexivity.
Qed.

Lemma generate_tests (cls : reporter_class) (self : reporter datetime) :
  report_tests (_generate strftime cls self)
  = fold_left add_flat (results_in_order (verifications self)) [].
Proof. unfold _generate. now rewrite fold_add_verification. Qed.

Lemma fold_add_verification_keys (cls : reporter_class) vs (r : report) :
  NoDup (Dict.keys (report_verifications r)) ->
  NoDup (Dict.keys (report_verifications (fold_left (add_verification strftime cls) vs r)))
  /\ forall u, In u (Dict.keys (report_verifications
                                  (fold_left (add_verification strftime cls) vs r)))
               <-> In u (Dict.keys (report_verifications r)) \/ In u (map uuid vs).
Proof.
  revert r. induction vs as [|v vs IH]; intros r H; cbn [fold_left map].
  - split; [exact H | simpl; tauto].
  - destruct (IH (add_verification strftime cls r v)) as [ND E].
    { cbn. now apply NoDup_keys_set. }
    split; [exact ND|]. intros u. rewrite E. cbn [add_verification report_verifications].
    rewrite In_keys_set. cbn [In]. intuition (subst; auto).
Qed.

(** The uuids over which the HTML reporter iterates. *)
Lemma generate_uuids (cls : reporter_class) (self : reporter datetime) :
  let uuids := Dict.keys (report_verifications (_generate strftime cls self)) in
  NoDup uuids /\ forall u, In u uuids <-> In u (map uuid (verifications self)).
Proof.
  destruct (fold_add_verification_keys cls (verifications self)
              {| report_verifications := []; report_tests := [] |}) as [ND E].
  { constructor. }
  split; [exact ND|]. intros u. unfold _generate. rewrite E. simpl. tauto.
Qed.

Lemma results_of_test_run (t u : string) (items : Dict.t Result.t) :
  match Dict.get t items with
  | Some r0 => exists rs, results_of_test t (map (pair u) items) = (u, r0) :: rs
  | None => results_of_test t (map (pair u) items) = []
  end.
Proof.
  induction items as [|[id r] items IH]; [reflexivity|].
  unfold results_of_test in *. cbn [map filter fst snd Dict.get].
  rewrite (String.eqb_sym id t).
  destruct (String.eqb t id).
  - cbn [map fst snd]. eexists. reflexivity.
  - exact IH.
Qed.

Lemma In_results_of_test (t u : string) (r : Result.t) vs :
  In (u, r) (results_of_test t (results_in_order vs))
  <-> exists v, In v vs /\ uuid v = u /\ In (t, r) (tests v).
Proof.
  unfold results_of_test, results_in_order. rewrite in_map_iff. split.
  - intros ([u' [id r']] & E & H). cbn [fst snd] in E. inversion E; subst.
    apply filter_In in H. destruct H as [H Heq]. cbn [fst snd] in Heq.
    apply String.eqb_eq in Heq. subst id.
    apply in_flat_map in H. destruct H as (v & Hv & H).
    apply in_map_iff in H. destruct H as (item & E' & H). inversion E'; subst.
    exists v. auto.
  - intros (v & Hv & <- & H). exists (uuid v, (t, r)). split; [reflexivity|].
    apply filter_In. split.
    + apply in_flat_map. exists v. split; [exact Hv|]. now apply in_map.
    + cbn [fst snd]. apply String.eqb_refl.
Qed.

Lemma contains_In (t : string) (items : Dict.t Result.t) :
  Dict.contains t items = true <-> exists r, In (t, r) items.
Proof.
  rewrite contains_In_keys. unfold Dict.keys. rewrite in_map_iff. split.
  - intros ([id r] & E & H). cbn in E. subst. now exists r.
  - intros (r & H). exists (t, r). auto.
Qed.

Lemma In_fst_results_of_test (t u : string) vs :
  In u (map fst (results_of_test t (results_in_order vs)))
  <-> exists v, In v vs /\ uuid v = u /\ Dict.contains t (tests v) = true.
Proof.
  rewrite in_map_iff. split.
  - intros ([u' r] & E & H). cbn in E. subst u'.
    apply In_results_of_test in H. destruct H as (v & Hv & Hu & H).
    exists v. repeat split; try assumption. apply contains_In. now exists r.
  - intros (v & Hv & Hu & H). apply contains_In in H. destruct H as (r & H).
    exists (u, r). split; [reflexivity|]. apply In_results_of_test. now exists v.
Qed.

(** The first result of a test is its result in the first run that has
    the test. *)
Lemma first_result_of_test (t : string) vs :
  match find (fun v => Dict.contains t (tests v)) vs with
  | Some v0 =>
      exists r0 rs, Dict.get t (tests v0) = Some r0
                    /\ results_of_test t (results_in_order vs) = (uuid v0, r0) :: rs
  | None => results_of_test t (results_in_order vs) = []
  end.
Proof.
  induction vs as [|v vs IH]; [reflexivity|].
  cbn [find results_in_order flat_map]. fold (results_in_order vs).
  rewrite results_of_test_app. unfold Dict.contains at 1.
  pose proof (results_of_test_run t (uuid v) (tests v)) as H.
  destruct (Dict.get t (tests v)) as [r0|] eqn:G.
  - destruct H as [rs ->]. exists r0. eexists. split; [exact G | reflexivity].
  - rewrite H. exact IH.
Qed.

End Aggregation.

(** ** The comparison of the durations *)

Lemma last_snoc {A} (l : list A) (x : A) : PyList.last (l ++ [x]) = Some x.
Proof. unfold PyList.last. now rewrite rev_app_distr. Qed.

Lemma set_last_snoc {A} (l : list A) (x y : A) :
  PyList.set_last y (l ++ [x]) = Some (l ++ [y])%list.
Proof.
  unfold PyList.set_last. rewrite rev_app_distr. cbn. now rewrite rev_involutive.
Qed.

Lemma py_float_adjusted (f : float) : py_float (adjusted f) = Some (adjusted_float f).
Proof.
  unfold adjusted, adjusted_float. destruct (below f); [|reflexivity].
  vm_compute. reflexivity.
Qed.

Lemma is_zero_adjusted (f : float) : is_zero_str (adjusted f) = below f.
Proof. unfold adjusted. now destruct (below f). Qed.

Lemma set_duration_same (i : Info.t) (f : float) :
  Info.duration i = DFloat f -> Info.set_duration (DFloat f) i = i.
Proof. destruct i as [st d de]. cbn. now intros ->. Qed.

(** One turn of the loop on a record that holds a number. *)
Lemma compare_step_numeric (fs : list float) (by_verification : Dict.t Info.t)
    (u : string) (info : Info.t) (f : float) :
  Dict.get u by_verification = Some info ->
  Info.duration info = DFloat f ->
  compare_step (map adjusted fs, by_verification) u
  = Some (map adjusted (fs ++ [f]),
          Dict.update u (Info.set_duration (shown (hd_error fs) f)) by_verification).
Proof.
  intros G D. unfold compare_step. rewrite G, D, last_snoc. cbn [py_float].
  rewrite map_app. cbn [map]. fold (below f).
  destruct fs as [|f0 fs].
  - (* the first run that has the test *)
    cbn [map app hd_error shown]. unfold shown_first, adjusted.
    destruct (below f) eqn:B; cbn.
    + reflexivity.
    + now rewrite (update_same _ _ _ _ G (set_duration_same _ _ D)).
  - (* a later run *)
    cbn [hd_error shown]. unfold shown_later.
    assert (L : (1 <? length (map adjusted (f0 :: fs) ++ [adjusted f]))%nat = true).
    { rewrite length_app, length_map. cbn. destruct (length fs); reflexivity. }
    destruct (below f) eqn:B.
    + assert (A : adjusted f = DStr "0") by (unfold adjusted; now rewrite B).
      assert (AF : adjusted_float f = 0%float) by (unfold adjusted_float; now rewrite B).
      rewrite A, AF in *. rewrite set_last_snoc, last_snoc, L.
      cbn [map app PyList.first hd_error].
      rewrite is_zero_adjusted. cbn [is_zero_str String.eqb Ascii.eqb Bool.eqb].
      rewrite andb_true_r.
      destruct (below f0) eqn:B0; cbn [negb andb]; [reflexivity|].
      rewrite py_float_adjusted. cbn [py_float py_str].
      replace (PyFloat.of_str "0") with (Some 0%float) by (vm_compute; reflexivity).
      rewrite update_update.
      f_equal. f_equal. apply update_ext. intros x. unfold Info.set_duration. cbn.
      f_equal. f_equal.
      destruct (PrimFloat.leb 0 (PrimFloat.sub 0 (adjusted_float f0)));
        now rewrite ?append_assoc.
    + assert (A : adjusted f = DFloat f) by (unfold adjusted; now rewrite B).
      assert (AF : adjusted_float f = f) by (unfold adjusted_float; now rewrite B).
      rewrite A, AF in *. rewrite last_snoc, L.
      cbn [map app PyList.first hd_error].
      cbn [is_zero_str]. rewrite !andb_false_r. cbn [negb andb].
      rewrite py_float_adjusted. cbn [py_float py_str].
      f_equal. f_equal. f_equal. f_equal. f_equal.
      destruct (PrimFloat.leb 0 (PrimFloat.sub f (adjusted_float f0)));
        now rewrite ?append_assoc.
Qed.

Lemma compare_loop_compared (uuids : list string) (fs : list float)
    (by_verification : Dict.t Info.t) :
  NoDup uuids ->
  (forall u info, In u uuids -> Dict.get u by_verification = Some info -> numeric info) ->
  compare_loop uuids (map adjusted fs, by_verification)
  = Some (map adjusted (fst (compared uuids fs by_verification)),
          snd (compared uuids fs by_verification)).
Proof.
  revert fs by_verification.
  induction uuids as [|u uuids IH]; intros fs b ND H; [reflexivity|].
  inversion ND as [|? ? Hu ND']; subst. cbn [compare_loop compared].
  destruct (Dict.get u b) as [info|] eqn:G.
  - destruct (H u info (or_introl eq_refl) G) as [f D].
    rewrite (compare_step_numeric _ _ _ _ _ G D).
    unfold number_of. rewrite D. apply IH; [exact ND'|].
    intros u' info' Hu' G'. apply (H u' info'); [now right|].
    rewrite get_update_ne in G'; [exact G'|]. intros ->. contradiction.
  - unfold compare_step. rewrite G. apply IH; [exact ND'|].
    intros u' info' Hu' G'. apply (H u' info'); [now right | exact G'].
Qed.





Lemma get_app {V} (k : string) (d1 d2 : Dict.t V) :
  Dict.get k (d1 ++ d2)%list
  = match Dict.get k d1 with Some v => Some v | None => Dict.get k d2 end.
Proof.
  induction d1 as [|[k' v'] d1 IH]; cbn; [reflexivity|].
  now destruct (String.eqb k k').
Qed.

Lemma update_app_r {V} (k : string) (f : V -> V) (d1 d2 : Dict.t V) :
  ~ In k (Dict.keys d1) ->
  Dict.update k f (d1 ++ d2)%list = (d1 ++ Dict.update k f d2)%list.
Proof.
  induction d1 as [|[k' v'] d1 IH]; cbn; intros H; [reflexivity|].
  destruct (String.eqb_spec k k') as [->|N]; [elim H; now left|].
  rewrite IH; [reflexivity | tauto].
Qed.

Lemma keys_follow_In (uuids : list string) (d : Dict.t Info.t) (k : string) :
  keys_follow uuids d -> In k (Dict.keys d) -> In k uuids.
Proof.
  induction 1 as [uuids | u uuids d _ IH | u i uuids d _ IH]; cbn.
  - tauto.
  - auto.
  - intros [->|H]; auto.
Qed.

Lemma compared_absent (uuids : list string) (fs : list float) (d : Dict.t Info.t) :
  (forall u, In u uuids -> ~ In u (Dict.keys d)) -> compared uuids fs d = (fs, d).
Proof.
  induction uuids as [|u uuids IH]; intros H; cbn [compared]; [reflexivity|].
  rewrite (proj2 (get_None_keys u d)); [|apply H; now left].
  apply IH. intros u' Hu'. apply H. now right.
Qed.

(** When the keys of the records follow the uuids, the loop shows the
    records one after the other. *)
Lemma compared_follow (uuids : list string) (todo : Dict.t Info.t) :
  keys_follow uuids todo ->
  forall (fs : list float) (done : Dict.t Info.t),
    NoDup uuids ->
    (forall u, In u uuids -> ~ In u (Dict.keys done)) ->
    compared uuids fs (done ++ todo)%list
    = ((fs ++ map number_of (Dict.values todo))%list, (done ++ show_all fs todo)%list).
Proof.
  induction 1 as [uuids | u uuids d F IH | u i uuids d F IH]; intros fs done ND H.
  - rewrite !app_nil_r. now apply compared_absent.
  - inversion ND as [|? ? Hu ND']; subst. cbn [compared].
    rewrite get_app, (proj2 (get_None_keys u done)) by (apply H; now left).
    rewrite (proj2 (get_None_keys u d)).
    + apply IH; [exact ND'|]. intros u' Hu'. apply H. now right.
    + intros Hin. apply Hu. now apply (keys_follow_In uuids d).
  - inversion ND as [|? ? Hu ND']; subst. cbn [compared].
    rewrite get_app, (proj2 (get_None_keys u done)) by (apply H; now left).
    cbn [Dict.get]. rewrite String.eqb_refl.
    rewrite update_app_r by (apply H; now left).
    cbn [Dict.update]. rewrite String.eqb_refl.
    change (done ++ (u, Info.set_duration (shown (hd_error fs) (number_of i)) i) :: d)%list
      with (done ++ [(u, Info.set_duration (shown (hd_error fs) (number_of i)) i)] ++ d)%list.
    rewrite app_assoc, IH; [| exact ND' |].
    + cbn [Dict.values map show_all]. now rewrite <- !app_assoc.
    + intros u' Hu' Hin. unfold Dict.keys in Hin. rewrite map_app, in_app_iff in Hin.
      destruct Hin as [Hin | [<- | []]]; [|contradiction].
      apply (H u'); [now right | exact Hin].
Qed.

(** After the first record, every record is compared with the first. *)
Lemma show_all_later (f0 : float) (fs : list float) (d : Dict.t Info.t) :
  show_all (f0 :: fs) d
  = map (fun x => (fst x, Info.set_duration (shown_later f0 (number_of (snd x))) (snd x))) d.
Proof.
  revert fs. induction d as [|[u i] d IH]; intros fs; cbn; [reflexivity|].
  now rewrite IH.
Qed.

(** ** The flag [has_details] *)

Lemma flag_details_spec (has : bool) (d : Dict.t Info.t) :
  flag_details has d
  = (has || existsb (fun x => has_text (snd x)) d,
     map (fun x => (fst x, flagged (snd x))) d).
Proof.
  revert has. induction d as [|[u i] d IH]; intros has; cbn [flag_details existsb map fst snd].
  - now rewrite orb_false_r.
  - unfold flagged at 1, has_text at 1. destruct (Info.details i) as [x|]; rewrite IH.
    + destruct has; reflexivity.
    + reflexivity.
Qed.

Lemma flagged_numeric (i : Info.t) : numeric i -> numeric (flagged i).
Proof.
  intros [f D]. exists f. unfold flagged. now destruct (Info.details i).
Qed.

Lemma get_map_values {V W} (g : V -> W) (k : string) (d : Dict.t V) :
  Dict.get k (map (fun x => (fst x, g (snd x))) d) = option_map g (Dict.get k d).
Proof.
  induction d as [|[k' v'] d IH]; cbn; [reflexivity|].
  now destruct (String.eqb k k').
Qed.

(** ** One test, and all the tests, of the HTML report *)

Lemma process_test_html (uuids : list string) (test : Test.t) :
  NoDup uuids ->
  (forall u info, Dict.get u (Test.by_verification test) = Some info -> numeric info) ->
  exists more, process_test uuids test = Some (html_test uuids test, more).
Proof.
  intros ND H. unfold process_test. rewrite flag_details_spec. cbn [orb].
  cbn [Test.set_by_verification Test.set_has_details Test.by_verification].
  change (@nil duration_value) with (map adjusted []).
  rewrite compare_loop_compared; [|exact ND|].
  - eexists. reflexivity.
  - intros u info _ G. rewrite get_map_values in G.
    destruct (Dict.get u (Test.by_verification test)) as [i|] eqn:G'; [|discriminate].
    inversion G; subst. apply flagged_numeric. now apply (H u).
Qed.

Lemma process_tests_html (uuids : list string) (tests : Dict.t Test.t) (show : bool) :
  NoDup uuids ->
  (forall t e u info, In (t, e) tests ->
                      Dict.get u (Test.by_verification e) = Some info -> numeric info) ->
  exists show',
    process_tests uuids tests show
    = Some (map (fun x => (fst x, html_test uuids (snd x))) tests, show').
Proof.
  intros ND. revert show. induction tests as [|[t e] tests IH]; intros show H.
  - eexists. reflexivity.
  - cbn [process_tests].
    destruct (process_test_html uuids e ND) as [more ->].
    { intros u info. apply (H t e). now left. }
    destruct (IH (if negb show && more then true else show)) as [show' ->].
    { intros t' e' u info Hin. apply (H t' e'). now right. }
    eexists. reflexivity.
Qed.

(** ** The report of [_generate] as the HTML reporter reads it *)

Section Pipeline.
Context {datetime : Type} (strftime : datetime -> string -> string).
Implicit Types (v : verification datetime) (self : reporter datetime).

(** The entry of a test in the report. *)
Lemma generate_get (cls : reporter_class) self (t : string) :
  Dict.get t (report_tests (_generate strftime cls self))
  = match results_of_test t (results_in_order (verifications self)) with
    | [] => None
    | (u0, r0) :: rs =>
        Some {| Test.tags := sorted_tags r0;
                Test.name := Result.name r0;
                Test.by_verification := add_records rs [(u0, record_of r0)];
                Test.has_details := None |}
    end.
Proof. rewrite generate_tests, get_fold_add_flat. reflexivity. Qed.

Lemma generate_NoDup (cls : reporter_class) self :
  NoDup (Dict.keys (report_tests (_generate strftime cls self))).
Proof. rewrite generate_tests. apply NoDup_keys_fold_add_flat. constructor. Qed.

(** The records of an entry: their keys are distinct, and each is the
    record of a result of the test. *)
Lemma generate_records (cls : reporter_class) self (t : string) (e : Test.t) :
  Dict.get t (report_tests (_generate strftime cls self)) = Some e ->
  NoDup (Dict.keys (Test.by_verification e))
  /\ forall u info,
       Dict.get u (Test.by_verification e) = Some info ->
       exists r, info = record_of r
                 /\ In (u, r) (results_of_test t (results_in_order (verifications self))).
Proof.
  rewrite generate_get.
  destruct (results_of_test t (results_in_order (verifications self)))
    as [|[u0 r0] rs]; [discriminate|].
  intros [= <-]. cbn [Test.by_verification]. split.
  - apply NoDup_keys_add_records. repeat constructor. intros [].
  - intros u info G. apply get_add_records in G.
    destruct G as [G | (r & Hr & ->)].
    + cbn in G. destruct (String.eqb_spec u u0) as [->|_]; [|discriminate].
      inversion G; subst. exists r0. split; [reflexivity | now left].
    + exists r. split; [reflexivity | now right].
Qed.

Lemma record_of_numeric (r : Result.t) : numeric (record_of r).
Proof. now exists (Result.duration r). Qed.

(** The HTML reporter never fails on the report of [_generate]. *)
Lemma html_tests_total (cls : reporter_class) self :
  let report := _generate strftime cls self in
  let uuids := Dict.keys (report_verifications report) in
  exists show,
    process_tests uuids (report_tests report) false
    = Some (map (fun x => (fst x, html_test uuids (snd x))) (report_tests report), show).
Proof.
  intros report uuids. apply process_tests_html.
  - apply (generate_uuids strftime cls self).
  - intros t e u info Hin G.
    apply In_get in Hin; [|apply generate_NoDup].
    destruct (proj2 (generate_records cls self t e Hin) u info G) as (r & -> & _).
    apply record_of_numeric.
Qed.


End Pipeline.





(** ** Runs with distinct uuids *)

Section DistinctRuns.
Context {datetime : Type} (strftime : datetime -> string -> string).
Context (cls : reporter_class) (self : reporter datetime).

Let vs := verifications self.
Let aggregated := _generate strftime cls self.
Let uuids := Dict.keys (report_verifications aggregated).

(** The runs have distinct uuids, and the tests of a run are a
    dictionary: no test identifier is bound twice. *)
Hypothesis uuids_distinct : NoDup (map uuid vs).
Hypothesis tests_distinct : forall v, In v vs -> NoDup (Dict.keys (tests v)).

Lemma keys_add_verifications (l : list (verification datetime)) (r : report) :
  NoDup (Dict.keys (report_verifications r) ++ map uuid l) ->
  Dict.keys (report_verifications (fold_left (add_verification strftime cls) l r))
  = (Dict.keys (report_verifications r) ++ map uuid l)%list.
Proof.
  revert r. induction l as [|v l IH]; intros r ND; cbn [fold_left map].
  - now rewrite app_nil_r.
  - assert (C : Dict.contains (uuid v) (report_verifications r) = false).
    { destruct (Dict.contains (uuid v) (report_verifications r)) eqn:C; [|reflexivity].
      apply contains_In_keys in C. apply NoDup_remove_2 in ND.
      elim ND. apply in_or_app. now left. }
    rewrite IH; cbn [add_verification report_verifications]; rewrite keys_set, C.
    + now rewrite <- app_assoc.
    + rewrite <- app_assoc. exact ND.
Qed.

Lemma uuids_in_order : uuids = map uuid vs.
Proof.
  unfold uuids, aggregated, _generate. rewrite keys_add_verifications; [reflexivity|].
  exact uuids_distinct.
Qed.

Lemma results_of_test_absent (t u : string) (items : Dict.t Result.t) :
  ~ In t (Dict.keys items) -> results_of_test t (map (pair u) items) = [].
Proof.
  induction items as [|[id r] items IH]; [reflexivity|].
  cbn [Dict.keys map fst In]. intros H. unfold results_of_test in *.
  cbn [map filter fst snd]. destruct (String.eqb_spec id t) as [->|_]; [tauto|].
  apply IH. tauto.
Qed.

Lemma results_of_test_dict (t u : string) (items : Dict.t Result.t) :
  NoDup (Dict.keys items) ->
  results_of_test t (map (pair u) items)
  = match Dict.get t items with Some r => [(u, r)] | None => [] end.
Proof.
  induction items as [|[id r] items IH]; [reflexivity|].
  cbn [Dict.keys map fst]. intros ND. inversion ND as [|? ? Hid ND']; subst.
  cbn [Dict.get]. rewrite (String.eqb_sym t id).
  destruct (String.eqb_spec id t) as [->|N].
  - unfold results_of_test in *. cbn [map filter fst snd]. rewrite String.eqb_refl.
    cbn [map fst snd]. f_equal. now apply (results_of_test_absent t u items).
  - unfold results_of_test in *. cbn [map filter fst snd].
    apply String.eqb_neq in N. rewrite N. now apply IH.
Qed.

Lemma results_of_test_runs (t : string) (l : list (verification datetime)) :
  (forall v, In v l -> NoDup (Dict.keys (tests v))) ->
  results_of_test t (results_in_order l) = runs_of_test t l.
Proof.
  induction l as [|v l IH]; intros H; [reflexivity|].
  cbn [results_in_order runs_of_test flat_map].
  rewrite results_of_test_app, results_of_test_dict by (apply H; now left).
  f_equal. apply IH. intros v' Hv'. apply H. now right.
Qed.

Lemma In_runs_of_test (t u : string) (r : Result.t) (l : list (verification datetime)) :
  In (u, r) (runs_of_test t l)
  <-> exists v, In v l /\ uuid v = u /\ Dict.get t (tests v) = Some r.
Proof.
  unfold runs_of_test. rewrite in_flat_map. split.
  - intros (v & Hv & H). exists v. split; [exact Hv|].
    destruct (Dict.get t (tests v)) as [r'|]; [|destruct H].
    destruct H as [[= <- <-]|[]]. auto.
  - intros (v & Hv & <- & G). exists v. split; [exact Hv|]. rewrite G. now left.
Qed.

Lemma runs_of_test_NoDup (t : string) (l : list (verification datetime)) :
  NoDup (map uuid l) -> NoDup (map fst (runs_of_test t l)).
Proof.
  induction l as [|v l IH]; cbn [map runs_of_test flat_map]; intros ND; [constructor|].
  inversion ND as [|? ? Hv ND']; subst. fold (runs_of_test t l).
  destruct (Dict.get t (tests v)); cbn [app map fst]; [|now apply IH].
  constructor; [|now apply IH]. intros Hin. apply Hv.
  apply in_map_iff in Hin. destruct Hin as ([u r] & E & Hin). cbn in E. subst u.
  apply In_runs_of_test in Hin. destruct Hin as (v' & Hv' & <- & _). now apply in_map.
Qed.

Lemma runs_of_test_follow (t : string) (g : Result.t -> Info.t)
    (l : list (verification datetime)) :
  keys_follow (map uuid l) (map (fun ur => (fst ur, g (snd ur))) (runs_of_test t l)).
Proof.
  induction l as [|v l IH]; cbn [map runs_of_test flat_map]; [constructor|].
  fold (runs_of_test t l). destruct (Dict.get t (tests v)); cbn [app map fst snd].
  - now constructor.
  - now constructor.
Qed.

(** The first of the runs of a test. *)
Lemma first_run_of_test (t : string) (l : list (verification datetime)) :
  match find (fun v => Dict.contains t (tests v)) l with
  | Some v0 =>
      exists r0 rs, Dict.get t (tests v0) = Some r0
                    /\ runs_of_test t l = (uuid v0, r0) :: rs
  | None => runs_of_test t l = []
  end.
Proof.
  induction l as [|v l IH]; [reflexivity|].
  cbn [find runs_of_test flat_map]. fold (runs_of_test t l).
  unfold Dict.contains at 1. destruct (Dict.get t (tests v)) as [r0|] eqn:G.
  - exists r0. eexists. split; [exact G | reflexivity].
  - exact IH.
Qed.

(** The records of a test, in the order of its runs. *)
Lemma records_in_order (t : string) (e : Test.t) :
  Dict.get t (report_tests aggregated) = Some e ->
  Test.by_verification e
  = map (fun ur => (fst ur, record_of (snd ur))) (runs_of_test t vs).
Proof.
  unfold aggregated. rewrite generate_get. fold vs.
  rewrite (results_of_test_runs t vs tests_distinct).
  pose proof (runs_of_test_NoDup t vs uuids_distinct) as ND.
  destruct (runs_of_test t vs) as [|[u0 r0] rs]; [discriminate|].
  intros [= <-]. cbn [Test.by_verification map fst snd] in *.
  inversion ND as [|? ? Hu ND']; subst.
  rewrite add_records_distinct; [reflexivity | exact ND' |].
  intros u Hin [<-|[]]. contradiction.
Qed.

(** The records of a test of the HTML report: the first run shows its
    own duration, every other run is compared with the first. *)
Lemma html_records_in_order (t : string) (e : Test.t) :
  Dict.get t (report_tests aggregated) = Some e ->
  exists u0 r0 rs,
    runs_of_test t vs = (u0, r0) :: rs
    /\ Test.by_verification (html_test uuids e)
       = (u0, Info.set_duration (shown_first (Result.duration r0)) (flagged (record_of r0)))
         :: map (fun ur => (fst ur,
                            Info.set_duration
                              (shown_later (Result.duration r0) (Result.duration (snd ur)))
                              (flagged (record_of (snd ur))))) rs.
Proof.
  intros G. cbn [html_test Test.by_verification].
  rewrite (records_in_order t e G), map_map. cbn [fst snd].
  assert (N : forall r, number_of (flagged (record_of r)) = Result.duration r).
  { intros r. unfold number_of, flagged, record_of. cbn. now destruct (details_of r). }
  pose proof (compared_follow uuids _
                (eq_ind_r (fun l => keys_follow l _)
                   (runs_of_test_follow t (fun r => flagged (record_of r)) vs)
                   uuids_in_order) [] []) as C.
  cbn [app] in C. rewrite C; cbn [snd].
  - unfold aggregated in G. rewrite generate_get in G. fold vs in G.
    rewrite (results_of_test_runs t vs tests_distinct) in G.
    destruct (runs_of_test t vs) as [|[u0 r0] rs]; [discriminate|].
    exists u0, r0, rs. split; [reflexivity|].
    cbn [map show_all fst snd hd_error shown app]. rewrite N. f_equal.
    rewrite show_all_later, map_map. cbn [fst snd].
    apply map_ext. intros [u r]. cbn [fst snd]. now rewrite N.
  - rewrite uuids_in_order. exact uuids_distinct.
  - intros u _ [].
Qed.

(** The record of a run in the HTML report. *)
Lemma html_duration (t : string) (e : Test.t) (v0 v : verification datetime)
    (r0 r : Result.t) :
  Dict.get t (report_tests aggregated) = Some e ->
  find (fun v => Dict.contains t (tests v)) vs = Some v0 ->
  Dict.get t (tests v0) = Some r0 ->
  In v vs ->
  Dict.get t (tests v) = Some r ->
  exists info,
    Dict.get (uuid v) (Test.by_verification (html_test uuids e)) = Some info
    /\ Info.duration info
       = if String.eqb (uuid v) (uuid v0) then shown_first (Result.duration r)
         else shown_later (Result.duration r0) (Result.duration r).
Proof.
  intros G F G0 Hv Gr.
  destruct (html_records_in_order t e G) as (u0 & r0' & rs & R & B).
  pose proof (first_run_of_test t vs) as F'. rewrite F in F'.
  destruct F' as (r0'' & rs' & G0' & R'). rewrite R in R'.
  rewrite G0 in G0'. inversion G0'; subst r0''. inversion R'; subst u0 r0' rs'.
  pose proof (runs_of_test_NoDup t vs uuids_distinct) as ND. rewrite R in ND.
  cbn [map fst] in ND. inversion ND as [|? ? Hu0 ND']; subst.
  assert (Hin : In (uuid v, r) (runs_of_test t vs)).
  { apply In_runs_of_test. now exists v. }
  rewrite R in Hin. rewrite B. cbn [Dict.get].
  destruct Hin as [E | Hin].
  - inversion E as [[Eu Er]]. rewrite Eu, String.eqb_refl. eexists. split; [reflexivity|].
    cbn. unfold flagged. now destruct (Info.details (record_of r)).
  - assert (N : uuid v <> uuid v0).
    { intros E. apply Hu0. rewrite <- E. change (uuid v) with (fst (uuid v, r)).
      now apply in_map. }
    apply String.eqb_neq in N. rewrite N.
    eexists. split.
    + apply In_get.
      * unfold Dict.keys. rewrite map_map. cbn [fst]. exact ND'.
      * apply in_map_iff. exists (uuid v, r). split; [reflexivity | exact Hin].
    + cbn. unfold flagged. now destruct (Info.details (record_of r)).
Qed.

End DistinctRuns.

(** The list [durations] of a test, and the records after the loop. *)
Lemma html_durations_list {datetime : Type} (strftime : datetime -> string -> string)
    (cls : reporter_class) (self : reporter datetime) (t : string) (e : Test.t) :
  let vs := verifications self in
  let report := _generate strftime cls self in
  let uuids := Dict.keys (report_verifications report) in
  NoDup (map uuid vs) ->
  (forall v, In v vs -> NoDup (Dict.keys (tests v))) ->
  Dict.get t (report_tests report) = Some e ->
  compare_loop uuids ([], snd (flag_details false (Test.by_verification e)))
  = Some (map (fun ur => adjusted (Result.duration (snd ur))) (runs_of_test t vs),
          Test.by_verification (html_test uuids e)).
Proof.
  intros vs report uuids U D G. rewrite flag_details_spec. cbn [snd].
  change (@nil duration_value) with (map adjusted []).
  rewrite compare_loop_compared.
  - cbn [html_test Test.by_verification]. f_equal. f_equal.
    rewrite (records_in_order strftime cls self U D t e G), map_map. cbn [fst snd].
    pose proof (compared_follow uuids _
                  (eq_ind_r (fun l => keys_follow l _)
                     (runs_of_test_follow t (fun r => flagged (record_of r)) vs)
                     (uuids_in_order strftime cls self U)) [] []) as C.
    cbn [app] in C. fold vs. rewrite C.
    + cbn [fst]. unfold Dict.values. rewrite !map_map. apply map_ext.
      intros [u r]. cbn [fst snd]. f_equal.
      unfold number_of, flagged, record_of. cbn. now destruct (details_of r).
    + apply (generate_uuids strftime cls self).
    + intros u _ [].
  - apply (generate_uuids strftime cls self).
  - intros u info _ Gi. rewrite get_map_values in Gi.
    destruct (Dict.get u (Test.by_verification e)) as [i|] eqn:Gi'; [|discriminate].
    inversion Gi; subst. apply flagged_numeric.
    destruct (proj2 (generate_records strftime cls self t e G) u i Gi') as (r & -> & _).
    apply record_of_numeric.
Qed.

(** * The reporters on a store *)

(** ** The store *)

Lemma length_replace (l : Heap.loc) (c : Heap.cell) (h : Heap.heap) :
  length (Heap.replace l c h) = length h.
Proof.
  revert l. induction h as [|c' h IH]; intros [|l]; cbn; auto.
Qed.

Lemma nth_error_replace_eq (l : Heap.loc) (c : Heap.cell) (h : Heap.heap) :
  (l < length h)%nat -> nth_error (Heap.replace l c h) l = Some c.
Proof.
  revert l. induction h as [|c' h IH]; intros [|l] H; cbn in *; try lia.
  - reflexivity.
  - apply IH. lia.
Qed.

Lemma nth_error_replace_ne (l l' : Heap.loc) (c : Heap.cell) (h : Heap.heap) :
  l <> l' -> nth_error (Heap.replace l c h) l' = nth_error h l'.
Proof.
  revert l l'. induction h as [|c' h IH]; intros [|l] [|l'] H; cbn; try reflexivity.
  - now elim H.
  - apply IH. congruence.
Qed.

Lemma nth_error_new (h : Heap.heap) (c : Heap.cell) :
  nth_error (h ++ [c]) (length h) = Some c.
Proof. rewrite nth_error_app2, Nat.sub_diag; [reflexivity | lia]. Qed.

Lemma nth_error_old (h h' : Heap.heap) (l : Heap.loc) (c : Heap.cell) :
  nth_error h l = Some c -> nth_error (h ++ h') l = Some c.
Proof.
  intros H. rewrite nth_error_app1; [exact H|]. apply nth_error_Some. congruence.
Qed.

Lemma nth_error_bound (h : Heap.heap) (l : Heap.loc) (c : Heap.cell) :
  nth_error h l = Some c -> (l < length h)%nat.
Proof. intros H. apply nth_error_Some. congruence. Qed.

(** ** Running the operations *)

Lemma run_bind {A B} (m : Heap.M A) (f : A -> Heap.M B) (h h1 : Heap.heap) (x : A) :
  m h = Some (x, h1) -> Heap.bind m f h = f x h1.
Proof. intros H. unfold Heap.bind. now rewrite H. Qed.

Lemma run_getitem (h : Heap.heap) (l : Heap.loc) (c : Heap.cell) (k : string)
    (x : Heap.value) :
  nth_error h l = Some c -> Dict.get k c = Some x ->
  Heap.getitem (Heap.Ref l) k h = Some (x, h).
Proof. intros H G. unfold Heap.getitem, Heap.bind, Heap.deref, Heap.lift. now rewrite H, G. Qed.

Lemma run_get (h : Heap.heap) (l : Heap.loc) (c : Heap.cell) (k : string)
    (d : Heap.value) :
  nth_error h l = Some c ->
  Heap.get (Heap.Ref l) k d h
  = Some (match Dict.get k c with Some x => x | None => d end, h).
Proof. intros H. unfold Heap.get, Heap.bind, Heap.deref, Heap.ret. now rewrite H. Qed.

Lemma run_contains (h : Heap.heap) (l : Heap.loc) (c : Heap.cell) (k : string) :
  nth_error h l = Some c ->
  Heap.contains (Heap.Ref l) k h = Some (Dict.contains k c, h).
Proof. intros H. unfold Heap.contains, Heap.bind, Heap.deref, Heap.ret. now rewrite H. Qed.

Lemma run_setitem (h : Heap.heap) (l : Heap.loc) (c : Heap.cell) (k : string)
    (x : Heap.value) :
  nth_error h l = Some c ->
  Heap.setitem (Heap.Ref l) k x h = Some (tt, Heap.replace l (Dict.set k x c) h).
Proof. intros H. unfold Heap.setitem, Heap.bind, Heap.deref. now rewrite H. Qed.

Lemma run_items (h : Heap.heap) (l : Heap.loc) (c : Heap.cell) :
  nth_error h l = Some c -> Heap.items (Heap.Ref l) h = Some (c, h).
Proof. intros H. unfold Heap.items, Heap.bind, Heap.deref, Heap.ret. now rewrite H. Qed.



(** ** Dictionaries given by their keys *)



Lemma get_keyed (g : string -> Heap.value) (ks : list string) (k : string) :
  Dict.get k (keyed g ks) = if in_dec string_dec k ks then Some (g k) else None.
Proof.
  induction ks as [|k' ks IH]; [reflexivity|]. cbn [keyed map Dict.get].
  fold (keyed g ks). destruct (String.eqb_spec k k') as [->|N].
  - destruct (in_dec string_dec k' (k' :: ks)) as [_|H]; [reflexivity|].
    elim H. now left.
  - rewrite IH. destruct (in_dec string_dec k ks) as [H|H];
      destruct (in_dec string_dec k (k' :: ks)) as [H'|H']; try reflexivity.
    + elim H'. now right.
    + destruct H' as [E|H']; [now elim N | contradiction].
Qed.

Lemma get_keyed_keys {V} (g : string -> Heap.value) (d : Dict.t V) (k : string) :
  Dict.get k (keyed g (Dict.keys d))
  = match Dict.get k d with Some _ => Some (g k) | None => None end.
Proof.
  rewrite get_keyed. destruct (in_dec string_dec k (Dict.keys d)) as [H|H].
  - apply get_In_keys in H. now destruct (Dict.get k d).
  - apply get_None_keys in H. now rewrite H.
Qed.

Lemma contains_keyed_keys {V} (g : string -> Heap.value) (d : Dict.t V) (k : string) :
  Dict.contains k (keyed g (Dict.keys d)) = Dict.contains k d.
Proof. unfold Dict.contains. rewrite get_keyed_keys. now destruct (Dict.get k d). Qed.

Lemma keyed_ext (g g' : string -> Heap.value) (ks : list string) :
  (forall k, In k ks -> g k = g' k) -> keyed g ks = keyed g' ks.
Proof.
  intros H. unfold keyed. apply map_ext_in. intros k Hk. now rewrite (H k Hk).
Qed.

Lemma keyed_set {V} (g g' : string -> Heap.value) (d : Dict.t V) (k : string) (v : V) :
  NoDup (Dict.keys d) ->
  (forall k', k' <> k -> In k' (Dict.keys d) -> g' k' = g k') ->
  Dict.set k (g' k) (keyed g (Dict.keys d)) = keyed g' (Dict.keys (Dict.set k v d)).
Proof.
  induction d as [|[k0 v0] d IH]; intros ND H; [reflexivity|].
  cbn [Dict.keys map fst] in ND. fold (Dict.keys d) in ND.
  inversion ND as [|? ? Hk0 ND']; subst.
  cbn [Dict.keys map fst keyed Dict.set]. fold (Dict.keys d). fold (keyed g (Dict.keys d)).
  destruct (String.eqb_spec k k0) as [->|N]; cbn [Dict.keys map fst keyed].
  - f_equal. apply keyed_ext. intros k Hk. symmetry. apply H; [|now right].
    intros ->. contradiction.
  - fold (Dict.keys (Dict.set k v d)). fold (keyed g' (Dict.keys (Dict.set k v d))).
    rewrite (H k0); [| congruence | now left]. f_equal. apply IH; [exact ND'|].
    intros k' N' Hk'. apply H; [exact N' | now right].
Qed.

(** ** The dictionaries of a record and of a test *)

Lemma info_cell_set_details (i : Info.t) (d : option string) :
  Dict.set "details" (Heap.Val (match d with Some x => PStr x | None => PNone end))
    (info_cell i)
  = info_cell (Info.set_details d i).
Proof.
  destruct i as [st du de]. unfold info_cell, Info.set_details. cbn.
  destruct de as [[x|]|]; destruct d; reflexivity.
Qed.




Lemma test_cell_by_verification (e : Test.t) (lb : Heap.loc) :
  Dict.get "by_verification" (test_cell e lb) = Some (Heap.Ref lb).
Proof. reflexivity. Qed.



Lemma test_cell_same (e e' : Test.t) (lb : Heap.loc) :
  Test.tags e' = Test.tags e -> Test.name e' = Test.name e ->
  Test.has_details e' = Test.has_details e ->
  test_cell e' lb = test_cell e lb.
Proof. unfold test_cell. now intros -> -> ->. Qed.

(** ** The report in the store: reading *)

Section Invariant.
Context (h0 h : Heap.heap) (r : report) (w : name -> Heap.loc).
Hypothesis I : Inv h0 h r w.

Lemma Inv_at (n : name) : live r n -> nth_error h (w n) = Some (content r w n).
Proof. intros L. now apply (inv_cells _ _ _ _ I). Qed.

Lemma Inv_lt (n : name) : live r n -> (w n < length h)%nat.
Proof. intros L. apply (nth_error_bound h (w n) _ (Inv_at n L)). Qed.

Lemma Inv_ge (n : name) : live r n -> (length h0 <= w n)%nat.
Proof. intros L. now apply (inv_cells _ _ _ _ I). Qed.

Lemma Inv_ne (n1 n2 : name) : live r n1 -> live r n2 -> n1 <> n2 -> w n1 <> w n2.
Proof. intros L1 L2 N E. apply N. now apply (inv_inj _ _ _ _ I). Qed.

Lemma Inv_length : (length h0 <= length h)%nat.
Proof.
  pose proof (Inv_lt NVerifs Logic.I). pose proof (Inv_ge NVerifs Logic.I). lia.
Qed.

(** A dictionary of the report is written to, and nothing else changes:
    the names in use, their locations and the other dictionaries. *)
Lemma Inv_inplace (tests' : Dict.t Test.t) (n0 : name) :
  let r' := {| report_verifications := report_verifications r; report_tests := tests' |} in
  live r n0 ->
  (forall n, live r' n <-> live r n) ->
  (forall n, live r n -> n <> n0 -> content r' w n = content r w n) ->
  NoDup (Dict.keys tests') ->
  (forall t e, Dict.get t tests' = Some e -> NoDup (Dict.keys (Test.by_verification e))) ->
  Inv h0 (Heap.replace (w n0) (content r' w n0) h) r' w.
Proof.
  intros r' L0 HL HC ND1 ND2. constructor.
  - intros l Hl. rewrite nth_error_replace_ne; [now apply (inv_prefix _ _ _ _ I)|].
    pose proof (Inv_ge n0 L0). lia.
  - intros n L. apply HL in L. split; [now apply Inv_ge|].
    destruct (name_eq_dec n n0) as [->|N].
    + apply nth_error_replace_eq. now apply Inv_lt.
    + rewrite nth_error_replace_ne by (apply Inv_ne; auto).
      rewrite (HC n L N). now apply Inv_at.
  - intros n1 n2 L1 L2. apply HL in L1, L2. now apply (inv_inj _ _ _ _ I).
  - exact (inv_dicts _ _ _ _ I).
  - split; [exact (proj1 (inv_keys _ _ _ _ I)) | split; assumption].
Qed.

End Invariant.

(** ** The report in the store: writing to a dictionary *)

Section InPlace.
Context (h0 h : Heap.heap) (r : report) (w : name -> Heap.loc).
Hypothesis I : Inv h0 h r w.
Context (test_id : string) (e : Test.t) (F : Test.t -> Test.t).
Hypothesis G : Dict.get test_id (report_tests r) = Some e.
Hypothesis K : Dict.keys (Test.by_verification (F e)) = Dict.keys (Test.by_verification e).

Let r' := {| report_verifications := report_verifications r;
             report_tests := Dict.update test_id F (report_tests r) |}.

Lemma get_updated (t : string) :
  Dict.get t (report_tests r')
  = if String.eqb t test_id then Some (F e) else Dict.get t (report_tests r).
Proof.
  cbn. destruct (String.eqb_spec t test_id) as [->|N].
  - now rewrite get_update_eq, G.
  - apply get_update_ne. congruence.
Qed.

Lemma live_updated (n : name) : live r' n <-> live r n.
Proof.
  destruct n as [| | u | t | t | t u]; cbn [live]; try tauto.
  - rewrite get_updated. destruct (String.eqb_spec t test_id) as [->|N]; [|tauto].
    rewrite G. split; discriminate.
  - rewrite get_updated. destruct (String.eqb_spec t test_id) as [->|N]; [|tauto].
    rewrite G. split; discriminate.
  - rewrite get_updated. destruct (String.eqb_spec t test_id) as [->|N]; [|tauto].
    rewrite G. split.
    + intros (e' & [= <-] & H). exists e. split; [reflexivity|].
      apply get_In_keys. rewrite <- K. now apply get_In_keys.
    + intros (e' & [= <-] & H). exists (F e). split; [reflexivity|].
      apply get_In_keys. rewrite K. now apply get_In_keys.
Qed.

(** The dictionaries that do not depend on the entry of the test. *)
Lemma content_updated_other (n : name) :
  match n with
  | NTest t | NByv t | NRecord t _ => t <> test_id
  | _ => True
  end ->
  content r' w n = content r w n.
Proof.
  destruct n as [| | u | t | t | t u]; cbn [content]; intros N; try reflexivity.
  - unfold r'. cbn [report_tests]. now rewrite keys_update.
  - rewrite get_updated. apply String.eqb_neq in N. now rewrite N.
  - rewrite get_updated. apply String.eqb_neq in N. now rewrite N.
  - rewrite get_updated. apply String.eqb_neq in N. now rewrite N.
Qed.

Lemma content_updated_test :
  content r' w (NTest test_id) = test_cell (F e) (w (NByv test_id)).
Proof. cbn [content]. now rewrite get_updated, String.eqb_refl. Qed.

Lemma content_updated_byv :
  content r' w (NByv test_id) = content r w (NByv test_id).
Proof. cbn [content]. now rewrite get_updated, String.eqb_refl, G, K. Qed.

Lemma content_updated_record (u : string) :
  content r' w (NRecord test_id u)
  = match Dict.get u (Test.by_verification (F e)) with
    | Some i => info_cell i
    | None => []
    end.
Proof. cbn [content]. now rewrite get_updated, String.eqb_refl. Qed.

Lemma Inv_updated (n0 : name) :
  live r n0 ->
  (forall n, live r n -> n <> n0 -> content r' w n = content r w n) ->
  Inv h0 (Heap.replace (w n0) (content r' w n0) h) r' w.
Proof.
  intros L0 HC. apply (Inv_inplace h0 h r w I); try assumption.
  - exact live_updated.
  - rewrite keys_update. exact (proj1 (proj2 (inv_keys _ _ _ _ I))).
  - intros t e'. change (Dict.update test_id F (report_tests r)) with (report_tests r').
    rewrite get_updated. destruct (String.eqb t test_id) eqn:E.
    + intros [= <-]. rewrite K. now apply (proj2 (proj2 (inv_keys _ _ _ _ I)) test_id).
    + apply (proj2 (proj2 (inv_keys _ _ _ _ I))).
Qed.

End InPlace.


(** [record[k] = x] for a record of a test: the record [i] becomes
    [i']. *)
Lemma Inv_write_record (h0 h : Heap.heap) (r : report) (w : name -> Heap.loc)
    (test_id uuid : string) (e : Test.t) (i i' : Info.t) :
  Inv h0 h r w ->
  Dict.get test_id (report_tests r) = Some e ->
  Dict.get uuid (Test.by_verification e) = Some i ->
  Inv h0
    (Heap.replace (w (NRecord test_id uuid)) (info_cell i') h)
    {| report_verifications := report_verifications r;
       report_tests :=
         Dict.update test_id
           (fun e => Test.set_by_verification
                       (Dict.update uuid (fun _ => i') (Test.by_verification e)) e)
           (report_tests r) |} w.
Proof.
  intros I G Gi.
  set (F := fun e => Test.set_by_verification
                       (Dict.update uuid (fun _ => i') (Test.by_verification e)) e).
  assert (K : Dict.keys (Test.by_verification (F e)) = Dict.keys (Test.by_verification e)).
  { cbn. apply keys_update. }
  replace (info_cell i')
    with (content {| report_verifications := report_verifications r;
                     report_tests := Dict.update test_id F (report_tests r) |} w
            (NRecord test_id uuid)).
  2:{ rewrite (content_updated_record r w test_id e F G). cbn.
      now rewrite get_update_eq, Gi. }
  apply (Inv_updated h0 h r w I test_id e F G K).
  - cbn. exists e. split; [exact G | congruence].
  - intros n L N. destruct n as [| | u | t | t | t u];
      try (apply (content_updated_other r w test_id e _ G); exact Logic.I).
    + destruct (string_dec t test_id) as [->|N'];
        [|now apply (content_updated_other r w test_id e _ G)].
      rewrite (content_updated_test r w test_id e F G). cbn [content]. rewrite G.
      now apply test_cell_same.
    + destruct (string_dec t test_id) as [->|N'];
        [now apply (content_updated_byv r w test_id e F G K) | now apply (content_updated_other r w test_id e _ G)].
    + destruct (string_dec t test_id) as [->|N'];
        [|now apply (content_updated_other r w test_id e _ G)].
      rewrite (content_updated_record r w test_id e F G). cbn [content]. rewrite G.
      cbn. rewrite get_update_ne; [reflexivity|]. congruence.
Qed.

(** ** The report in the store: new dictionaries *)

Lemma put_eq (w : name -> Heap.loc) (n : name) (l : Heap.loc) : put w n l n = l.
Proof. unfold put. destruct (name_eq_dec n n); [reflexivity | contradiction]. Qed.

Lemma put_ne (w : name -> Heap.loc) (n m : name) (l : Heap.loc) :
  m <> n -> put w n l m = w m.
Proof. intros N. unfold put. destruct (name_eq_dec m n); [contradiction | reflexivity]. Qed.

(** New dictionaries are allocated and one dictionary of the report,
    [parent], is written to. *)
Lemma Inv_step (h0 h h' : Heap.heap) (r r' : report) (w w' : name -> Heap.loc)
    (parent : name) (fresh : name -> Prop) :
  Inv h0 h r w ->
  (forall n, fresh n \/ ~ fresh n) ->
  live r parent -> live r' parent -> ~ fresh parent ->
  (forall l, (l < length h)%nat -> l <> w parent -> nth_error h' l = nth_error h l) ->
  nth_error h' (w parent) = Some (content r' w' parent) ->
  (forall n, live r' n -> fresh n \/ (live r n /\ w' n = w n)) ->
  (forall n, fresh n -> live r' n ->
             (length h <= w' n)%nat /\ nth_error h' (w' n) = Some (content r' w' n)) ->
  (forall n1 n2, fresh n1 -> fresh n2 -> w' n1 = w' n2 -> n1 = n2) ->
  (forall n, live r' n -> ~ fresh n -> n <> parent -> content r' w' n = content r w n) ->
  (forall u s, Dict.get u (report_verifications r') = Some s -> exists fields, s = PDict fields) ->
  NoDup (Dict.keys (report_verifications r'))
  /\ NoDup (Dict.keys (report_tests r'))
  /\ (forall t e, Dict.get t (report_tests r') = Some e ->
                  NoDup (Dict.keys (Test.by_verification e))) ->
  Inv h0 h' r' w'.
Proof.
  intros I Dec Lp Lp' NFp Hold Hp Hlive Hfresh Hinj Hcontent Hdicts Hkeys.
  pose proof (Inv_length h0 h r w I) as Len.
  assert (Old : forall n, live r' n -> ~ fresh n -> live r n /\ w' n = w n).
  { intros n L NF. destruct (Hlive n L); [contradiction | assumption]. }
  constructor.
  - intros l Hl. rewrite Hold; [now apply (inv_prefix _ _ _ _ I) | lia |].
    pose proof (Inv_ge h0 h r w I parent Lp). lia.
  - intros n L. destruct (Hlive n L) as [F | [Lr E]].
    + destruct (Hfresh n F L). split; [lia | assumption].
    + destruct (Dec n) as [F|NF].
      2:{ rewrite E. split; [now apply (Inv_ge h0 h r w I)|].
          destruct (name_eq_dec n parent) as [->|N].
          - rewrite <- E. rewrite E at 1. exact Hp.
          - rewrite Hold.
            + rewrite (Hcontent n L NF N). now apply (Inv_at h0 h r w I).
            + now apply (Inv_lt h0 h r w I).
            + now apply (Inv_ne h0 h r w I). }
      destruct (Hfresh n F L). split; [lia | assumption].
  - intros n1 n2 L1 L2 E.
    destruct (Dec n1) as [F1|NF1], (Dec n2) as [F2|NF2].
    + now apply Hinj.
    + destruct (Old n2 L2 NF2) as [Lr2 E2]. destruct (Hfresh n1 F1 L1) as [B _].
      pose proof (Inv_lt h0 h r w I n2 Lr2). lia.
    + destruct (Old n1 L1 NF1) as [Lr1 E1]. destruct (Hfresh n2 F2 L2) as [B _].
      pose proof (Inv_lt h0 h r w I n1 Lr1). lia.
    + destruct (Old n1 L1 NF1) as [Lr1 E1]. destruct (Old n2 L2 NF2) as [Lr2 E2].
      apply (inv_inj _ _ _ _ I); [assumption | assumption | congruence].
  - exact Hdicts.
  - exact Hkeys.
Qed.


(** ** The dictionaries of the report and the locations *)

Lemma content_agree (r : report) (w w' : name -> Heap.loc) (m : name) :
  (forall n, refers m n -> w' n = w n) -> content r w' m = content r w m.
Proof.
  intros H. destruct m as [| | u | t | t | t u]; cbn [content]; try reflexivity.
  - apply keyed_ext. intros u _. now rewrite (H (NSummary u) Logic.I).
  - apply keyed_ext. intros t _. now rewrite (H (NTest t) Logic.I).
  - now rewrite (H (NByv t) eq_refl).
  - destruct (Dict.get t (report_tests r)); [|reflexivity].
    apply keyed_ext. intros u _. now rewrite (H (NRecord t u) eq_refl).
Qed.


Lemma get_update_at {V} (k k' : string) (f : V -> V) (d : Dict.t V) :
  Dict.get k' (Dict.update k f d)
  = if String.eqb k' k then option_map f (Dict.get k d) else Dict.get k' d.
Proof.
  destruct (String.eqb_spec k' k) as [->|N].
  - apply get_update_eq.
  - apply get_update_ne. congruence.
Qed.

Lemma get_set_at {V} (k k' : string) (v : V) (d : Dict.t V) :
  Dict.get k' (Dict.set k v d) = if String.eqb k' k then Some v else Dict.get k' d.
Proof.
  destruct (String.eqb_spec k' k) as [->|N].
  - apply get_set_eq.
  - apply get_set_ne. congruence.
Qed.

Lemma update_at {V} (k : string) (f g : V -> V) (d : Dict.t V) (x : V) :
  Dict.get k d = Some x -> f x = g x -> Dict.update k f d = Dict.update k g d.
Proof.
  intros G H. induction d as [|[k' v'] d IH]; cbn in *; [reflexivity|].
  destruct (String.eqb k k').
  - inversion G; subst. now rewrite H.
  - now rewrite IH.
Qed.

(** [verifications[uuid] = {...}] *)
Lemma Inv_add_summary (h0 h : Heap.heap) (r : report) (w : name -> Heap.loc)
    (u : string) (fields : list (string * pyval)) :
  Inv h0 h r w ->
  Inv h0
    (Heap.replace (w NVerifs)
       (Dict.set u (Heap.Ref (length h)) (content r w NVerifs))
       (h ++ [summary_cell (PDict fields)])%list)
    {| report_verifications := Dict.set u (PDict fields) (report_verifications r);
       report_tests := report_tests r |}
    (put w (NSummary u) (length h)).
Proof.
  intros I.
  apply (Inv_step h0 h _ r _ w _ NVerifs (fun n => n = NSummary u) I).
  - intros n. destruct (name_eq_dec n (NSummary u)); [now left | now right].
  - exact Logic.I.
  - exact Logic.I.
  - discriminate.
  - intros l Hl N. rewrite nth_error_replace_ne by congruence.
    now apply nth_error_app1.
  - rewrite nth_error_replace_eq.
    2:{ rewrite length_app. pose proof (Inv_lt h0 h r w I NVerifs Logic.I). lia. }
    f_equal. cbn [content report_verifications].
    rewrite <- (put_eq w (NSummary u) (length h)) at 1.
    apply (keyed_set (fun u => Heap.Ref (w (NSummary u)))
             (fun u' => Heap.Ref (put w (NSummary u) (length h) (NSummary u')))).
    + exact (proj1 (inv_keys _ _ _ _ I)).
    + intros k' N _. rewrite put_ne; [reflexivity | congruence].
  - intros n L. destruct (name_eq_dec n (NSummary u)) as [->|N]; [now left | right].
    rewrite put_ne by exact N. split; [|reflexivity].
    destruct n as [| | u' | t | t | t u']; cbn [live report_verifications report_tests] in *;
      try assumption.
    rewrite get_set_ne in L; [exact L | congruence].
  - intros n -> _. rewrite put_eq. split; [lia|].
    rewrite nth_error_replace_ne.
    2:{ pose proof (Inv_lt h0 h r w I NVerifs Logic.I). lia. }
    rewrite nth_error_new. cbn [content report_verifications]. now rewrite get_set_eq.
  - intros n1 n2 -> ->. reflexivity.
  - intros n L NF N. rewrite (content_agree _ w).
    2:{ intros n' R. apply put_ne. intros ->. destruct n; cbn in R; contradiction. }
    destruct n as [| | u' | t | t | t u']; cbn [content report_verifications report_tests];
      try reflexivity.
    + now elim N.
    + rewrite get_set_ne; [reflexivity | congruence].
  - intros u' s. cbn [report_verifications]. rewrite get_set_at.
    destruct (String.eqb u' u).
    + intros [= <-]. now exists fields.
    + apply (inv_dicts _ _ _ _ I).
  - cbn [report_verifications report_tests]. split; [|exact (proj2 (inv_keys _ _ _ _ I))].
    apply NoDup_keys_set. exact (proj1 (inv_keys _ _ _ _ I)).
Qed.

(** [tests[test_id] = {"tags": ..., "name": ..., "by_verification": {}}] *)
Lemma Inv_add_test (h0 h : Heap.heap) (r : report) (w : name -> Heap.loc)
    (test_id : string) (e : Test.t) :
  Inv h0 h r w ->
  Dict.get test_id (report_tests r) = None ->
  Test.by_verification e = [] ->
  Inv h0
    (Heap.replace (w NTests)
       (Dict.set test_id (Heap.Ref (S (length h))) (content r w NTests))
       ((h ++ [[]]) ++ [test_cell e (length h)])%list)
    {| report_verifications := report_verifications r;
       report_tests := Dict.set test_id e (report_tests r) |}
    (put (put w (NByv test_id) (length h)) (NTest test_id) (S (length h))).
Proof.
  intros I G B.
  pose proof (Inv_lt h0 h r w I NTests Logic.I) as Lt.
  apply (Inv_step h0 h _ r _ w _ NTests
           (fun n => n = NByv test_id \/ n = NTest test_id) I).
  - intros n. destruct (name_eq_dec n (NByv test_id)); [now left; left|].
    destruct (name_eq_dec n (NTest test_id)); [now left; right|].
    right. intros [|]; contradiction.
  - exact Logic.I.
  - exact Logic.I.
  - intros [|]; discriminate.
  - intros l Hl N. rewrite nth_error_replace_ne by congruence.
    rewrite nth_error_app1 by (rewrite length_app; lia).
    now apply nth_error_app1.
  - rewrite nth_error_replace_eq by (rewrite !length_app; lia).
    f_equal. cbn [content report_tests].
    rewrite <- (put_eq (put w (NByv test_id) (length h)) (NTest test_id) (S (length h))) at 1.
    apply (keyed_set (fun t => Heap.Ref (w (NTest t)))
             (fun t => Heap.Ref (put (put w (NByv test_id) (length h)) (NTest test_id)
                                   (S (length h)) (NTest t)))).
    + exact (proj1 (proj2 (inv_keys _ _ _ _ I))).
    + intros k' N _. rewrite !put_ne; [reflexivity | discriminate | congruence].
  - intros n L.
    destruct (name_eq_dec n (NByv test_id)) as [->|N1]; [now left; left|].
    destruct (name_eq_dec n (NTest test_id)) as [->|N2]; [now left; right|].
    right. rewrite !put_ne by assumption. split; [|reflexivity].
    destruct n as [| | u | t | t | t u]; cbn [live report_verifications report_tests] in *;
      try assumption.
    + rewrite get_set_ne in L; [exact L | congruence].
    + rewrite get_set_ne in L; [exact L | congruence].
    + destruct L as (e' & G' & H). rewrite get_set_at in G'.
      destruct (String.eqb t test_id).
      * inversion G'; subst e'. rewrite B in H. now elim H.
      * now exists e'.
  - intros n [-> | ->] _.
    + rewrite put_ne by discriminate. rewrite put_eq. split; [lia|].
      rewrite nth_error_replace_ne by lia.
      rewrite (nth_error_old _ _ _ _ (nth_error_new h [])).
      cbn [content report_tests]. now rewrite get_set_eq, B.
    + rewrite put_eq. split; [lia|].
      rewrite nth_error_replace_ne by lia.
      replace (S (length h)) with (length (h ++ [[]])%list) at 1
        by (rewrite length_app; cbn; lia).
      rewrite nth_error_new. cbn [content report_tests]. rewrite get_set_eq.
      rewrite put_ne by discriminate. now rewrite put_eq.
  - intros n1 n2 [-> | ->] [-> | ->]; try reflexivity;
      rewrite ?put_eq, ?(put_ne _ (NTest test_id) (NByv test_id)) by discriminate;
      rewrite ?put_eq; lia.
  - intros n L NF N. rewrite (content_agree _ w).
    2:{ intros n' R. rewrite !put_ne; [reflexivity | |].
        - intros ->. apply NF. destruct n; cbn in R; try contradiction. subst. now right.
        - intros ->. destruct n; cbn in R; contradiction. }
    destruct n as [| | u | t | t | t u]; cbn [content report_verifications report_tests];
      try reflexivity.
    + now elim N.
    + rewrite get_set_ne; [reflexivity|]. intros ->. apply NF. now right.
    + rewrite get_set_ne; [reflexivity|]. intros ->. apply NF. now left.
    + rewrite get_set_at. destruct (String.eqb_spec t test_id) as [->|_]; [|reflexivity].
      now rewrite G, B.
  - exact (inv_dicts _ _ _ _ I).
  - cbn [report_verifications report_tests]. split; [exact (proj1 (inv_keys _ _ _ _ I))|].
    split; [apply NoDup_keys_set; exact (proj1 (proj2 (inv_keys _ _ _ _ I)))|].
    intros t e'. rewrite get_set_at. destruct (String.eqb t test_id).
    + intros [= <-]. rewrite B. constructor.
    + apply (proj2 (proj2 (inv_keys _ _ _ _ I))).
Qed.

(** [by_verification[uuid] = {"status": ..., "duration": ...}] for the
    dictionary of the records of a test. *)
Lemma Inv_add_record (h0 h : Heap.heap) (r : report) (w : name -> Heap.loc)
    (test_id uuid : string) (e : Test.t) (i : Info.t) :
  Inv h0 h r w ->
  Dict.get test_id (report_tests r) = Some e ->
  Inv h0
    (Heap.replace (w (NByv test_id))
       (Dict.set uuid (Heap.Ref (length h)) (content r w (NByv test_id)))
       (h ++ [info_cell i])%list)
    {| report_verifications := report_verifications r;
       report_tests :=
         Dict.update test_id
           (fun t => Test.set_by_verification
                       (Dict.set uuid i (Test.by_verification t)) t)
           (report_tests r) |}
    (put w (NRecord test_id uuid) (length h)).
Proof.
  intros I G.
  assert (Lb : live r (NByv test_id)) by (cbn; congruence).
  pose proof (Inv_lt h0 h r w I _ Lb) as Lt.
  pose proof (proj2 (proj2 (inv_keys _ _ _ _ I)) _ _ G) as ND.
  apply (Inv_step h0 h _ r _ w _ (NByv test_id) (fun n => n = NRecord test_id uuid) I).
  - intros n. destruct (name_eq_dec n (NRecord test_id uuid)); [now left | now right].
  - exact Lb.
  - cbn [live report_tests]. rewrite get_update_eq, G. discriminate.
  - discriminate.
  - intros l Hl N. rewrite nth_error_replace_ne by congruence.
    now apply nth_error_app1.
  - rewrite nth_error_replace_eq by (rewrite length_app; lia).
    f_equal. cbn [content report_tests]. rewrite get_update_eq, G.
    cbn [option_map Test.set_by_verification Test.by_verification].
    rewrite <- (put_eq w (NRecord test_id uuid) (length h)) at 1.
    apply (keyed_set (fun u => Heap.Ref (w (NRecord test_id u)))
             (fun u => Heap.Ref (put w (NRecord test_id uuid) (length h) (NRecord test_id u)))).
    + exact ND.
    + intros k' N _. rewrite put_ne; [reflexivity | congruence].
  - intros n L.
    destruct (name_eq_dec n (NRecord test_id uuid)) as [->|N]; [now left|].
    right. rewrite put_ne by assumption. split; [|reflexivity].
    destruct n as [| | u | t | t | t u]; cbn [live report_verifications report_tests] in *;
      try assumption.
    + destruct (string_dec t test_id) as [->|N']; [congruence|].
      rewrite get_update_ne in L by congruence. exact L.
    + destruct (string_dec t test_id) as [->|N']; [congruence|].
      rewrite get_update_ne in L by congruence. exact L.
    + destruct L as (e' & G' & H).
      destruct (string_dec t test_id) as [->|N'].
      * rewrite get_update_eq, G in G'. inversion G'; subst e'. exists e. split; [exact G|].
        cbn in H. rewrite get_set_ne in H; [exact H | congruence].
      * rewrite get_update_ne in G' by congruence. now exists e'.
  - intros n -> _. rewrite put_eq. split; [lia|].
    rewrite nth_error_replace_ne by lia. rewrite nth_error_new.
    cbn [content report_tests]. rewrite get_update_eq, G. cbn. now rewrite get_set_eq.
  - intros n1 n2 -> ->. reflexivity.
  - intros n L NF N. rewrite (content_agree _ w).
    2:{ intros n' R. apply put_ne. intros ->. destruct n; cbn in R; try contradiction.
        subst. now elim N. }
    destruct n as [| | u | t | t | t u]; cbn [content report_verifications report_tests];
      try reflexivity.
    + now rewrite keys_update.
    + rewrite get_update_at. destruct (String.eqb_spec t test_id) as [->|_]; [|reflexivity].
      rewrite G. reflexivity.
    + rewrite get_update_at. destruct (String.eqb_spec t test_id) as [->|_]; [|reflexivity].
      now elim N.
    + rewrite get_update_at. destruct (String.eqb_spec t test_id) as [->|_]; [|reflexivity].
      rewrite G. cbn. rewrite get_set_ne; [reflexivity | congruence].
  - exact (inv_dicts _ _ _ _ I).
  - cbn [report_verifications report_tests]. split; [exact (proj1 (inv_keys _ _ _ _ I))|].
    split; [rewrite keys_update; exact (proj1 (proj2 (inv_keys _ _ _ _ I)))|].
    intros t e'. rewrite get_update_at. destruct (String.eqb_spec t test_id) as [->|_].
    + rewrite G. intros [= <-]. cbn. now apply NoDup_keys_set.
    + apply (proj2 (proj2 (inv_keys _ _ _ _ I))).
Qed.

(** ** Running [_generate] on the store *)

Lemma strings_of_map (l : list string) : Heap.strings_of (map PStr l) = Some l.
Proof. induction l as [|s l IH]; cbn; [reflexivity | now rewrite IH]. Qed.

Lemma details_details_of (result : Result.t) :
  Heap.details (match Result.reason result with Some r => r | None => "" end)
    (match Result.traceback result with Some t => t | None => "" end)
  = details_of result.
Proof. reflexivity. Qed.

(** A dictionary of the caller is where it was. *)
Lemma Inv_caller (h0 h : Heap.heap) (r : report) (w : name -> Heap.loc)
    (l : Heap.loc) (c : Heap.cell) :
  Inv h0 h r w -> nth_error h0 l = Some c -> nth_error h l = Some c.
Proof.
  intros I H. rewrite (inv_prefix _ _ _ _ I); [exact H|].
  now apply nth_error_bound with c.
Qed.

Lemma Inv_tests_at (h0 h : Heap.heap) (r : report) (w : name -> Heap.loc)
    (test_id : string) (e : Test.t) :
  Inv h0 h r w -> Dict.get test_id (report_tests r) = Some e ->
  Heap.getitem (Heap.Ref (w NTests)) test_id h = Some (Heap.Ref (w (NTest test_id)), h).
Proof.
  intros I G. apply run_getitem with (content r w NTests).
  - now apply (Inv_at h0 h r w I).
  - cbn [content]. now rewrite get_keyed_keys, G.
Qed.

Lemma Inv_test_at (h0 h : Heap.heap) (r : report) (w : name -> Heap.loc)
    (test_id : string) (e : Test.t) :
  Inv h0 h r w -> Dict.get test_id (report_tests r) = Some e ->
  nth_error h (w (NTest test_id)) = Some (test_cell e (w (NByv test_id))).
Proof.
  intros I G. rewrite (Inv_at h0 h r w I) by (cbn; congruence).
  cbn [content]. now rewrite G.
Qed.

Lemma Inv_byv_at (h0 h : Heap.heap) (r : report) (w : name -> Heap.loc)
    (test_id : string) (e : Test.t) :
  Inv h0 h r w -> Dict.get test_id (report_tests r) = Some e ->
  nth_error h (w (NByv test_id))
  = Some (keyed (fun u => Heap.Ref (w (NRecord test_id u)))
            (Dict.keys (Test.by_verification e))).
Proof.
  intros I G. rewrite (Inv_at h0 h r w I) by (cbn; congruence).
  cbn [content]. now rewrite G.
Qed.

Lemma Inv_record_at (h0 h : Heap.heap) (r : report) (w : name -> Heap.loc)
    (test_id uuid : string) (e : Test.t) (i : Info.t) :
  Inv h0 h r w -> Dict.get test_id (report_tests r) = Some e ->
  Dict.get uuid (Test.by_verification e) = Some i ->
  nth_error h (w (NRecord test_id uuid)) = Some (info_cell i).
Proof.
  intros I G Gi. rewrite (Inv_at h0 h r w I).
  - cbn [content]. now rewrite G, Gi.
  - cbn. exists e. split; [exact G | congruence].
Qed.

Lemma Inv_byv_get (h0 h : Heap.heap) (r : report) (w : name -> Heap.loc)
    (test_id : string) (e : Test.t) :
  Inv h0 h r w -> Dict.get test_id (report_tests r) = Some e ->
  Heap.getitem (Heap.Ref (w (NTest test_id))) "by_verification" h
  = Some (Heap.Ref (w (NByv test_id)), h).
Proof.
  intros I G. apply run_getitem with (test_cell e (w (NByv test_id))).
  - now apply (Inv_test_at h0 h r w).
  - reflexivity.
Qed.

Lemma Inv_record_get (h0 h : Heap.heap) (r : report) (w : name -> Heap.loc)
    (test_id uuid : string) (e : Test.t) (i : Info.t) :
  Inv h0 h r w -> Dict.get test_id (report_tests r) = Some e ->
  Dict.get uuid (Test.by_verification e) = Some i ->
  Heap.getitem (Heap.Ref (w (NByv test_id))) uuid h
  = Some (Heap.Ref (w (NRecord test_id uuid)), h).
Proof.
  intros I G Gi. eapply run_getitem.
  - now apply (Inv_byv_at h0 h r w test_id e).
  - now rewrite get_keyed_keys, Gi.
Qed.

Section RunAddResult.
Context (h0 : Heap.heap) (uuid test_id : string).
Context (lr : Heap.loc) (cr : Heap.cell) (result : Result.t).
Hypothesis Hcr : nth_error h0 lr = Some cr.
Hypothesis Hres : result_rep cr result.

Local Abbreviation mk rv ts := {| report_verifications := rv; report_tests := ts |}.

Lemma run_new_test (h : Heap.heap) (rv : Dict.t pyval) (ts : Dict.t Test.t)
    (w : name -> Heap.loc) :
  Inv h0 h (mk rv ts) w ->
  exists h' w',
    Heap.new_test (Heap.Ref (w NTests)) test_id (Heap.Ref lr) h = Some (tt, h')
    /\ Inv h0 h'
         (mk rv (if negb (Dict.contains test_id ts) then
                   Dict.set test_id
                     {| Test.tags := sorted_tags result;
                        Test.name := Result.name result;
                        Test.by_verification := [];
                        Test.has_details := None |} ts
                 else ts)) w'
    /\ w' NVerifs = w NVerifs /\ w' NTests = w NTests.
Proof.
  intros I. pose proof (Inv_caller _ _ _ _ _ _ I Hcr) as Hr.
  pose proof (Inv_at h0 h _ w I NTests Logic.I) as Ht.
  destruct Hres as (Rn & Rt & _).
  unfold Heap.new_test.
  rewrite (run_bind _ _ _ _ _ (run_contains _ _ _ test_id Ht)).
  cbn [content report_tests]. rewrite contains_keyed_keys.
  destruct (Dict.contains test_id ts) eqn:C; cbn [negb].
  - exists h, w. split; [reflexivity | split; [exact I | split; reflexivity]].
  - assert (G : Dict.get test_id ts = None).
    { unfold Dict.contains in C. now destruct (Dict.get test_id ts). }
    rewrite (run_bind _ _ _ _ _ (run_get _ _ _ "tags" _ Hr)).
    rewrite Rt.
    assert (E : match option_map (fun l => Heap.Val (PList (map PStr l))) (Result.tags result) with
                | Some x => x
                | None => Heap.Val (PList [])
                end
                = Heap.Val (PList (map PStr (match Result.tags result with
                                             | Some l => l
                                             | None => []
                                             end)))).
    { now destruct (Result.tags result). }
    rewrite E. unfold Heap.as_strings.
    rewrite (run_bind (Heap.lift _) _ h h
               (match Result.tags result with Some l => l | None => [] end)).
    2:{ unfold Heap.lift. now rewrite strings_of_map. }
    rewrite (run_bind _ _ _ _ _ (run_getitem _ _ _ "name" _ Hr Rn)).
    unfold Heap.alloc at 1. unfold Heap.bind at 1.
    unfold Heap.alloc at 1. unfold Heap.bind at 1.
    rewrite length_app. cbn [length]. rewrite Nat.add_1_r.
    erewrite run_setitem.
    2:{ apply nth_error_old. apply nth_error_old. exact Ht. }
    eexists. exists (put (put w (NByv test_id) (length h)) (NTest test_id) (S (length h))).
    split; [reflexivity|]. split.
    + apply (Inv_add_test h0 h (mk rv ts) w test_id
               {| Test.tags := sorted_tags result;
                  Test.name := Result.name result;
                  Test.by_verification := [];
                  Test.has_details := None |} I G eq_refl).
    + rewrite !put_ne by discriminate. split; reflexivity.
Qed.

Lemma run_new_record (h : Heap.heap) (rv : Dict.t pyval) (ts : Dict.t Test.t)
    (w : name -> Heap.loc) (e : Test.t) :
  Inv h0 h (mk rv ts) w ->
  Dict.get test_id ts = Some e ->
  exists h' w',
    Heap.new_record (Heap.Ref (w NTests)) uuid test_id (Heap.Ref lr) h = Some (tt, h')
    /\ Inv h0 h'
         (mk rv (Dict.update test_id
                   (fun t => Test.set_by_verification
                      (Dict.set uuid
                         {| Info.status := Result.status result;
                            Info.duration := DFloat (Result.duration result);
                            Info.details := None |} (Test.by_verification t)) t) ts)) w'
    /\ w' NVerifs = w NVerifs /\ w' NTests = w NTests.
Proof.
  intros I G. pose proof (Inv_caller _ _ _ _ _ _ I Hcr) as Hr.
  destruct Hres as (_ & _ & Rs & Rd & _).
  unfold Heap.new_record.
  rewrite (run_bind _ _ _ _ _ (Inv_tests_at h0 h _ w test_id e I G)).
  rewrite (run_bind _ _ _ _ _ (Inv_byv_get h0 h _ w test_id e I G)).
  rewrite (run_bind _ _ _ _ _ (run_getitem _ _ _ "status" _ Hr Rs)).
  rewrite (run_bind _ _ _ _ _ (run_getitem _ _ _ "duration" _ Hr Rd)).
  unfold Heap.alloc at 1. unfold Heap.bind at 1.
  erewrite run_setitem.
  2:{ apply nth_error_old. apply (Inv_at h0 h _ w I). cbn. now rewrite G. }
  eexists. exists (put w (NRecord test_id uuid) (length h)).
  split; [reflexivity|]. split.
  - apply (Inv_add_record h0 h (mk rv ts) w test_id uuid e
             {| Info.status := Result.status result;
                Info.duration := DFloat (Result.duration result);
                Info.details := None |} I G).
  - rewrite !put_ne by discriminate. split; reflexivity.
Qed.

Lemma run_add_details (h : Heap.heap) (rv : Dict.t pyval) (ts : Dict.t Test.t)
    (w : name -> Heap.loc) (e : Test.t) (i : Info.t) :
  Inv h0 h (mk rv ts) w ->
  Dict.get test_id ts = Some e ->
  Dict.get uuid (Test.by_verification e) = Some i ->
  exists h',
    Heap.add_details (Heap.Ref (w NTests)) uuid test_id (Heap.Ref lr) h = Some (tt, h')
    /\ Inv h0 h'
         (mk rv (match details_of result with
                 | Some d =>
                     Dict.update test_id
                       (fun t => Test.set_by_verification
                          (Dict.update uuid (Info.set_details (Some d))
                             (Test.by_verification t)) t) ts
                 | None => ts
                 end)) w.
Proof.
  intros I G Gi. pose proof (Inv_caller _ _ _ _ _ _ I Hcr) as Hr.
  destruct Hres as (_ & _ & _ & _ & Rr & Rt).
  unfold Heap.add_details.
  rewrite (run_bind _ _ _ _ _ (run_get _ _ _ "reason" _ Hr)). rewrite Rr.
  assert (E1 : match option_map (fun s => Heap.Val (PStr s)) (Result.reason result) with
               | Some x => x
               | None => Heap.Val (PStr "")
               end
               = Heap.Val (PStr (match Result.reason result with Some s => s | None => "" end))).
  { now destruct (Result.reason result). }
  rewrite E1. cbn [Heap.as_str]. unfold Heap.ret at 1. unfold Heap.bind at 1.
  rewrite (run_bind _ _ _ _ _ (run_get _ _ _ "traceback" _ Hr)). rewrite Rt.
  assert (E2 : match option_map (fun s => Heap.Val (PStr s)) (Result.traceback result) with
               | Some x => x
               | None => Heap.Val (PStr "")
               end
               = Heap.Val (PStr (match Result.traceback result with Some s => s | None => "" end))).
  { now destruct (Result.traceback result). }
  rewrite E2. cbn [Heap.as_str]. unfold Heap.ret at 1. unfold Heap.bind at 1.
  rewrite details_details_of.
  destruct (details_of result) as [d|].
  - rewrite (run_bind _ _ _ _ _ (Inv_tests_at h0 h _ w test_id e I G)).
    rewrite (run_bind _ _ _ _ _ (Inv_byv_get h0 h _ w test_id e I G)).
    rewrite (run_bind _ _ _ _ _ (Inv_record_get h0 h _ w test_id uuid e i I G Gi)).
    rewrite (run_setitem _ _ _ _ _ (Inv_record_at h0 h _ w test_id uuid e i I G Gi)).
    eexists. split; [reflexivity|].
    rewrite (info_cell_set_details i (Some d)).
    pose proof (Inv_write_record h0 h _ w test_id uuid e i
                  (Info.set_details (Some d) i) I G Gi) as I'.
    cbn [report_verifications report_tests] in I'.
    erewrite update_at; [exact I' | exact G |].
    cbn beta. f_equal. apply update_at with i; [exact Gi | reflexivity].
  - exists h. split; [reflexivity | exact I].
Qed.

Lemma run_add_result (h : Heap.heap) (rv : Dict.t pyval) (ts : Dict.t Test.t)
    (w : name -> Heap.loc) :
  Inv h0 h (mk rv ts) w ->
  exists h' w',
    Heap.add_result (Heap.Ref (w NTests)) uuid (test_id, Heap.Ref lr) h = Some (tt, h')
    /\ Inv h0 h' (mk rv (add_result uuid ts (test_id, result))) w'
    /\ w' NVerifs = w NVerifs /\ w' NTests = w NTests.
Proof.
  intros I. unfold Heap.add_result, add_result.
  destruct (run_new_test h rv ts w I) as (h1 & w1 & R1 & I1 & V1 & T1).
  rewrite (run_bind _ _ _ _ _ R1).
  set (ts1 := if negb (Dict.contains test_id ts) then _ else ts) in *.
  assert (G1 : exists e1, Dict.get test_id ts1 = Some e1).
  { unfold ts1, Dict.contains. destruct (Dict.get test_id ts) as [e|] eqn:G; cbn [negb].
    - now exists e.
    - eexists. apply get_set_eq. }
  destruct G1 as (e1 & G1).
  rewrite <- T1.
  destruct (run_new_record h1 rv ts1 w1 e1 I1 G1) as (h2 & w2 & R2 & I2 & V2 & T2).
  rewrite (run_bind _ _ _ _ _ R2).
  set (ts2 := Dict.update test_id _ ts1) in *.
  rewrite <- T2.
  set (i0 := {| Info.status := Result.status result;
                Info.duration := DFloat (Result.duration result);
                Info.details := None |}) in *.
  destruct (run_add_details h2 rv ts2 w2
              (Test.set_by_verification (Dict.set uuid i0 (Test.by_verification e1)) e1)
              i0 I2) as (h3 & R3 & I3).
  - unfold ts2. rewrite get_update_eq, G1. reflexivity.
  - cbn. apply get_set_eq.
  - exists h3, w2. split; [exact R3|]. split; [exact I3|]. split; congruence.
Qed.

End RunAddResult.

(** The loop over [v.tests.items()] *)
Lemma run_results (h0 : Heap.heap) (uuid : string) (c : list (string * Heap.value))
    (d : Dict.t Result.t) :
  Forall2 (fun kx kr =>
             fst kx = fst kr
             /\ exists lr cr, snd kx = Heap.Ref lr
                              /\ nth_error h0 lr = Some cr
                              /\ result_rep cr (snd kr)) c d ->
  forall (h : Heap.heap) (rv : Dict.t pyval) (ts : Dict.t Test.t) (w : name -> Heap.loc),
    Inv h0 h {| report_verifications := rv; report_tests := ts |} w ->
    exists h' w',
      Heap.for_each c (Heap.add_result (Heap.Ref (w NTests)) uuid) h = Some (tt, h')
      /\ Inv h0 h' {| report_verifications := rv;
                      report_tests := fold_left (add_result uuid) d ts |} w'
      /\ w' NVerifs = w NVerifs /\ w' NTests = w NTests.
Proof.
  induction 1 as [|[k x] [k' res] c d (E & lr & cr & Ex & Hcr & Hres) F IH];
    intros h rv ts w I.
  - exists h, w. split; [reflexivity | split; [exact I | split; reflexivity]].
  - cbn [fst snd] in *. subst k x. cbn [Heap.for_each fold_left].
    destruct (run_add_result h0 uuid k' lr cr res Hcr Hres h rv ts w I)
      as (h1 & w1 & R1 & I1 & V1 & T1).
    rewrite (run_bind _ _ _ _ _ R1). rewrite <- T1.
    destruct (IH h1 rv _ w1 I1) as (h2 & w2 & R2 & I2 & V2 & T2).
    exists h2, w2. split; [exact R2|]. split; [exact I2|]. split; congruence.
Qed.

Section RunGenerate.
Context {datetime : Type} (strftime : datetime -> string -> string).
Context (cls : reporter_class).

(** The body of the loop over [self.verifications] *)
Lemma run_add_verification (h0 h : Heap.heap) (vh : Heap.verification datetime)
    (v : verification datetime) (r : report) (w : name -> Heap.loc) :
  verification_rep h0 vh v ->
  Inv h0 h r w ->
  exists h' w',
    Heap.add_verification strftime cls (Heap.Ref (w NVerifs)) (Heap.Ref (w NTests)) vh h
    = Some (tt, h')
    /\ Inv h0 h' (add_verification strftime cls r v) w'
    /\ w' NVerifs = w NVerifs /\ w' NTests = w NTests.
Proof.
  intros (Eu & Ec & Eup & Es & Er & Etc & Etd & Esk & Esu & Eef & Eus & Ef & Rt) I.
  destruct Rt as (l & c & El & Hl & F).
  unfold Heap.add_verification, add_verification.
  rewrite Eu, Ec, Eup, Es, Er, Etc, Etd, Esk, Esu, Eef, Eus, Ef.
  unfold Heap.alloc at 1. unfold Heap.bind at 1.
  erewrite run_bind.
  2:{ apply run_setitem. apply nth_error_old. apply (Inv_at h0 h r w I NVerifs Logic.I). }
  pose proof (Inv_add_summary h0 h r w (uuid v)
                [("started_at", PStr (strftime (created_at datetime v) (TIME_FORMAT cls)));
                 ("finished_at", PStr (strftime (updated_at datetime v) (TIME_FORMAT cls)));
                 ("status", status datetime v);
                 ("run_args", run_args datetime v);
                 ("tests_count", tests_count datetime v);
                 ("tests_duration", tests_duration datetime v);
                 ("skipped", skipped datetime v);
                 ("success", success datetime v);
                 ("expected_failures", expected_failures datetime v);
                 ("unexpected_success", unexpected_success datetime v);
                 ("failures", failures datetime v)] I) as I1.
  cbn [summary_cell map fst snd] in I1.
  unfold Heap.v_tests. rewrite El.
  rewrite (run_bind _ _ _ _ _ (run_items _ _ _ (Inv_caller _ _ _ _ _ _ I1 Hl))).
  destruct (run_results h0 (uuid v) c (tests v) F _ _ _ _ I1) as (h2 & w2 & R2 & I2 & V2 & T2).
  rewrite put_ne in R2, V2, T2 by discriminate.
  exists h2, w2. split; [exact R2|]. split; [exact I2|]. split; assumption.
Qed.

(** The loop over [self.verifications] *)
Lemma run_verifications (h0 : Heap.heap) (vhs : list (Heap.verification datetime))
    (vs : list (verification datetime)) :
  Forall2 (verification_rep h0) vhs vs ->
  forall (h : Heap.heap) (r : report) (w : name -> Heap.loc),
    Inv h0 h r w ->
    exists h' w',
      Heap.for_each vhs
        (Heap.add_verification strftime cls (Heap.Ref (w NVerifs)) (Heap.Ref (w NTests))) h
      = Some (tt, h')
      /\ Inv h0 h' (fold_left (add_verification strftime cls) vs r) w'
      /\ w' NVerifs = w NVerifs /\ w' NTests = w NTests.
Proof.
  induction 1 as [|vh v vhs vs Hv F IH]; intros h r w I.
  - exists h, w. split; [reflexivity | split; [exact I | split; reflexivity]].
  - cbn [Heap.for_each fold_left].
    destruct (run_add_verification h0 h vh v r w Hv I) as (h1 & w1 & R1 & I1 & V1 & T1).
    rewrite (run_bind _ _ _ _ _ R1). rewrite <- V1, <- T1.
    destruct (IH h1 _ w1 I1) as (h2 & w2 & R2 & I2 & V2 & T2).
    exists h2, w2. split; [exact R2|]. split; [exact I2|]. split; congruence.
Qed.

(** The two dictionaries that [_generate] starts with. *)
Lemma Inv_start (h0 : Heap.heap) :
  Inv h0 ((h0 ++ [[]]) ++ [[]])%list {| report_verifications := []; report_tests := [] |}
    (fun n => match n with NTests => S (length h0) | _ => length h0 end).
Proof.
  constructor.
  - intros l Hl. rewrite nth_error_app1 by (rewrite length_app; lia).
    now apply nth_error_app1.
  - intros n L. destruct n as [| | u | t | t | t u]; cbn in L;
      try (now elim L); try (destruct L as (e & [=] & _)).
    + split; [lia|]. apply nth_error_old. apply nth_error_new.
    + split; [lia|]. replace (S (length h0)) with (length (h0 ++ [[]])%list)
        by (rewrite length_app; cbn; lia).
      apply nth_error_new.
  - intros n1 n2 L1 L2.
    destruct n1 as [| | u | t | t | t u]; cbn in L1;
      try (now elim L1); try (destruct L1 as (e & [=] & _));
      destruct n2 as [| | u' | t' | t' | t' u']; cbn in L2;
      try (now elim L2); try (destruct L2 as (e' & [=] & _));
      intros E; try reflexivity; lia.
  - intros u s [=].
  - cbn. split; [constructor | split; [constructor | intros t e [=]]].
Qed.


End RunGenerate.

(** ** What [json.dumps] finds in the store *)







Section Reify.
Context (h0 h : Heap.heap) (r : report) (w : name -> Heap.loc).
Hypothesis I : Inv h0 h r w.













End Reify.

(** ** [JSONReporter.generate] on the store *)



(** ** [HTMLReporter.generate] on the store: one test *)




Section WithTest.
Context (h0 : Heap.heap) (r : report) (w : name -> Heap.loc) (test_id : string) (e0 : Test.t).
Hypothesis G0 : Dict.get test_id (report_tests r) = Some e0.

Local Abbreviation test := (Heap.Ref (w (NTest test_id))).














End WithTest.

(** ** [HTMLReporter.generate] on the store *)


Section RefineHTML.
Context {datetime : Type} (strftime : datetime -> string -> string).
Context (json_dumps : option nat -> pyval -> string).
Context (render : string -> string -> bool -> string).


End RefineHTML.

(** ** Two calls on one store *)



(** * Further properties of the reporters *)

(** ** Runs that share a uuid *)

(** The elements of [l] without repetition, each where it comes
    first. *)
Lemma first_occurrences_snoc (l : list string) (u : string) :
  rev (nodup string_dec (rev (l ++ [u])))
  = if in_dec string_dec u l then rev (nodup string_dec (rev l))
    else (rev (nodup string_dec (rev l)) ++ [u])%list.
Proof.
  rewrite rev_app_distr. cbn [rev app nodup].
  destruct (in_dec string_dec u (rev l)) as [H|H], (in_dec string_dec u l) as [H'|H'];
    try reflexivity.
  - elim H'. now apply in_rev.
  - elim H. now apply in_rev in H'.
Qed.

Lemma In_first_occurrences (l : list string) (u : string) :
  In u (rev (nodup string_dec (rev l))) <-> In u l.
Proof. rewrite <- in_rev, nodup_In, <- in_rev. tauto. Qed.

Lemma find_snoc {A} (p : A -> bool) (l : list A) (x : A) :
  find p (rev (l ++ [x])) = if p x then Some x else find p (rev l).
Proof. rewrite rev_app_distr. reflexivity. Qed.

Section SharedUuid.
Context {datetime : Type} (strftime : datetime -> string -> string).
Context (cls : reporter_class).

Lemma summaries_of_runs (vs : list (verification datetime)) :
  let summaries :=
    report_verifications
      (fold_left (add_verification strftime cls) vs
         {| report_verifications := []; report_tests := [] |}) in
  Dict.keys summaries = rev (nodup string_dec (rev (map uuid vs)))
  /\ forall u,
       Dict.get u summaries
       = option_map (summary datetime strftime cls)
           (find (fun v => String.eqb (uuid v) u) (rev vs)).
Proof.
  induction vs as [|v vs IH] using rev_ind; [split; reflexivity|].
  cbv zeta in *. destruct IH as [K G].
  rewrite fold_left_app. cbn [fold_left add_verification report_verifications].
  split.
  - rewrite keys_set, map_app. cbn [map]. rewrite first_occurrences_snoc, K.
    destruct (Dict.contains (uuid v) _) eqn:C;
      destruct (in_dec string_dec (uuid v) (map uuid vs)) as [H|H]; try reflexivity.
    + apply contains_In_keys in C. rewrite K in C.
      apply (proj1 (In_first_occurrences _ _)) in C. contradiction.
    + apply (proj2 (In_first_occurrences _ _)) in H. rewrite <- K in H.
      apply contains_In_keys in H. congruence.
  - intros u. rewrite get_set_at, find_snoc, String.eqb_sym.
    destruct (String.eqb (uuid v) u); [reflexivity | apply G].
Qed.

End SharedUuid.

Lemma get_add_records_last (rs : list (string * Result.t)) (b : Dict.t Info.t)
    (u : string) :
  Dict.get u (add_records rs b)
  = match find (fun x => String.eqb (fst x) u) (rev rs) with
    | Some x => Some (record_of (snd x))
    | None => Dict.get u b
    end.
Proof.
  induction rs as [|x rs IH] using rev_ind; [reflexivity|].
  unfold add_records in *. rewrite fold_left_app. cbn [fold_left]. unfold add_record at 1.
  rewrite get_set_at, find_snoc, String.eqb_sym.
  destruct (String.eqb (fst x) u); [reflexivity | apply IH].
Qed.

Lemma find_app_last {A} (p : A -> bool) (l : list A) (x : A) :
  find p (l ++ [x])
  = match find p l with Some y => Some y | None => if p x then Some x else None end.
Proof.
  induction l as [|y l IH]; cbn; [reflexivity|]. now destruct (p y).
Qed.

(** ** The note about the comparison *)

Lemma contains_update {V} (k k' : string) (f : V -> V) (d : Dict.t V) :
  Dict.contains k' (Dict.update k f d) = Dict.contains k' d.
Proof.
  unfold Dict.contains. rewrite get_update_at.
  destruct (String.eqb_spec k' k) as [->|_]; [|reflexivity].
  now destruct (Dict.get k d).
Qed.

(** The loop over [uuids] appends one duration for each uuid that has a
    record. *)
Lemma length_compared (uuids : list string) (fs : list float) (d : Dict.t Info.t) :
  length (fst (compared uuids fs d))
  = (length fs + length (filter (fun u => Dict.contains u d) uuids))%nat.
Proof.
  revert fs d. induction uuids as [|u uuids IH]; intros fs d; cbn [compared filter].
  - cbn. lia.
  - unfold Dict.contains at 1. destruct (Dict.get u d) as [info|].
    + rewrite IH, length_app. cbn [length].
      rewrite (filter_ext _ (fun u' => Dict.contains u' d)) by (intros; apply contains_update).
      lia.
    + apply IH.
Qed.

Lemma count_present {V} (uuids : list string) (d : Dict.t V) :
  NoDup uuids -> NoDup (Dict.keys d) ->
  (forall u, In u (Dict.keys d) -> In u uuids) ->
  length (filter (fun u => Dict.contains u d) uuids) = length d.
Proof.
  intros NU ND H.
  assert (L1 : (length (filter (fun u => Dict.contains u d) uuids)
                <= length (Dict.keys d))%nat).
  { apply NoDup_incl_length; [now apply NoDup_filter|].
    intros u Hu. apply filter_In in Hu. now apply contains_In_keys. }
  assert (L2 : (length (Dict.keys d)
                <= length (filter (fun u => Dict.contains u d) uuids))%nat).
  { apply NoDup_incl_length; [exact ND|].
    intros u Hu. apply filter_In. split; [now apply H | now apply contains_In_keys]. }
  unfold Dict.keys in *. rewrite length_map in *. lia.
Qed.

Lemma process_test_note (uuids : list string) (test : Test.t) :
  NoDup uuids ->
  NoDup (Dict.keys (Test.by_verification test)) ->
  (forall u, In u (Dict.keys (Test.by_verification test)) -> In u uuids) ->
  (forall u info, Dict.get u (Test.by_verification test) = Some info -> numeric info) ->
  process_test uuids test
  = Some (html_test uuids test, (2 <? length (Test.by_verification test))%nat).
Proof.
  intros NU ND K H. unfold process_test. rewrite flag_details_spec. cbn [orb].
  cbn [Test.set_by_verification Test.set_has_details Test.by_verification].
  change (@nil duration_value) with (map adjusted []).
  rewrite compare_loop_compared; [|exact NU|].
  - rewrite length_map, length_compared. cbn [length Nat.add].
    rewrite count_present; [| exact NU | |].
    + rewrite length_map. reflexivity.
    + unfold Dict.keys in *. rewrite map_map. exact ND.
    + intros u Hu. apply K. unfold Dict.keys in *. rewrite map_map in Hu. exact Hu.
  - intros u info _ G. rewrite get_map_values in G.
    destruct (Dict.get u (Test.by_verification test)) as [i|] eqn:G'; [|discriminate].
    inversion G; subst. apply flagged_numeric. now apply (H u).
Qed.

Lemma process_tests_note (uuids : list string) (tests : Dict.t Test.t) (show : bool) :
  NoDup uuids ->
  (forall t e, In (t, e) tests ->
               NoDup (Dict.keys (Test.by_verification e))
               /\ (forall u, In u (Dict.keys (Test.by_verification e)) -> In u uuids)
               /\ forall u info, Dict.get u (Test.by_verification e) = Some info ->
                                 numeric info) ->
  process_tests uuids tests show
  = Some (map (fun x => (fst x, html_test uuids (snd x))) tests,
          show || existsb (fun x => (2 <? length (Test.by_verification (snd x)))%nat) tests).
Proof.
  intros NU. revert show. induction tests as [|[t e] tests IH]; intros show H.
  - cbn. now rewrite orb_false_r.
  - cbn [process_tests].
    destruct (H t e (or_introl eq_refl)) as (ND & K & N).
    rewrite (process_test_note uuids e NU ND K N).
    rewrite IH by (intros t' e' Hin; apply (H t' e'); now right).
    cbn [map fst snd existsb]. f_equal. f_equal.
    destruct show, (2 <? length (Test.by_verification e))%nat; reflexivity.
Qed.

Lemma generate_note {datetime : Type} (strftime : datetime -> string -> string)
    (cls : reporter_class) (self : reporter datetime) :
  let report := _generate strftime cls self in
  let uuids := Dict.keys (report_verifications report) in
  process_tests uuids (report_tests report) false
  = Some (map (fun x => (fst x, html_test uuids (snd x))) (report_tests report),
          existsb (fun x => (2 <? length (Test.by_verification (snd x)))%nat)
            (report_tests report)).
Proof.
  intros report uuids.
  destruct (generate_uuids strftime cls self) as [NU EU]. fold report uuids in NU, EU.
  rewrite (process_tests_note uuids (report_tests report) false NU); [reflexivity|].
  intros t e Hin. apply In_get in Hin; [|apply generate_NoDup].
  destruct (generate_records strftime cls self t e Hin) as [ND R].
  split; [exact ND|]. split.
  - intros u Hu. apply get_In_keys in Hu.
    destruct (Dict.get u (Test.by_verification e)) as [info|] eqn:G; [|now elim Hu].
    destruct (R u info G) as (r & _ & Hr). apply In_results_of_test in Hr.
    destruct Hr as (v & Hv & <- & _). apply EU. now apply in_map.
  - intros u info G. destruct (R u info G) as (r & -> & _). apply record_of_numeric.
Qed.

(** ** The reasons that [SKIP_RE] matches *)





(** ** What the HTML reporter leaves as it is *)


Lemma same_but_durations_flagged (d : Dict.t Info.t) :
  Forall2 (fun x y => fst x = fst y /\ Info.status (snd x) = Info.status (snd y))
    d (map (fun x => (fst x, flagged (snd x))) d).
Proof.
  induction d as [|[u i] d IH]; constructor; [|exact IH].
  cbn [fst snd]. split; [reflexivity|]. unfold flagged. now destruct (Info.details i).
Qed.


(** ** A result without its status or duration *)

Lemma getitem_same (d : Heap.value) (k : string) (h h1 : Heap.heap) (x : Heap.value) :
  Heap.getitem d k h = Some (x, h1) -> h1 = h.
Proof.
  unfold Heap.getitem, Heap.bind, Heap.deref, Heap.lift.
  destruct d as [v|l]; [discriminate|]. destruct (nth_error h l); [|discriminate].
  destruct (Dict.get k c); [|discriminate]. now intros [= _ <-].
Qed.

Lemma get_same (d : Heap.value) (k : string) (default : Heap.value) (h h1 : Heap.heap)
    (x : Heap.value) :
  Heap.get d k default h = Some (x, h1) -> h1 = h.
Proof.
  unfold Heap.get, Heap.bind, Heap.deref, Heap.ret.
  destruct d as [v|l]; [discriminate|]. destruct (nth_error h l); [|discriminate].
  now intros [= _ <-].
Qed.

Lemma contains_same (d : Heap.value) (k : string) (h h1 : Heap.heap) (b : bool) :
  Heap.contains d k h = Some (b, h1) -> h1 = h.
Proof.
  unfold Heap.contains, Heap.bind, Heap.deref, Heap.ret.
  destruct d as [v|l]; [discriminate|]. destruct (nth_error h l); [|discriminate].
  now intros [= _ <-].
Qed.

Lemma as_strings_same (x : Heap.value) (h h1 : Heap.heap) (l : list string) :
  Heap.as_strings x h = Some (l, h1) -> h1 = h.
Proof.
  unfold Heap.as_strings, Heap.lift, Heap.raise.
  destruct x as [[| | | | |vs|]|]; try discriminate.
  destruct (Heap.strings_of vs); [|discriminate]. now intros [= _ <-].
Qed.

(** Lines 65-72 write to [tests] and to new dictionaries only. *)
Lemma new_test_keeps (lt : Heap.loc) (test_id : string) (result : Heap.value)
    (h h1 : Heap.heap) :
  Heap.new_test (Heap.Ref lt) test_id result h = Some (tt, h1) ->
  forall l c, nth_error h l = Some c -> l <> lt -> nth_error h1 l = Some c.
Proof.
  unfold Heap.new_test. unfold Heap.bind at 1.
  destruct (Heap.contains (Heap.Ref lt) test_id h) as [[seen h']|] eqn:C; [|discriminate].
  apply contains_same in C. subst h'.
  destruct seen; cbn [negb]; [now intros [= <-]|].
  unfold Heap.bind at 1.
  destruct (Heap.get result "tags" _ h) as [[tags h']|] eqn:G; [|discriminate].
  apply get_same in G. subst h'.
  unfold Heap.bind at 1.
  destruct (Heap.as_strings tags h) as [[ts h']|] eqn:A; [|discriminate].
  apply as_strings_same in A. subst h'.
  unfold Heap.bind at 1.
  destruct (Heap.getitem result "name" h) as [[name h']|] eqn:N; [|discriminate].
  apply getitem_same in N. subst h'.
  unfold Heap.alloc at 1. unfold Heap.bind at 1.
  unfold Heap.alloc at 1. unfold Heap.bind at 1.
  unfold Heap.setitem, Heap.bind, Heap.deref.
  destruct (nth_error _ lt) as [c0|]; [|discriminate].
  intros [= <-] l c H N'. rewrite nth_error_replace_ne by congruence.
  apply nth_error_old. now apply nth_error_old.
Qed.

(** Lines 74-77: [result["status"]] and [result["duration"]] raise
    KeyError when the key is missing. *)
Lemma add_result_raises (lt lr : Heap.loc) (cr : Heap.cell) (uuid test_id : string)
    (h : Heap.heap) :
  nth_error h lr = Some cr ->
  lr <> lt ->
  Dict.get "status" cr = None \/ Dict.get "duration" cr = None ->
  Heap.add_result (Heap.Ref lt) uuid (test_id, Heap.Ref lr) h = None.
Proof.
  intros Hr N K. unfold Heap.add_result. unfold Heap.bind at 1.
  destruct (Heap.new_test (Heap.Ref lt) test_id (Heap.Ref lr) h) as [[[] h1]|] eqn:E;
    [|reflexivity].
  pose proof (new_test_keeps lt test_id _ h h1 E lr cr Hr N) as Hr1.
  unfold Heap.bind at 1. unfold Heap.new_record.
  unfold Heap.bind at 1.
  destruct (Heap.getitem (Heap.Ref lt) test_id h1) as [[t h']|] eqn:G1; [|reflexivity].
  apply getitem_same in G1. subst h'.
  unfold Heap.bind at 1.
  destruct (Heap.getitem t "by_verification" h1) as [[b h']|] eqn:G2; [|reflexivity].
  apply getitem_same in G2. subst h'.
  unfold Heap.bind at 1.
  destruct (Heap.getitem (Heap.Ref lr) "status" h1) as [[s h']|] eqn:G3; [|reflexivity].
  pose proof (getitem_same _ _ _ _ _ G3). subst h'.
  unfold Heap.bind at 1.
  destruct (Heap.getitem (Heap.Ref lr) "duration" h1) as [[d h']|] eqn:G4; [|reflexivity].
  exfalso. unfold Heap.getitem, Heap.bind, Heap.deref, Heap.lift in G3, G4.
  rewrite Hr1 in G3, G4. destruct K as [K|K]; rewrite K in *; discriminate.
Qed.

Lemma for_each_app {A} (l1 l2 : list A) (body : A -> Heap.M unit) (h : Heap.heap) :
  Heap.for_each (l1 ++ l2) body h
  = Heap.bind (Heap.for_each l1 body) (fun _ => Heap.for_each l2 body) h.
Proof.
  revert h. induction l1 as [|x l1 IH]; intros h; [reflexivity|].
  cbn [app Heap.for_each]. unfold Heap.bind.
  destruct (body x h) as [[[] h1]|]; [|reflexivity]. rewrite IH. reflexivity.
Qed.

(** C3. The tags of a result are sorted so that the tags starting with
    "id-" come before all the others, and inside each of the two groups the
    tags keep the order they have in the result; the tags
    ["foo", "id-2", "bar", "id-1"] give ["id-2", "id-1", "foo", "bar"]. *)
Theorem sorted_tags_id_first :
  (forall result : Result.t,
     let tags := match Result.tags result with Some l => l | None => [] end in
     sorted_tags result
     = (filter (fun tag => PyStr.startswith tag "id-") tags
        ++ filter (fun tag => negb (PyStr.startswith tag "id-")) tags)%list)
  /\ sorted_tags (Example.result "test" ["foo"; "id-2"; "bar"; "id-1"] 1.0 None None)
     = ["id-2"; "id-1"; "foo"; "bar"].
Proof.
  split.
  - intros result tags. unfold sorted_tags. apply sorted_reverse_partition.
  - vm_compute. reflexivity.
Qed.

(** ** The details of a result *)



(** ** The link of a skipped test *)

(** C5. A reason of the form "Skipped until Bug: <digits> is resolved."
    is rewritten with the bug number replaced by its link on
    launchpad.net and the words around it unchanged, and the details of
    the record are that text followed by the traceback, if any; the
    reason "Skipped until Bug: 12345 is resolved." gives
    "Skipped until Bug: https://launchpad.net/bugs/12345 is resolved.". *)
Theorem skip_reason_link (result : Result.t) (ds : string) :
  ds <> "" ->
  PyStr.all_chars PyStr.isdigit ds = true ->
  Result.reason result = Some ("Skipped until Bug: " ++ ds ++ " is resolved.") ->
  let traceback := match Result.traceback result with Some t => t | None => "" end in
  let text := "Skipped until Bug: https://launchpad.net/bugs/" ++ ds ++ " is resolved." in
  rewritten_reason result = text
  /\ details_of result
     = Some (text ++ (if PyStr.truthy traceback then blank_line else "")
                  ++ PyStr.strip traceback).
Proof.
  intros Hne Hds Hr traceback text.
  assert (R : rewritten_reason result = text).
  { rewrite (rewritten_reason_skip result " " ds "." "");
      [| now right | exact Hne | exact Hds | discriminate | exact Hr].
    change ("Skipped until Bug:" ++ " " ++ ds ++ " is resolved" ++ ".")
      with ("Skipped until Bug: " ++ ds ++ " is resolved.").
    clear Hr. destruct ds as [|d ds']; [now elim Hne|].
    assert (Hd : PyStr.isdigit d = true).
    { simpl in Hds. apply andb_prop in Hds. tauto. }
    rewrite sub_literal_prefix
      by (apply no_occurrence_without; now apply without_digit).
    rewrite sub_literal_here by exact Hne.
    rewrite <- (append_empty_r " is resolved.") at 1.
    rewrite sub_literal_prefix
      by (apply no_occurrence_without; now apply without_digit).
    unfold text, LP_BUG_LINK. cbn [Re.sub Re.sub_from].
    rewrite append_empty_r, !append_assoc. reflexivity. }
  split; [exact R|].
  unfold details_of. rewrite R. fold traceback.
  change (PyStr.truthy text) with true. cbn [andb].
  rewrite !truthy_append. change (PyStr.truthy text) with true. reflexivity.
Qed.

Lemma skip_reason_link_witness :
  let result := Example.result "test" [] 1.0
                  (Some "Skipped until Bug: 12345 is resolved.") None in
  rewritten_reason result
  = "Skipped until Bug: https://launchpad.net/bugs/12345 is resolved."
  /\ details_of result
     = Some "Skipped until Bug: https://launchpad.net/bugs/12345 is resolved.".
Proof.
  exact (skip_reason_link
           (Example.result "test" [] 1.0
              (Some "Skipped until Bug: 12345 is resolved.") None)
           "12345" ltac:(discriminate) eq_refl eq_refl).
Defined.

(** C10 (amended). The pattern is only tried at the start of the reason:
    a reason that begins with "Skipped until Bug:", an optional space,
    the digits, " is resolved" and one more character, which may be any
    character except a line feed, is rewritten whatever follows. The
    rewriting is [re.sub] with the digits as the pattern over the whole
    reason: scanning from left to right, every occurrence of the digits
    (wherever it stands in the reason) is replaced by the link and the
    scan goes on after the occurrence; a text without an occurrence is
    left as it is. *)
Theorem skip_reason_every_occurrence (result : Result.t) (sp ds : string)
    (c : ascii) (rest : string) :
  sp = "" \/ sp = " " ->
  ds <> "" ->
  PyStr.all_chars PyStr.isdigit ds = true ->
  c <> "010"%char ->
  let reason := "Skipped until Bug:" ++ sp ++ ds ++ " is resolved" ++ String c rest in
  let link := LP_BUG_LINK ds in
  Result.reason result = Some reason ->
  rewritten_reason result = Re.sub (Re.literal ds) link reason
  /\ (forall a t : string,
        no_occurrence_within ds a (ds ++ t) ->
        Re.sub (Re.literal ds) link (a ++ ds ++ t)
        = a ++ link ++ Re.sub (Re.literal ds) link t)
  /\ (forall a : string,
        no_occurrence_within ds a "" ->
        Re.sub (Re.literal ds) link a = a).
Proof.
  intros Hsp Hne Hds Hc reason link Hr. split; [|split].
  - now apply rewritten_reason_skip.
  - intros a t H. rewrite sub_literal_prefix by exact H.
    now rewrite sub_literal_here.
  - intros a H. rewrite <- (append_empty_r a) at 1.
    rewrite sub_literal_prefix by exact H.
    cbn [Re.sub Re.sub_from]. apply append_empty_r.
Qed.

Lemma skip_reason_every_occurrence_witness :
  rewritten_reason
    (Example.result "test" [] 1.0
       (Some "Skipped until Bug:12 is resolved, see 12 and 3123") None)
  = Re.sub (Re.literal "12") (LP_BUG_LINK "12")
      "Skipped until Bug:12 is resolved, see 12 and 3123".
Proof.
  exact (proj1 (skip_reason_every_occurrence
                  (Example.result "test" [] 1.0
                     (Some "Skipped until Bug:12 is resolved, see 12 and 3123") None)
                  "" "12" "," " see 12 and 3123"
                  (or_introl eq_refl) ltac:(discriminate) eq_refl
                  ltac:(discriminate) eq_refl)).
Defined.

(** C10 as it is stated fails: the last "." of the pattern does not match
    a line feed, so that a reason that begins with the skip phrase
    followed by a line feed is left as it is. *)
Lemma skip_reason_line_feed_counterexample :
  let reason := "Skipped until Bug: 12 is resolved" ++ String "010" "" in
  let result := Example.result "test" [] 1.0 (Some reason) None in
  Re.rmatch SKIP_RE reason = None
  /\ rewritten_reason result = reason
  /\ rewritten_reason result <> Re.sub (Re.literal "12") (LP_BUG_LINK "12") reason.
Proof.
  vm_compute. repeat split. discriminate.
Qed.

(** ** The aggregated tests *)

(** C2. In the report of [_generate] every test identifier of a run has
    exactly one entry in [tests] (and [tests] has no other key); the entry
    has one per-run record for each run in which the test occurred, under
    the uuid of the run, so that it has as many records as there are
    distinct uuids among these runs; its tags and its name are those of
    the result of the test in the first run, in the order of the input,
    that has the test. *)
Theorem aggregated_tests {datetime : Type} (strftime : datetime -> string -> string)
    (cls : reporter_class) (self : reporter datetime) :
  let vs := verifications self in
  let has t := fun v => Dict.contains t (tests v) in
  let all_tests := report_tests (_generate strftime cls self) in
  NoDup (Dict.keys all_tests)
  /\ (forall t, In t (Dict.keys all_tests) <-> exists v, In v vs /\ has t v = true)
  /\ (forall t e,
        Dict.get t all_tests = Some e ->
        NoDup (Dict.keys (Test.by_verification e))
        /\ (forall u, In u (Dict.keys (Test.by_verification e))
                      <-> exists v, In v vs /\ uuid v = u /\ has t v = true)
        /\ length (Test.by_verification e)
           = length (nodup string_dec (map uuid (filter (has t) vs)))
        /\ exists v r,
             find (has t) vs = Some v
             /\ Dict.get t (tests v) = Some r
             /\ Test.tags e = sorted_tags r
             /\ Test.name e = Result.name r).
Proof.
  intros vs has all_tests.
  assert (E : forall t,
             Dict.get t all_tests
             = match results_of_test t (results_in_order vs) with
               | [] => None
               | (u0, r0) :: rs =>
                   Some {| Test.tags := sorted_tags r0;
                           Test.name := Result.name r0;
                           Test.by_verification := add_records rs [(u0, record_of r0)];
                           Test.has_details := None |}
               end).
  { intros t. unfold all_tests. rewrite generate_tests, get_fold_add_flat. reflexivity. }
  split; [|split].
  - unfold all_tests. rewrite generate_tests. apply NoDup_keys_fold_add_flat. constructor.
  - intros t. rewrite <- get_In_keys, E.
    pose proof (@In_fst_results_of_test datetime t) as H.
    destruct (results_of_test t (results_in_order vs)) as [|[u0 r0] rs] eqn:R.
    + split; [congruence|]. intros (v & Hv & Hc).
      assert (X : In (uuid v) (map fst (results_of_test t (results_in_order vs)))).
      { apply H. now exists v. }
      rewrite R in X. destruct X.
    + split; [|discriminate]. intros _.
      destruct (proj1 (H u0 vs)) as (v & Hv & _ & Hc); [rewrite R; now left|].
      now exists v.
  - intros t e G. rewrite E in G.
    pose proof (first_result_of_test t vs) as F.
    pose proof (@In_fst_results_of_test datetime t) as H.
    destruct (results_of_test t (results_in_order vs)) as [|[u0 r0] rs] eqn:R;
      [discriminate|].
    inversion G; subst e; clear G. cbn [Test.by_verification Test.tags Test.name].
    assert (ND : NoDup (Dict.keys (add_records rs [(u0, record_of r0)]))).
    { apply NoDup_keys_add_records. repeat constructor. intros []. }
    assert (K : forall u, In u (Dict.keys (add_records rs [(u0, record_of r0)]))
                          <-> exists v, In v vs /\ uuid v = u
                                        /\ Dict.contains t (tests v) = true).
    { intros u. rewrite In_keys_add_records, <- H, R. cbn. tauto. }
    split; [exact ND|]. split; [exact K|]. split.
    + rewrite <- (length_map fst). apply length_nodup_equiv; [exact ND|].
      intros u. fold (Dict.keys (add_records rs [(u0, record_of r0)])). rewrite K.
      rewrite in_map_iff. split.
      * intros (v & Hv & Hu & Hc). exists v. split; [exact Hu|].
        apply filter_In. auto.
      * intros (v & Hu & Hv). apply filter_In in Hv. exists v. tauto.
    + unfold has. destruct (find (fun v => Dict.contains t (tests v)) vs) as [v0|].
      * destruct F as (r & rs' & Gr & Eq). inversion Eq; subst.
        exists v0, r. auto.
      * discriminate.
Qed.

(** ** What [generate] returns *)


(** ** The flag [has_details] *)


(** ** The durations of the HTML report *)

(** C1 (amended). When the runs have distinct uuids, for every test and
    every run that has the test, other than the first run that has it,
    and unless the durations of both runs are below 0.001 (adjusted to
    "0"): the duration shown for the run is its adjusted duration followed
    by the difference, in parentheses and with a "+" when it is not
    negative, between its adjusted duration and the adjusted duration of
    the first run, where the adjusted duration of a number below 0.001 is
    "0" and counts as 0.0. For the durations [0.0005, 2.0] the second run
    shows "2.0 (+2.0)". *)
Theorem duration_compared_with_first :
  (forall {datetime : Type} (strftime : datetime -> string -> string)
          (cls : reporter_class) (self : reporter datetime),
     let vs := verifications self in
     let report := _generate strftime cls self in
     let uuids := Dict.keys (report_verifications report) in
     NoDup (map uuid vs) ->
     (forall v, In v vs -> NoDup (Dict.keys (tests v))) ->
     exists tests_html show,
       process_tests uuids (report_tests report) false = Some (tests_html, show)
       /\ forall t v0 r0 v r,
            find (fun v => Dict.contains t (tests v)) vs = Some v0 ->
            Dict.get t (tests v0) = Some r0 ->
            In v vs -> uuid v <> uuid v0 ->
            Dict.get t (tests v) = Some r ->
            let f0 := Result.duration r0 in
            let f := Result.duration r in
            below f0 && below f = false ->
            exists e info,
              Dict.get t tests_html = Some e
              /\ Dict.get (uuid v) (Test.by_verification e) = Some info
              /\ let diff := PrimFloat.sub (adjusted_float f) (adjusted_float f0) in
                 Info.duration info
                 = DStr (py_str (adjusted f) ++ " ("
                         ++ (if PrimFloat.leb 0 diff then "+" else "")
                         ++ PyFloat.repr diff ++ ")"))
  /\ process_tests ["run-1"; "run-2"]
       (report_tests (_generate Example.strftime HTMLReporter (Example.two_runs 0.0005 2.0)))
       false
     = Some ([("test",
               {| Test.tags := []; Test.name := "test";
                  Test.by_verification :=
                    [("run-1", {| Info.status := "success"; Info.duration := DStr "";
                                  Info.details := Some None |});
                     ("run-2", {| Info.status := "success";
                                  Info.duration := DStr "2.0 (+2.0)";
                                  Info.details := Some None |})];
                  Test.has_details := Some false |})], false).
Proof.
  split; [|vm_compute; reflexivity].
  intros datetime strftime cls self vs report uuids U D.
  destruct (html_tests_total strftime cls self) as [show H].
  fold report uuids in H. eexists. exists show. split; [exact H|].
  intros t v0 r0 v r F G0 Hv N Gr f0 f B.
  assert (Ge : exists e, Dict.get t (report_tests report) = Some e).
  { unfold report. rewrite generate_get. fold vs.
    rewrite (results_of_test_runs t vs D).
    pose proof (first_run_of_test t vs) as F'. rewrite F in F'.
    destruct F' as (? & ? & _ & ->). eexists. reflexivity. }
  destruct Ge as [e Ge].
  destruct (html_duration strftime cls self U D t e v0 v r0 r Ge F G0 Hv Gr)
    as (info & Gi & Di).
  exists (html_test uuids e), info. rewrite get_map_values, Ge.
  split; [reflexivity|]. split; [exact Gi|].
  apply String.eqb_neq in N. rewrite N in Di. rewrite Di.
  unfold shown_later. fold f0 f. now rewrite B.
Qed.

Lemma duration_compared_with_first_witness :
  exists tests_html show,
    process_tests
      (Dict.keys (report_verifications
                    (_generate Example.strftime HTMLReporter (Example.two_runs 0.0005 2.0))))
      (report_tests (_generate Example.strftime HTMLReporter (Example.two_runs 0.0005 2.0)))
      false
    = Some (tests_html, show).
Proof.
  destruct (proj1 duration_compared_with_first unit Example.strftime HTMLReporter
              (Example.two_runs 0.0005 2.0)) as (tests_html & show & H & _).
  - repeat constructor; cbn; intuition discriminate.
  - intros v [<- | [<- | []]]; repeat constructor; cbn; tauto.
  - exists tests_html, show. exact H.
Defined.

(** C1 as it is stated fails: for the durations [0.0005, 2.0] the
    difference with the raw duration of the first run would be 1.9995, and
    the second run shows "2.0 (+2.0)". *)
Lemma duration_raw_first_counterexample :
  let report := _generate Example.strftime HTMLReporter (Example.two_runs 0.0005 2.0) in
  let raw_diff := PrimFloat.sub 2.0 0.0005 in
  PyFloat.repr raw_diff = "1.9995"
  /\ exists tests_html show e info,
       process_tests (Dict.keys (report_verifications report)) (report_tests report) false
       = Some (tests_html, show)
       /\ Dict.get "test" tests_html = Some e
       /\ Dict.get "run-2" (Test.by_verification e) = Some info
       /\ Info.duration info = DStr "2.0 (+2.0)"
       /\ Info.duration info <> DStr ("2.0 (+" ++ PyFloat.repr raw_diff ++ ")").
Proof.
  split; [vm_compute; reflexivity|].
  do 4 eexists. split; [vm_compute; reflexivity|].
  split; [reflexivity|]. split; [reflexivity|]. split; [reflexivity|].
  vm_compute. discriminate.
Qed.

(** C7 (amended). When the runs have distinct uuids, for every test and
    every run that has the test with a duration below 0.001: the element
    of the list [durations] for the run is the string "0"; and the
    duration of its record is the empty string when the run is the first
    that has the test or when the duration of that first run is below
    0.001 too (both are "0", and no difference in parentheses is added),
    and is "0" followed by the difference with the first run in
    parentheses otherwise. *)
Theorem small_duration_blanked :
  forall {datetime : Type} (strftime : datetime -> string -> string)
         (cls : reporter_class) (self : reporter datetime),
    let vs := verifications self in
    let report := _generate strftime cls self in
    let uuids := Dict.keys (report_verifications report) in
    NoDup (map uuid vs) ->
    (forall v, In v vs -> NoDup (Dict.keys (tests v))) ->
    exists tests_html show,
      process_tests uuids (report_tests report) false = Some (tests_html, show)
      /\ forall t v0 r0 v r,
           find (fun v => Dict.contains t (tests v)) vs = Some v0 ->
           Dict.get t (tests v0) = Some r0 ->
           In v vs ->
           Dict.get t (tests v) = Some r ->
           below (Result.duration r) = true ->
           (exists e durations by_verification,
              Dict.get t (report_tests report) = Some e
              /\ compare_loop uuids ([], snd (flag_details false (Test.by_verification e)))
                 = Some (durations, by_verification)
              /\ length durations = length (runs_of_test t vs)
              /\ forall n, nth_error (runs_of_test t vs) n = Some (uuid v, r) ->
                           nth_error durations n = Some (DStr "0"))
           /\ exists e info,
                Dict.get t tests_html = Some e
                /\ Dict.get (uuid v) (Test.by_verification e) = Some info
                /\ let diff := PrimFloat.sub 0 (Result.duration r0) in
                   Info.duration info
                   = if String.eqb (uuid v) (uuid v0) || below (Result.duration r0)
                     then DStr ""
                     else DStr ("0 (" ++ (if PrimFloat.leb 0 diff then "+" else "")
                                      ++ PyFloat.repr diff ++ ")").
Proof.
  intros datetime strftime cls self vs report uuids U D.
  destruct (html_tests_total strftime cls self) as [show H].
  fold report uuids in H. eexists. exists show. split; [exact H|].
  intros t v0 r0 v r F G0 Hv Gr B.
  assert (Ge : exists e, Dict.get t (report_tests report) = Some e).
  { unfold report. rewrite generate_get. fold vs.
    rewrite (results_of_test_runs t vs D).
    pose proof (first_run_of_test t vs) as F'. rewrite F in F'.
    destruct F' as (? & ? & _ & ->). eexists. reflexivity. }
  destruct Ge as [e Ge]. split.
  - exists e. do 2 eexists. split; [exact Ge|]. split.
    + apply (html_durations_list strftime cls self t e U D Ge).
    + split; [apply length_map|]. intros n Hn.
      rewrite nth_error_map. fold vs. rewrite Hn. cbn.
      unfold adjusted. now rewrite B.
  - destruct (html_duration strftime cls self U D t e v0 v r0 r Ge F G0 Hv Gr)
      as (info & Gi & Di).
    exists (html_test uuids e), info. rewrite get_map_values, Ge.
    split; [reflexivity|]. split; [exact Gi|]. rewrite Di.
    unfold shown_first, shown_later, adjusted, adjusted_float. rewrite B.
    destruct (String.eqb (uuid v) (uuid v0)); cbn [orb]; [reflexivity|].
    rewrite andb_true_r. destruct (below (Result.duration r0)); reflexivity.
Qed.

Lemma small_duration_blanked_witness :
  exists tests_html show,
    process_tests
      (Dict.keys (report_verifications
                    (_generate Example.strftime HTMLReporter (Example.two_runs 2.0 0.0005))))
      (report_tests (_generate Example.strftime HTMLReporter (Example.two_runs 2.0 0.0005)))
      false
    = Some (tests_html, show).
Proof.
  destruct (@small_duration_blanked unit Example.strftime HTMLReporter
              (Example.two_runs 2.0 0.0005)) as (tests_html & show & H & _).
  - repeat constructor; cbn; intuition discriminate.
  - intros v [<- | [<- | []]]; repeat constructor; cbn; tauto.
  - exists tests_html, show. exact H.
Defined.

(** C7 as it is stated fails: for the durations [2.0, 0.0005] the
    duration of the second run is below 0.001 and its record does not hold
    the empty string but "0 (-2.0)". *)
Lemma small_duration_counterexample :
  let report := _generate Example.strftime HTMLReporter (Example.two_runs 2.0 0.0005) in
  below 0.0005 = true
  /\ exists tests_html show e info,
       process_tests (Dict.keys (report_verifications report)) (report_tests report) false
       = Some (tests_html, show)
       /\ Dict.get "test" tests_html = Some e
       /\ Dict.get "run-2" (Test.by_verification e) = Some info
       /\ Info.duration info = DStr "0 (-2.0)"
       /\ Info.duration info <> DStr "".
Proof.
  split; [vm_compute; reflexivity|].
  do 4 eexists. split; [vm_compute; reflexivity|].
  split; [reflexivity|]. split; [reflexivity|]. split; [reflexivity|].
  discriminate.
Qed.

(** ** Two calls of [generate] *)



(** * Further properties *)

(** ** Runs that share a uuid *)

(** X1. The report has one summary for each uuid of the runs, in the
    order in which the uuids come first in the input; when several runs
    have the same uuid, the summary is that of the last of them. *)
Theorem summaries_by_uuid {datetime : Type} (strftime : datetime -> string -> string)
    (cls : reporter_class) (self : reporter datetime) :
  let vs := verifications self in
  let summaries := report_verifications (_generate strftime cls self) in
  Dict.keys summaries = rev (nodup string_dec (rev (map uuid vs)))
  /\ forall u,
       Dict.get u summaries
       = option_map (summary datetime strftime cls)
           (find (fun v => String.eqb (uuid v) u) (rev vs)).
Proof.
  intros vs summaries. exact (summaries_of_runs strftime cls vs).
Qed.

(** X2. When the tests of every run are a dictionary, the record of a
    test under a uuid is made from the result of the test in the last run
    with this uuid that has the test: a later run replaces the record of
    an earlier run with the same uuid. *)
Theorem record_of_last_run {datetime : Type} (strftime : datetime -> string -> string)
    (cls : reporter_class) (self : reporter datetime) :
  let vs := verifications self in
  (forall v, In v vs -> NoDup (Dict.keys (tests v))) ->
  forall t e,
    Dict.get t (report_tests (_generate strftime cls self)) = Some e ->
    forall u,
      Dict.get u (Test.by_verification e)
      = option_map (fun x => record_of (snd x))
          (find (fun x => String.eqb (fst x) u) (rev (runs_of_test t vs))).
Proof.
  intros vs D t e G u. rewrite generate_get in G. fold vs in G.
  rewrite (results_of_test_runs t vs D) in G.
  destruct (runs_of_test t vs) as [|[u0 r0] rs]; [discriminate|].
  inversion G; subst e. cbn [Test.by_verification rev].
  rewrite get_add_records_last, find_app_last. cbn [fst snd].
  destruct (find _ (rev rs)); [reflexivity|].
  cbn [Dict.get]. rewrite String.eqb_sym. now destruct (String.eqb u0 u).
Qed.

Lemma record_of_last_run_witness :
  exists e,
    Dict.get "test" (report_tests (_generate Example.strftime JSONReporter
                                     (Example.two_runs 1.0 2.0))) = Some e
    /\ Dict.get "run-2" (Test.by_verification e)
       = option_map (fun x => record_of (snd x))
           (find (fun x => String.eqb (fst x) "run-2")
              (rev (runs_of_test "test" (verifications (Example.two_runs 1.0 2.0))))).
Proof.
  eexists. split; [reflexivity|].
  apply (record_of_last_run Example.strftime JSONReporter (Example.two_runs 1.0 2.0)).
  - intros v [<- | [<- | []]]; repeat constructor; cbn; tauto.
  - reflexivity.
Defined.

(** ** The note about the comparison *)

(** X3. The HTML reporter sets [show_comparison_note] exactly when some
    test of the report has records of more than two runs: then more than
    two durations of the test were compared. *)
Theorem comparison_note {datetime : Type} (strftime : datetime -> string -> string)
    (cls : reporter_class) (self : reporter datetime) :
  let report := _generate strftime cls self in
  let uuids := Dict.keys (report_verifications report) in
  exists tests_html show,
    process_tests uuids (report_tests report) false = Some (tests_html, show)
    /\ html_context strftime cls self
       = Some (PDict [("uuids", PList (map PStr uuids));
                      ("verifications", PDict (report_verifications report));
                      ("tests", dict_to_py test_to_py tests_html);
                      ("show_comparison_note", PBool show)])
    /\ (show = true
        <-> exists t e,
              Dict.get t (report_tests report) = Some e
              /\ (2 < length (Test.by_verification e))%nat).
Proof.
  intros report uuids. pose proof (generate_note strftime cls self) as H.
  cbv zeta in H. fold report uuids in H.
  eexists. eexists. split; [exact H|]. split.
  - unfold html_context. fold report uuids. now rewrite H.
  - rewrite existsb_exists. split.
    + intros ([t e] & Hin & L). cbn [snd] in L. apply Nat.ltb_lt in L.
      exists t, e. split; [|exact L]. apply In_get; [apply generate_NoDup | exact Hin].
    + intros (t & e & G & L). exists (t, e). split; [now apply get_In|].
      cbn [snd]. now apply Nat.ltb_lt.
Qed.

(** ** The reasons that are rewritten *)


(** ** The two HTML reporters *)


(** ** What the HTML reporter leaves as it is *)


(** ** The duration of the first run *)

(** X7. When the runs have distinct uuids, the first run that has a
    test shows the duration of the test as the number that it is, with
    nothing after it, unless the number is below 0.001, which shows as the
    empty string. *)
Theorem first_duration_shown {datetime : Type} (strftime : datetime -> string -> string)
    (cls : reporter_class) (self : reporter datetime) :
  let vs := verifications self in
  let report := _generate strftime cls self in
  let uuids := Dict.keys (report_verifications report) in
  NoDup (map uuid vs) ->
  (forall v, In v vs -> NoDup (Dict.keys (tests v))) ->
  exists tests_html show,
    process_tests uuids (report_tests report) false = Some (tests_html, show)
    /\ forall t v0 r0,
         find (fun v => Dict.contains t (tests v)) vs = Some v0 ->
         Dict.get t (tests v0) = Some r0 ->
         exists e info,
           Dict.get t tests_html = Some e
           /\ Dict.get (uuid v0) (Test.by_verification e) = Some info
           /\ Info.duration info
              = if PrimFloat.ltb (Result.duration r0) 0.001 then DStr ""
                else DFloat (Result.duration r0).
Proof.
  intros vs report uuids U D.
  destruct (html_tests_total strftime cls self) as [show H].
  fold report uuids in H. eexists. exists show. split; [exact H|].
  intros t v0 r0 F G0.
  assert (Ge : exists e, Dict.get t (report_tests report) = Some e).
  { unfold report. rewrite generate_get. fold vs.
    rewrite (results_of_test_runs t vs D).
    pose proof (first_run_of_test t vs) as F'. rewrite F in F'.
    destruct F' as (? & ? & _ & ->). eexists. reflexivity. }
  destruct Ge as [e Ge].
  assert (Hv : In v0 vs) by (apply find_some in F; tauto).
  destruct (html_duration strftime cls self U D t e v0 v0 r0 r0 Ge F G0 Hv G0)
    as (info & Gi & Di).
  exists (html_test uuids e), info. rewrite get_map_values, Ge.
  split; [reflexivity|]. split; [exact Gi|]. rewrite Di, String.eqb_refl. reflexivity.
Qed.

Lemma first_duration_shown_witness :
  exists tests_html show,
    process_tests
      (Dict.keys (report_verifications
                    (_generate Example.strftime HTMLReporter (Example.two_runs 1.5 0.0005))))
      (report_tests (_generate Example.strftime HTMLReporter (Example.two_runs 1.5 0.0005)))
      false
    = Some (tests_html, show).
Proof.
  destruct (first_duration_shown Example.strftime HTMLReporter
              (Example.two_runs 1.5 0.0005)) as (tests_html & show & H & _).
  - repeat constructor; cbn; intuition discriminate.
  - intros v [<- | [<- | []]]; repeat constructor; cbn; tauto.
  - exists tests_html, show. exact H.
Defined.

(** ** A result without its status or duration *)

(** X8. A result without the key "status" or without the key "duration"
    makes [generate] raise (a KeyError) for each of the three reporters,
    whatever comes after the result: here when the runs before the run of
    the result, and the results before it in its run, are well-typed. *)
Theorem generate_raises_without_status {datetime : Type}
    (strftime : datetime -> string -> string)
    (json_dumps : option nat -> pyval -> string)
    (render : string -> string -> bool -> string) (cls : reporter_class)
    (h : Heap.heap) (self : Heap.reporter datetime)
    (before after : list (Heap.verification datetime)) (v : Heap.verification datetime)
    (runs : list (verification datetime))
    (l : Heap.loc) (items_before items_after : list (string * Heap.value))
    (results : Dict.t Result.t) (test_id : string) (lr : Heap.loc) (cr : Heap.cell) :
  Heap.verifications self = (before ++ v :: after)%list ->
  Forall2 (verification_rep h) before runs ->
  Heap.tests v = Heap.Ref l ->
  nth_error h l = Some (items_before ++ (test_id, Heap.Ref lr) :: items_after)%list ->
  Forall2 (fun kx kr =>
             fst kx = fst kr
             /\ exists lr cr, snd kx = Heap.Ref lr
                              /\ nth_error h lr = Some cr
                              /\ result_rep cr (snd kr)) items_before results ->
  nth_error h lr = Some cr ->
  Dict.get "status" cr = None \/ Dict.get "duration" cr = None ->
  Heap.generate strftime json_dumps render cls self h = None.
Proof.
  intros Hs Fv Ht Hl Fr Hr K.
  assert (G : Heap._generate strftime cls self h = None).
  { unfold Heap._generate.
    unfold Heap.alloc at 1. unfold Heap.bind at 1.
    unfold Heap.alloc at 1. unfold Heap.bind at 1.
    rewrite length_app. cbn [length]. rewrite Nat.add_1_r.
    unfold Heap.self_verifications. rewrite Hs.
    unfold Heap.bind at 1. rewrite for_each_app.
    destruct (run_verifications strftime cls h _ _ Fv _ _ _ (Inv_start h))
      as (h1 & w1 & R1 & I1 & V1 & T1).
    cbn beta iota in R1, V1, T1. rewrite (run_bind _ _ _ _ _ R1).
    cbn [Heap.for_each]. unfold Heap.bind at 1. unfold Heap.add_verification.
    unfold Heap.alloc at 1. unfold Heap.bind at 1.
    rewrite <- T1, <- V1.
    erewrite run_bind.
    2:{ apply run_setitem. apply nth_error_old.
        apply (Inv_at h _ _ w1 I1 NVerifs Logic.I). }
    pose proof (Inv_add_summary h h1 _ w1 (Heap.uuid v)
                  [("started_at", PStr (strftime (Heap.created_at v) (TIME_FORMAT cls)));
                   ("finished_at", PStr (strftime (Heap.updated_at v) (TIME_FORMAT cls)));
                   ("status", Heap.status v);
                   ("run_args", Heap.run_args v);
                   ("tests_count", Heap.tests_count v);
                   ("tests_duration", Heap.tests_duration v);
                   ("skipped", Heap.skipped v);
                   ("success", Heap.success v);
                   ("expected_failures", Heap.expected_failures v);
                   ("unexpected_success", Heap.unexpected_success v);
                   ("failures", Heap.failures v)] I1) as I2.
    cbn [summary_cell map fst snd] in I2.
    unfold Heap.v_tests. rewrite Ht.
    rewrite (run_bind _ _ _ _ _ (run_items _ _ _ (Inv_caller _ _ _ _ _ _ I2 Hl))).
    rewrite for_each_app.
    destruct (run_results h (Heap.uuid v) _ _ Fr _ _ _ _ I2) as (h3 & w3 & R3 & I3 & V3 & T3).
    rewrite put_ne in R3, T3 by discriminate.
    rewrite (run_bind _ _ _ _ _ R3). cbn [Heap.for_each].
    unfold Heap.bind at 1.
    rewrite (add_result_raises (w1 NTests) lr cr (Heap.uuid v) test_id h3).
    - reflexivity.
    - exact (Inv_caller _ _ _ _ _ _ I3 Hr).
    - pose proof (nth_error_bound _ _ _ Hr).
      pose proof (Inv_ge h h1 _ w1 I1 NTests Logic.I). lia.
    - exact K. }
  destruct cls; cbn [Heap.generate]; unfold Heap.generate_json, Heap.generate_html;
    unfold Heap.bind at 1; now rewrite G.
Qed.

Lemma generate_raises_without_status_witness :
  Heap.generate Example.strftime Example.json_dumps Example.render JSONReporter
    {| Heap.verifications := [Example.stored_run "run-1" [] 1%nat];
       Heap.output_destination := None |}
    [[("name", Heap.Val (PStr "test")); ("duration", Heap.Val (PFloat 1.0))];
     [("test", Heap.Ref 0%nat)]]
  = None.
Proof.
  apply (generate_raises_without_status Example.strftime Example.json_dumps Example.render
           JSONReporter
           [[("name", Heap.Val (PStr "test")); ("duration", Heap.Val (PFloat 1.0))];
            [("test", Heap.Ref 0%nat)]]
           {| Heap.verifications := [Example.stored_run "run-1" [] 1%nat];
              Heap.output_destination := None |}
           [] [] (Example.stored_run "run-1" [] 1%nat) []
           1%nat [] [] [] "test" 0%nat
           [("name", Heap.Val (PStr "test")); ("duration", Heap.Val (PFloat 1.0))]).
  - reflexivity.
  - constructor.
  - reflexivity.
  - reflexivity.
  - constructor.
  - reflexivity.
  - left. reflexivity.
Defined.

(** ** The report and the class of the reporter *)

(** X9. The three reporters aggregate the same report: the tests and
    their records, and the uuids of the summaries, do not depend on the
    class; a summary differs between the JSON and the HTML reporters by
    the format of its two dates alone. *)
Theorem report_independent_of_class {datetime : Type}
    (strftime : datetime -> string -> string) (cls cls' : reporter_class)
    (self : reporter datetime) :
  let report := _generate strftime cls self in
  let report' := _generate strftime cls' self in
  report_tests report = report_tests report'
  /\ Dict.keys (report_verifications report) = Dict.keys (report_verifications report')
  /\ forall u s,
       Dict.get u (report_verifications report) = Some s ->
       exists v,
         In v (verifications self)
         /\ uuid v = u
         /\ s = summary datetime strftime cls v
         /\ Dict.get u (report_verifications report')
            = Some (summary datetime strftime cls' v)
         /\ forall k, k <> "started_at" -> k <> "finished_at" ->
                      Dict.get k (match s with PDict d => d | _ => [] end)
                      = Dict.get k (match summary datetime strftime cls' v with
                                    | PDict d => d
                                    | _ => []
                                    end).
Proof.
  intros report report'. split; [|split].
  - unfold report, report'. now rewrite !generate_tests.
  - unfold report, report', _generate.
    rewrite (proj1 (summaries_of_runs strftime cls (verifications self))).
    now rewrite (proj1 (summaries_of_runs strftime cls' (verifications self))).
  - intros u s G. unfold report, report', _generate in *.
    rewrite (proj2 (summaries_of_runs strftime cls (verifications self))) in G.
    rewrite (proj2 (summaries_of_runs strftime cls' (verifications self))).
    destruct (find _ (rev (verifications self))) as [v|] eqn:F; [|discriminate].
    inversion G; subst s. apply find_some in F. destruct F as [Hin E].
    apply String.eqb_eq in E. exists v. split; [now apply in_rev|].
    split; [exact E|]. split; [reflexivity|]. split; [reflexivity|].
    intros k N1 N2. cbn [summary Dict.get].
    apply String.eqb_neq in N1, N2. now rewrite N1, N2.
Qed.

(** ** The store and the values *)



(** ** The fields of the JSON report *)


